(** * Sin City detective game: the story store, the case file and the cartridge transformer

    A shallow embedding of the client-side state management of the game
    (store/storySlice.ts, store/caseFileSlice.ts, services/cartridgeLoader.ts)
    and the properties of its specification that concern them.

    Conventions of the embedding:
    - a JavaScript [number] is a [Z] (the counters of the game are integral
      time units and points; NaN, infinities and fractions are not modelled);
    - a JavaScript object used as a dictionary is a [gmap string _];
    - a value that may be [undefined] or [null] is an [option];
    - a reducer written against an Immer draft is a function from the old
      state to the new state;
    - a body that can throw returns a [Completion]. *)

From Stdlib Require Import ZArith List String Ascii Bool Lia Permutation.
From stdpp Require Import gmap strings list fin_maps pretty.
Import ListNotations.

Local Open Scope string_scope.
Local Open Scope list_scope.
Local Open Scope Z_scope.

(* ===================================================================== *)
(** * JavaScript values and idioms used by the program *)
(* ===================================================================== *)

Module JS.

(** Untyped payloads (a component's [props], an evidence stack) are JSON. *)
#[local] Unset Elimination Schemes.
Inductive Json : Type :=
| JNull
| JBool (b : bool)
| JNum (z : Z)
| JStr (s : string)
| JArr (items : list Json)
| JObj (fields : list (string * Json)).
#[local] Set Elimination Schemes.

(** Errors the modelled code can raise. *)
Inductive Error : Type :=
| ReferenceError (identifier : string)
| TypeError (message : string).

(** The outcome of evaluating a body: a value, or a thrown error. *)
Inductive Completion (A : Type) : Type :=
| Normal (value : A)
| Throw (error : Error).
Arguments Normal {A} value.
Arguments Throw {A} error.

(** [!!s] for a string: the empty string is falsy. *)
Definition truthy_string (s : string) : bool :=
  negb (String.eqb s "").

(** [!!x] for a string that may be undefined or null. *)
Definition truthy (x : option string) : bool :=
  match x with
  | Some s => truthy_string s
  | None => false
  end.

(** [!!b] for a boolean that may be undefined. *)
Definition truthy_bool (x : option bool) : bool :=
  match x with
  | Some b => b
  | None => false
  end.

(** [!!v] for a JSON value that may be undefined. *)
Definition truthy_json (x : option Json) : bool :=
  match x with
  | None | Some JNull => false
  | Some (JBool b) => b
  | Some (JNum z) => negb (z =? 0)
  | Some (JStr s) => truthy_string s
  | Some (JArr _) | Some (JObj _) => true
  end.

(** [a === b] where [a] may be undefined and [b] is a string. *)
Definition strict_eq (a : option string) (b : string) : bool :=
  match a with
  | Some s => String.eqb s b
  | None => false
  end.

(** [n ?? 0] and [n || 0] coincide on numbers that are integers. *)
Definition or_zero (x : option Z) : Z :=
  match x with
  | Some n => n
  | None => 0
  end.

(** Property access [v.key]: undefined unless [v] is an object that has
    the key (the keys read by the program are never array or string
    built-ins). *)
Definition get (v : Json) (key : string) : option Json :=
  match v with
  | JObj fields =>
      match List.find (fun kv => String.eqb (fst kv) key) fields with
      | Some kv => Some (snd kv)
      | None => None
      end
  | _ => None
  end.

(** String conversion of a value inside a template literal. *)
Fixpoint to_string (v : Json) : string :=
  match v with
  | JNull => "null"
  | JBool true => "true"
  | JBool false => "false"
  | JNum z => pretty z
  | JStr s => s
  | JArr items =>
      (fix join (l : list Json) : string :=
         match l with
         | [] => ""
         | x :: rest =>
             let here := match x with JNull => "" | _ => to_string x end in
             match rest with
             | [] => here
             | _ => here +:+ "," +:+ join rest
             end
         end) items
  | JObj _ => "[object Object]"
  end.

(** [`${x}`] where [x] may be undefined. *)
Definition interpolate (x : option Json) : string :=
  match x with
  | Some v => to_string v
  | None => "undefined"
  end.

(** [String.prototype.toLowerCase] on the ASCII letters; bytes outside
    A-Z are left as they are. *)
Definition lower_ascii (c : ascii) : ascii :=
  let n := nat_of_ascii c in
  if (Nat.leb 65 n && Nat.leb n 90)%bool then ascii_of_nat (n + 32) else c.

Fixpoint toLowerCase (s : string) : string :=
  match s with
  | EmptyString => EmptyString
  | String c rest => String (lower_ascii c) (toLowerCase rest)
  end.

(** ** Property order of an ordinary object

    [Object.values] lists the values of the array-index keys first, in
    ascending numeric order, then those of the other string keys in the
    order in which they were created. *)

Definition digit_of (c : ascii) : option N :=
  let n := nat_of_ascii c in
  if (Nat.leb 48 n && Nat.leb n 57)%bool then Some (N.of_nat (n - 48)) else None.

Fixpoint digits_value (acc : N) (s : string) : option N :=
  match s with
  | EmptyString => Some acc
  | String c rest =>
      match digit_of c with
      | Some d => digits_value (acc * 10 + d)%N rest
      | None => None
      end
  end.

(** The canonical decimal strings of 0 .. 2^32 - 2 are array indices. *)
Definition array_index (key : string) : option N :=
  match key with
  | EmptyString => None
  | String "0" EmptyString => Some 0%N
  | String "0" _ => None
  | _ =>
      match digits_value 0%N key with
      | Some n => if (n <=? 4294967294)%N then Some n else None
      | None => None
      end
  end.

Fixpoint insert_index (k : N * string) (l : list (N * string)) : list (N * string) :=
  match l with
  | [] => [k]
  | x :: rest =>
      if (fst k <=? fst x)%N then k :: l else x :: insert_index k rest
  end.

Definition sort_indices (l : list (N * string)) : list (N * string) :=
  List.fold_right insert_index [] l.

Definition index_keys (keys : list string) : list (N * string) :=
  List.flat_map
    (fun k => match array_index k with Some n => [(n, k)] | None => [] end)
    keys.

Definition is_index (key : string) : bool :=
  match array_index key with Some _ => true | None => false end.

(** Enumeration order of an object whose keys were created in the order
    [created]. *)
Definition key_order (created : list string) : list string :=
  List.map snd (sort_indices (index_keys created))
    ++ List.filter (fun k => negb (is_index k)) created.

End JS.

(* ===================================================================== *)
(** * Redux Toolkit's unsorted entity adapter *)
(* ===================================================================== *)

(** The adapter is the library's; the slices use [getInitialState],
    [setAll], [addOne] and [updateOne], modelled after its documented
    behaviour: an entity table is the list of ids in insertion order and a
    dictionary from id to entity.  The tables of the slices are only ever
    built by these four operations, so every entity sits under its own id
    ([keyed], shown for every state of a session below). *)
Module Adapter.

Record EntityState (T : Type) : Type := mkEntityState {
  ids : list string;
  entities : gmap string T;
}.
Arguments mkEntityState {T} ids entities.
Arguments ids {T} e.
Arguments entities {T} e.

Definition getInitialState {T : Type} : EntityState T :=
  mkEntityState [] ∅.

(** [addOne]: an entity whose id is already present is ignored. *)
Definition addOne {T : Type} (selectId : T -> string) (st : EntityState T) (e : T)
  : EntityState T :=
  match entities st !! selectId e with
  | Some _ => st
  | None => mkEntityState (ids st ++ [selectId e]) (<[selectId e := e]> (entities st))
  end.

Definition addMany {T : Type} (selectId : T -> string) (st : EntityState T) (es : list T)
  : EntityState T :=
  List.fold_left (addOne selectId) es st.

(** [setAll]: empty the table, then add the entities one by one. *)
Definition setAll {T : Type} (selectId : T -> string) (st : EntityState T) (es : list T)
  : EntityState T :=
  addMany selectId getInitialState es.

(** [updateOne] with changes that leave the id alone, which is how the
    slices use it: the entity, when present, is replaced by its merge with
    the changes, [Object.assign({}, original, changes)], under the same
    key. *)
Definition updateOne {T : Type} (st : EntityState T) (id : string) (changes : T -> T)
  : EntityState T :=
  mkEntityState (ids st) (alter changes id (entities st)).

(** [Object.values(state.entities)]. *)
Definition values {T : Type} (st : EntityState T) : list T :=
  omap (fun k => entities st !! k) (JS.key_order (ids st)).

(** [selectAll]: the entities in the order of [ids]. *)
Definition selectAll {T : Type} (st : EntityState T) : list T :=
  omap (fun k => entities st !! k) (ids st).

(** Every entity sits under its own id. *)
Definition keyed {T : Type} (selectId : T -> string) (st : EntityState T) : Prop :=
  forall k e, entities st !! k = Some e -> selectId e = k.

(** The shape every table built by the adapter has. *)
Definition wf {T : Type} (selectId : T -> string) (st : EntityState T) : Prop :=
  NoDup (ids st)
  /\ (forall k, k ∈ ids st <-> is_Some (entities st !! k))
  /\ keyed selectId st.

End Adapter.

(* ===================================================================== *)
(** * The data model (types.ts, as the slices and the loader use it) *)
(* ===================================================================== *)

Module Types.

Record DataComponent : Type := mkDataComponent {
  comp_type : string;
  props : option JS.Json;
}.

Record Connections : Type := mkConnections {
  relatedPeople : list string;
  knownLocations : list string;
  associatedObjects : list string;
}.

Record Character : Type := mkCharacter {
  char_id : string;
  char_name : string;
  age : string;
  occupation : string;
  char_imagePrompt : string;
  char_description : string;
  role : string;
  isSuspect : bool;
  connections : Connections;
  testimonyIds : list string;
  char_components : list DataComponent;
}.

(** The target kinds of an unlock: 'location', 'sublocation', 'evidence',
    'character' and 'event'. *)
Inductive UnlockType : Type :=
| ULocation
| USublocation
| UEvidence
| UCharacter
| UEvent.

Record Unlock : Type := mkUnlock {
  unlock_type : UnlockType;
  ref : string;
  time : Z;
}.

Record StoryObject : Type := mkStoryObject {
  id : string;
  name : string;
  imagePrompt : string;
  description : string;
  unidentifiedDescription : option string;
  timestamp : string;
  isEvidence : bool;
  assignedToSuspectIds : list string;
  locationFoundId : string;
  category : string;
  tags : list string;
  authorCharacterId : option string;
  ownerCharacterId : option string;
  timeToAdd : option Z;
  hasBeenUnlocked : option bool;
  rarity : string;
  components : list DataComponent;
  unlocks : list Unlock;
}.

Record StoryEvent : Type := mkStoryEvent {
  event_id : string;
  event_name : string;
  event_imagePrompt : string;
  event_description : string;
  event_timestamp : string;
  event_locationId : string;
  event_timeToAdd : option Z;
  event_hasBeenUnlocked : option bool;
  event_rarity : string;
  event_tags : list string;
  event_components : list DataComponent;
}.

Record Sublocation : Type := mkSublocation {
  subloc_id : string;
  subloc_name : string;
  subloc_description : string;
  subloc_locationId : string;
  isVisible : bool;
  subloc_timeToAdd : option Z;
  subloc_hasBeenUnlocked : option bool;
}.

Record Hotspot : Type := mkHotspot {
  hs_id : string;
  label : string;
  hs_type : string;
  targetCardId : string;
  targetCardType : string;
  coords : option JS.Json;
  aiHint : option string;
}.

Record Location : Type := mkLocation {
  loc_id : string;
  loc_name : string;
  loc_imagePrompt : string;
  loc_description : string;
  hotspots : list Hotspot;
  mapCoords : string * string;
  lastEventTimestamp : string;
  lastEventDescription : string;
  sceneSummary : string;
  isInternal : bool;
}.

Inductive CardType : Type :=
| CardCharacter
| CardObject.

(** An entry of the evidence timeline. *)
Record Evidence : Type := mkEvidence {
  ev_id : string;
  cardId : string;
  cardType : CardType;
  ev_name : string;
  ev_imagePrompt : string;
  timestampCollected : string;
  locationId : string;
}.

Record Testimony : Type := mkTestimony {
  testimony_id : string;
  title : string;
  content : string;
  sourceCharacterId : string;
}.

Record StoryInfo : Type := mkStoryInfo {
  mapImagePrompt : string;
  mapTitle : string;
  crimeSceneId : string;
}.

Record EvidenceGroup : Type := mkEvidenceGroup {
  group_id : string;
  objectIds : list string;
}.

Record Bounty : Type := mkBounty {
  bounty_id : string;
  bounty_title : string;
  bounty_description : string;
  reward : Z;
}.

Record KeyEvent : Type := mkKeyEvent {
  eventId : string;
  key_timestamp : string;
  key_description : string;
}.

Record CanonicalTimeline : Type := mkCanonicalTimeline {
  culpritId : string;
  keyEvents : list KeyEvent;
}.

(** What the cartridge service hands to the store. *)
Record StoryData : Type := mkStoryData {
  sd_title : string;
  sd_storyInfo : StoryInfo;
  sd_characters : list Character;
  sd_objects : list StoryObject;
  sd_events : option (list StoryEvent);
  sd_locations : list Location;
  sd_sublocations : option (list Sublocation);
  sd_evidenceGroups : list EvidenceGroup;
  sd_testimonies : list Testimony;
  sd_bounties : list Bounty;
  sd_canonicalTimeline : option CanonicalTimeline;
  sd_evidenceStacks : option (list JS.Json);
}.

(** Updates of single fields of an object, as [changes] of [updateOne]. *)
Definition with_isEvidence (v : bool) (o : StoryObject) : StoryObject :=
  {| id := id o; name := name o; imagePrompt := imagePrompt o;
     description := description o;
     unidentifiedDescription := unidentifiedDescription o;
     timestamp := timestamp o; isEvidence := v;
     assignedToSuspectIds := assignedToSuspectIds o;
     locationFoundId := locationFoundId o; category := category o;
     tags := tags o; authorCharacterId := authorCharacterId o;
     ownerCharacterId := ownerCharacterId o; timeToAdd := timeToAdd o;
     hasBeenUnlocked := hasBeenUnlocked o; rarity := rarity o;
     components := components o; unlocks := unlocks o |}.

Definition with_assignedToSuspectIds (v : list string) (o : StoryObject) : StoryObject :=
  {| id := id o; name := name o; imagePrompt := imagePrompt o;
     description := description o;
     unidentifiedDescription := unidentifiedDescription o;
     timestamp := timestamp o; isEvidence := isEvidence o;
     assignedToSuspectIds := v;
     locationFoundId := locationFoundId o; category := category o;
     tags := tags o; authorCharacterId := authorCharacterId o;
     ownerCharacterId := ownerCharacterId o; timeToAdd := timeToAdd o;
     hasBeenUnlocked := hasBeenUnlocked o; rarity := rarity o;
     components := components o; unlocks := unlocks o |}.

Definition with_hasBeenUnlocked (v : bool) (o : StoryObject) : StoryObject :=
  {| id := id o; name := name o; imagePrompt := imagePrompt o;
     description := description o;
     unidentifiedDescription := unidentifiedDescription o;
     timestamp := timestamp o; isEvidence := isEvidence o;
     assignedToSuspectIds := assignedToSuspectIds o;
     locationFoundId := locationFoundId o; category := category o;
     tags := tags o; authorCharacterId := authorCharacterId o;
     ownerCharacterId := ownerCharacterId o; timeToAdd := timeToAdd o;
     hasBeenUnlocked := Some v; rarity := rarity o;
     components := components o; unlocks := unlocks o |}.

Definition event_with_hasBeenUnlocked (v : bool) (e : StoryEvent) : StoryEvent :=
  {| event_id := event_id e; event_name := event_name e;
     event_imagePrompt := event_imagePrompt e;
     event_description := event_description e;
     event_timestamp := event_timestamp e;
     event_locationId := event_locationId e;
     event_timeToAdd := event_timeToAdd e;
     event_hasBeenUnlocked := Some v; event_rarity := event_rarity e;
     event_tags := event_tags e; event_components := event_components e |}.

Definition subloc_with_unlocked (visible unlocked : bool) (sl : Sublocation) : Sublocation :=
  {| subloc_id := subloc_id sl; subloc_name := subloc_name sl;
     subloc_description := subloc_description sl;
     subloc_locationId := subloc_locationId sl; isVisible := visible;
     subloc_timeToAdd := subloc_timeToAdd sl;
     subloc_hasBeenUnlocked := Some unlocked |}.

Definition with_isSuspect (v : bool) (c : Character) : Character :=
  {| char_id := char_id c; char_name := char_name c; age := age c;
     occupation := occupation c; char_imagePrompt := char_imagePrompt c;
     char_description := char_description c; role := role c; isSuspect := v;
     connections := connections c; testimonyIds := testimonyIds c;
     char_components := char_components c |}.

End Types.

(* ===================================================================== *)
(** * store/storySlice.ts: the entity store *)
(* ===================================================================== *)

Module Story.
Import Types.

Inductive ColorTreatment : Type :=
| monochrome
| selectiveColor
| map_treatment.

(** A single image generation request in the queue. *)
Record ImageGenerationRequest : Type := mkImageGenerationRequest {
  request_cardId : string;
  prompt : string;
  colorTreatment : ColorTreatment;
}.

(** The constants of config.ts the slice reads. *)
Record Config : Type := mkConfig {
  INITIAL_PLAYER_TIME_SPENT : Z;
  MILESTONE_THRESHOLD : Z;
  ACCUSATION_THRESHOLD : Z;
  CONCURRENT_REQUEST_LIMIT : Z;
}.

Record StoryState : Type := mkStoryState {
  title : string;
  storyInfo : StoryInfo;
  characters : Adapter.EntityState Character;
  objects : Adapter.EntityState StoryObject;
  events : Adapter.EntityState StoryEvent;
  locations : Adapter.EntityState Location;
  sublocations : Adapter.EntityState Sublocation;
  evidenceGroups : Adapter.EntityState EvidenceGroup;
  bounties : Adapter.EntityState Bounty;
  evidence : list Evidence;
  testimonies : list Testimony;
  canonicalTimeline : option CanonicalTimeline;
  evidenceStacks : option (list JS.Json);
  imageUrls : gmap string string;
  imageLoading : gmap string bool;
  imageErrors : gmap string bool;
  imageGenerationQueue : list ImageGenerationRequest;
  isProcessingQueue : bool;
  hasDiscoveredPaint : bool;
  timeSpent : Z;
  milestoneThreshold : Z;
  accusationThreshold : Z;
  totalDiscoverableEvidence : Z;
  dynamicHotspotCoords : gmap string (gmap string (Z * Z));
}.

(** Assignments to single fields of the draft state. *)
Definition set_characters (v : Adapter.EntityState Character) (s : StoryState) : StoryState :=
  {| title := title s; storyInfo := storyInfo s; characters := v;
     objects := objects s; events := events s; locations := locations s;
     sublocations := sublocations s; evidenceGroups := evidenceGroups s;
     bounties := bounties s; evidence := evidence s;
     testimonies := testimonies s; canonicalTimeline := canonicalTimeline s;
     evidenceStacks := evidenceStacks s; imageUrls := imageUrls s;
     imageLoading := imageLoading s; imageErrors := imageErrors s;
     imageGenerationQueue := imageGenerationQueue s;
     isProcessingQueue := isProcessingQueue s;
     hasDiscoveredPaint := hasDiscoveredPaint s; timeSpent := timeSpent s;
     milestoneThreshold := milestoneThreshold s;
     accusationThreshold := accusationThreshold s;
     totalDiscoverableEvidence := totalDiscoverableEvidence s;
     dynamicHotspotCoords := dynamicHotspotCoords s |}.

Definition set_objects (v : Adapter.EntityState StoryObject) (s : StoryState) : StoryState :=
  {| title := title s; storyInfo := storyInfo s; characters := characters s;
     objects := v; events := events s; locations := locations s;
     sublocations := sublocations s; evidenceGroups := evidenceGroups s;
     bounties := bounties s; evidence := evidence s;
     testimonies := testimonies s; canonicalTimeline := canonicalTimeline s;
     evidenceStacks := evidenceStacks s; imageUrls := imageUrls s;
     imageLoading := imageLoading s; imageErrors := imageErrors s;
     imageGenerationQueue := imageGenerationQueue s;
     isProcessingQueue := isProcessingQueue s;
     hasDiscoveredPaint := hasDiscoveredPaint s; timeSpent := timeSpent s;
     milestoneThreshold := milestoneThreshold s;
     accusationThreshold := accusationThreshold s;
     totalDiscoverableEvidence := totalDiscoverableEvidence s;
     dynamicHotspotCoords := dynamicHotspotCoords s |}.

Definition set_events (v : Adapter.EntityState StoryEvent) (s : StoryState) : StoryState :=
  {| title := title s; storyInfo := storyInfo s; characters := characters s;
     objects := objects s; events := v; locations := locations s;
     sublocations := sublocations s; evidenceGroups := evidenceGroups s;
     bounties := bounties s; evidence := evidence s;
     testimonies := testimonies s; canonicalTimeline := canonicalTimeline s;
     evidenceStacks := evidenceStacks s; imageUrls := imageUrls s;
     imageLoading := imageLoading s; imageErrors := imageErrors s;
     imageGenerationQueue := imageGenerationQueue s;
     isProcessingQueue := isProcessingQueue s;
     hasDiscoveredPaint := hasDiscoveredPaint s; timeSpent := timeSpent s;
     milestoneThreshold := milestoneThreshold s;
     accusationThreshold := accusationThreshold s;
     totalDiscoverableEvidence := totalDiscoverableEvidence s;
     dynamicHotspotCoords := dynamicHotspotCoords s |}.

Definition set_sublocations (v : Adapter.EntityState Sublocation) (s : StoryState) : StoryState :=
  {| title := title s; storyInfo := storyInfo s; characters := characters s;
     objects := objects s; events := events s; locations := locations s;
     sublocations := v; evidenceGroups := evidenceGroups s;
     bounties := bounties s; evidence := evidence s;
     testimonies := testimonies s; canonicalTimeline := canonicalTimeline s;
     evidenceStacks := evidenceStacks s; imageUrls := imageUrls s;
     imageLoading := imageLoading s; imageErrors := imageErrors s;
     imageGenerationQueue := imageGenerationQueue s;
     isProcessingQueue := isProcessingQueue s;
     hasDiscoveredPaint := hasDiscoveredPaint s; timeSpent := timeSpent s;
     milestoneThreshold := milestoneThreshold s;
     accusationThreshold := accusationThreshold s;
     totalDiscoverableEvidence := totalDiscoverableEvidence s;
     dynamicHotspotCoords := dynamicHotspotCoords s |}.

Definition set_evidence (v : list Evidence) (s : StoryState) : StoryState :=
  {| title := title s; storyInfo := storyInfo s; characters := characters s;
     objects := objects s; events := events s; locations := locations s;
     sublocations := sublocations s; evidenceGroups := evidenceGroups s;
     bounties := bounties s; evidence := v; testimonies := testimonies s;
     canonicalTimeline := canonicalTimeline s;
     evidenceStacks := evidenceStacks s; imageUrls := imageUrls s;
     imageLoading := imageLoading s; imageErrors := imageErrors s;
     imageGenerationQueue := imageGenerationQueue s;
     isProcessingQueue := isProcessingQueue s;
     hasDiscoveredPaint := hasDiscoveredPaint s; timeSpent := timeSpent s;
     milestoneThreshold := milestoneThreshold s;
     accusationThreshold := accusationThreshold s;
     totalDiscoverableEvidence := totalDiscoverableEvidence s;
     dynamicHotspotCoords := dynamicHotspotCoords s |}.

Definition set_imageUrls (v : gmap string string) (s : StoryState) : StoryState :=
  {| title := title s; storyInfo := storyInfo s; characters := characters s;
     objects := objects s; events := events s; locations := locations s;
     sublocations := sublocations s; evidenceGroups := evidenceGroups s;
     bounties := bounties s; evidence := evidence s;
     testimonies := testimonies s; canonicalTimeline := canonicalTimeline s;
     evidenceStacks := evidenceStacks s; imageUrls := v;
     imageLoading := imageLoading s; imageErrors := imageErrors s;
     imageGenerationQueue := imageGenerationQueue s;
     isProcessingQueue := isProcessingQueue s;
     hasDiscoveredPaint := hasDiscoveredPaint s; timeSpent := timeSpent s;
     milestoneThreshold := milestoneThreshold s;
     accusationThreshold := accusationThreshold s;
     totalDiscoverableEvidence := totalDiscoverableEvidence s;
     dynamicHotspotCoords := dynamicHotspotCoords s |}.

Definition set_imageLoading (v : gmap string bool) (s : StoryState) : StoryState :=
  {| title := title s; storyInfo := storyInfo s; characters := characters s;
     objects := objects s; events := events s; locations := locations s;
     sublocations := sublocations s; evidenceGroups := evidenceGroups s;
     bounties := bounties s; evidence := evidence s;
     testimonies := testimonies s; canonicalTimeline := canonicalTimeline s;
     evidenceStacks := evidenceStacks s; imageUrls := imageUrls s;
     imageLoading := v; imageErrors := imageErrors s;
     imageGenerationQueue := imageGenerationQueue s;
     isProcessingQueue := isProcessingQueue s;
     hasDiscoveredPaint := hasDiscoveredPaint s; timeSpent := timeSpent s;
     milestoneThreshold := milestoneThreshold s;
     accusationThreshold := accusationThreshold s;
     totalDiscoverableEvidence := totalDiscoverableEvidence s;
     dynamicHotspotCoords := dynamicHotspotCoords s |}.

Definition set_imageErrors (v : gmap string bool) (s : StoryState) : StoryState :=
  {| title := title s; storyInfo := storyInfo s; characters := characters s;
     objects := objects s; events := events s; locations := locations s;
     sublocations := sublocations s; evidenceGroups := evidenceGroups s;
     bounties := bounties s; evidence := evidence s;
     testimonies := testimonies s; canonicalTimeline := canonicalTimeline s;
     evidenceStacks := evidenceStacks s; imageUrls := imageUrls s;
     imageLoading := imageLoading s; imageErrors := v;
     imageGenerationQueue := imageGenerationQueue s;
     isProcessingQueue := isProcessingQueue s;
     hasDiscoveredPaint := hasDiscoveredPaint s; timeSpent := timeSpent s;
     milestoneThreshold := milestoneThreshold s;
     accusationThreshold := accusationThreshold s;
     totalDiscoverableEvidence := totalDiscoverableEvidence s;
     dynamicHotspotCoords := dynamicHotspotCoords s |}.

Definition set_imageGenerationQueue (v : list ImageGenerationRequest) (s : StoryState) : StoryState :=
  {| title := title s; storyInfo := storyInfo s; characters := characters s;
     objects := objects s; events := events s; locations := locations s;
     sublocations := sublocations s; evidenceGroups := evidenceGroups s;
     bounties := bounties s; evidence := evidence s;
     testimonies := testimonies s; canonicalTimeline := canonicalTimeline s;
     evidenceStacks := evidenceStacks s; imageUrls := imageUrls s;
     imageLoading := imageLoading s; imageErrors := imageErrors s;
     imageGenerationQueue := v; isProcessingQueue := isProcessingQueue s;
     hasDiscoveredPaint := hasDiscoveredPaint s; timeSpent := timeSpent s;
     milestoneThreshold := milestoneThreshold s;
     accusationThreshold := accusationThreshold s;
     totalDiscoverableEvidence := totalDiscoverableEvidence s;
     dynamicHotspotCoords := dynamicHotspotCoords s |}.

Definition set_isProcessingQueue (v : bool) (s : StoryState) : StoryState :=
  {| title := title s; storyInfo := storyInfo s; characters := characters s;
     objects := objects s; events := events s; locations := locations s;
     sublocations := sublocations s; evidenceGroups := evidenceGroups s;
     bounties := bounties s; evidence := evidence s;
     testimonies := testimonies s; canonicalTimeline := canonicalTimeline s;
     evidenceStacks := evidenceStacks s; imageUrls := imageUrls s;
     imageLoading := imageLoading s; imageErrors := imageErrors s;
     imageGenerationQueue := imageGenerationQueue s; isProcessingQueue := v;
     hasDiscoveredPaint := hasDiscoveredPaint s; timeSpent := timeSpent s;
     milestoneThreshold := milestoneThreshold s;
     accusationThreshold := accusationThreshold s;
     totalDiscoverableEvidence := totalDiscoverableEvidence s;
     dynamicHotspotCoords := dynamicHotspotCoords s |}.

Definition set_hasDiscoveredPaint (v : bool) (s : StoryState) : StoryState :=
  {| title := title s; storyInfo := storyInfo s; characters := characters s;
     objects := objects s; events := events s; locations := locations s;
     sublocations := sublocations s; evidenceGroups := evidenceGroups s;
     bounties := bounties s; evidence := evidence s;
     testimonies := testimonies s; canonicalTimeline := canonicalTimeline s;
     evidenceStacks := evidenceStacks s; imageUrls := imageUrls s;
     imageLoading := imageLoading s; imageErrors := imageErrors s;
     imageGenerationQueue := imageGenerationQueue s;
     isProcessingQueue := isProcessingQueue s; hasDiscoveredPaint := v;
     timeSpent := timeSpent s; milestoneThreshold := milestoneThreshold s;
     accusationThreshold := accusationThreshold s;
     totalDiscoverableEvidence := totalDiscoverableEvidence s;
     dynamicHotspotCoords := dynamicHotspotCoords s |}.

Definition set_timeSpent (v : Z) (s : StoryState) : StoryState :=
  {| title := title s; storyInfo := storyInfo s; characters := characters s;
     objects := objects s; events := events s; locations := locations s;
     sublocations := sublocations s; evidenceGroups := evidenceGroups s;
     bounties := bounties s; evidence := evidence s;
     testimonies := testimonies s; canonicalTimeline := canonicalTimeline s;
     evidenceStacks := evidenceStacks s; imageUrls := imageUrls s;
     imageLoading := imageLoading s; imageErrors := imageErrors s;
     imageGenerationQueue := imageGenerationQueue s;
     isProcessingQueue := isProcessingQueue s;
     hasDiscoveredPaint := hasDiscoveredPaint s; timeSpent := v;
     milestoneThreshold := milestoneThreshold s;
     accusationThreshold := accusationThreshold s;
     totalDiscoverableEvidence := totalDiscoverableEvidence s;
     dynamicHotspotCoords := dynamicHotspotCoords s |}.

Definition set_dynamicHotspotCoords (v : gmap string (gmap string (Z * Z))) (s : StoryState) : StoryState :=
  {| title := title s; storyInfo := storyInfo s; characters := characters s;
     objects := objects s; events := events s; locations := locations s;
     sublocations := sublocations s; evidenceGroups := evidenceGroups s;
     bounties := bounties s; evidence := evidence s;
     testimonies := testimonies s; canonicalTimeline := canonicalTimeline s;
     evidenceStacks := evidenceStacks s; imageUrls := imageUrls s;
     imageLoading := imageLoading s; imageErrors := imageErrors s;
     imageGenerationQueue := imageGenerationQueue s;
     isProcessingQueue := isProcessingQueue s;
     hasDiscoveredPaint := hasDiscoveredPaint s; timeSpent := timeSpent s;
     milestoneThreshold := milestoneThreshold s;
     accusationThreshold := accusationThreshold s;
     totalDiscoverableEvidence := totalDiscoverableEvidence s;
     dynamicHotspotCoords := v |}.

(** The empty state that the cartridge load populates. *)
Definition createEmptyInitialState (cfg : Config) : StoryState :=
  {| title := "";
     storyInfo := {| mapImagePrompt := ""; mapTitle := ""; crimeSceneId := "" |};
     characters := Adapter.getInitialState;
     objects := Adapter.getInitialState;
     events := Adapter.getInitialState;
     locations := Adapter.getInitialState;
     sublocations := Adapter.getInitialState;
     evidenceGroups := Adapter.getInitialState;
     bounties := Adapter.getInitialState;
     evidence := [];
     testimonies := [];
     canonicalTimeline := None;
     evidenceStacks := None;
     imageUrls := ∅;
     imageLoading := ∅;
     imageErrors := ∅;
     imageGenerationQueue := [];
     isProcessingQueue := false;
     hasDiscoveredPaint := false;
     timeSpent := INITIAL_PLAYER_TIME_SPENT cfg;
     milestoneThreshold := MILESTONE_THRESHOLD cfg;
     accusationThreshold := ACCUSATION_THRESHOLD cfg;
     totalDiscoverableEvidence := 0;
     dynamicHotspotCoords := ∅ |}.

Definition initialState (cfg : Config) : StoryState :=
  createEmptyInitialState cfg.

(** ** The thunk loadStoryCartridge: the payload built from the story data *)

Record LoadPayload : Type := mkLoadPayload {
  storyData : StoryData;
  initialEvidence : list Evidence;
  payload_totalDiscoverableEvidence : Z;
}.

Definition loadStoryCartridge (data : StoryData) : LoadPayload :=
  let victim := List.find (fun c => String.eqb (role c) "victim") (sd_characters data) in
  let crimeScene :=
    if JS.truthy_string (crimeSceneId (sd_storyInfo data))
    then List.find (fun l => String.eqb (loc_id l) (crimeSceneId (sd_storyInfo data)))
                   (sd_locations data)
    else None in
  let evidenceLocation :=
    match crimeScene with
    | Some l => Some l
    | None => head (sd_locations data)
    end in
  let initial :=
    match victim, evidenceLocation with
    | Some v, Some l =>
        [ {| ev_id := "ev-initial-crime";
             cardId := char_id v;
             cardType := CardCharacter;
             ev_name := "The Death of " +:+ char_name v;
             ev_imagePrompt := char_imagePrompt v;
             timestampCollected := lastEventTimestamp l;
             locationId := loc_id l |} ]
    | _, _ => []
    end in
  {| storyData := data;
     initialEvidence := initial;
     payload_totalDiscoverableEvidence :=
       Z.of_nat (length (List.filter (fun o => negb (JS.truthy (authorCharacterId o)))
                                     (sd_objects data))) + 1 |}.

(** extraReducers, case loadStoryCartridge.fulfilled. *)
Definition loadStoryCartridge_fulfilled (payload : LoadPayload) (state : StoryState)
  : StoryState :=
  let data := storyData payload in
  {| title := sd_title data;
     storyInfo := sd_storyInfo data;
     characters := Adapter.setAll char_id Adapter.getInitialState (sd_characters data);
     objects := Adapter.setAll id Adapter.getInitialState (sd_objects data);
     events := Adapter.setAll event_id Adapter.getInitialState
                 (default [] (sd_events data));
     locations := Adapter.setAll loc_id Adapter.getInitialState (sd_locations data);
     sublocations := Adapter.setAll subloc_id Adapter.getInitialState
                       (default [] (sd_sublocations data));
     evidenceGroups := Adapter.setAll group_id Adapter.getInitialState
                         (sd_evidenceGroups data);
     bounties := Adapter.setAll bounty_id Adapter.getInitialState (sd_bounties data);
     evidence := initialEvidence payload;
     testimonies := sd_testimonies data;
     canonicalTimeline := sd_canonicalTimeline data;
     evidenceStacks := sd_evidenceStacks data;
     imageUrls := imageUrls state;
     imageLoading := imageLoading state;
     imageErrors := imageErrors state;
     imageGenerationQueue := imageGenerationQueue state;
     isProcessingQueue := isProcessingQueue state;
     hasDiscoveredPaint := hasDiscoveredPaint state;
     timeSpent := timeSpent state;
     milestoneThreshold := milestoneThreshold state;
     accusationThreshold := accusationThreshold state;
     totalDiscoverableEvidence := payload_totalDiscoverableEvidence payload;
     dynamicHotspotCoords := dynamicHotspotCoords state |}.

(** ** The reducers *)

Definition toggleSuspect (cid : string) (suspect : bool) (state : StoryState)
  : StoryState :=
  match Adapter.entities (characters state) !! cid with
  | Some c =>
      if String.eqb (role c) "suspect"
      then set_characters
             (Adapter.updateOne (characters state) cid (with_isSuspect suspect)) state
      else state
  | None => state
  end.

(** [state.evidence.some(e => e.cardId === id)]. *)
Definition onTimeline (oid : string) (state : StoryState) : bool :=
  List.existsb (fun e => String.eqb (cardId e) oid) (evidence state).

(** [state.locations.entities[item.locationFoundId]
     || Object.values(state.locations.entities)[0]]. *)
Definition locationOf (item : StoryObject) (state : StoryState) : option Location :=
  match Adapter.entities (locations state) !! locationFoundId item with
  | Some l => Some l
  | None => head (Adapter.values (locations state))
  end.

Definition addToTimeline (oid : string) (state : StoryState) : StoryState :=
  match Adapter.entities (objects state) !! oid with
  | None => state
  | Some item =>
      if onTimeline oid state then state
      else
        let state1 :=
          if negb (JS.truthy_bool (hasBeenUnlocked item)) then
            (* Case 1: first time on the timeline: the one-time cost *)
            let cost := JS.or_zero (timeToAdd item) in
            set_objects
              (Adapter.updateOne (objects state) oid
                 (fun o => with_hasBeenUnlocked true (with_isEvidence true o)))
              (set_timeSpent (timeSpent state + cost) state)
          else
            (* Case 2: unlocked before and removed: re-adding is free *)
            set_objects
              (Adapter.updateOne (objects state) oid (with_isEvidence true)) state in
        if negb (onTimeline oid state1) then
          match locationOf item state1 with
          | Some l =>
              set_evidence
                (evidence state1 ++
                   [ {| ev_id := "ev-" +:+ oid;
                        cardId := id item;
                        cardType := CardObject;
                        ev_name := name item;
                        ev_imagePrompt := imagePrompt item;
                        timestampCollected := timestamp item;
                        locationId := loc_id l |} ])
                state1
          | None => state1
          end
        else state1
  end.

Definition removeFromTimeline (oid : string) (state : StoryState) : StoryState :=
  match Adapter.entities (objects state) !! oid with
  | Some item =>
      if isEvidence item then
        (* time is not refunded upon removal *)
        let state1 :=
          set_objects
            (Adapter.updateOne (objects state) oid
               (fun o => with_assignedToSuspectIds [] (with_isEvidence false o)))
            state in
        set_evidence
          (List.filter (fun e => negb (String.eqb (cardId e) oid)) (evidence state1))
          state1
      else state
  | None => state
  end.

Definition assignEvidenceToSuspect (objectId suspectId : string) (state : StoryState)
  : StoryState :=
  match Adapter.entities (objects state) !! objectId with
  | Some object =>
      let assignedIds :=
        if List.existsb (String.eqb suspectId) (assignedToSuspectIds object)
        then List.filter (fun i => negb (String.eqb i suspectId))
                         (assignedToSuspectIds object)
        else assignedToSuspectIds object ++ [suspectId] in
      set_objects
        (Adapter.updateOne (objects state) objectId
           (with_assignedToSuspectIds assignedIds))
        state
  | None => state
  end.

Definition queueImageGeneration (request : ImageGenerationRequest) (state : StoryState)
  : StoryState :=
  let cid := request_cardId request in
  let isInQueue :=
    List.existsb (fun req => String.eqb (request_cardId req) cid)
                 (imageGenerationQueue state) in
  let isAlreadyLoaded := JS.truthy (imageUrls state !! cid) in
  let isLoading := JS.truthy_bool (imageLoading state !! cid) in
  if (negb isInQueue && negb isAlreadyLoaded && negb isLoading)%bool
  then set_imageGenerationQueue (imageGenerationQueue state ++ [request]) state
  else state.

(** [state.imageGenerationQueue.splice(0, n)]. *)
Definition dequeueImageRequests (n : nat) (state : StoryState) : StoryState :=
  set_imageGenerationQueue (drop n (imageGenerationQueue state)) state.

Definition setIsProcessingQueue (b : bool) (state : StoryState) : StoryState :=
  set_isProcessingQueue b state.

Definition setImageLoading (cid : string) (isLoading : bool) (state : StoryState)
  : StoryState :=
  set_imageLoading (<[cid := isLoading]> (imageLoading state)) state.

Definition setImageUrl (cid : string) (imageUrl : string) (state : StoryState)
  : StoryState :=
  set_imageUrls (<[cid := imageUrl]> (imageUrls state)) state.

(** [{ ...state.imageUrls, ...payload }]: the payload wins. *)
Definition setImageUrls (urls : gmap string string) (state : StoryState) : StoryState :=
  set_imageUrls (urls ∪ imageUrls state) state.

Definition setImageError (cid : string) (hasError : bool) (state : StoryState)
  : StoryState :=
  set_imageErrors (<[cid := hasError]> (imageErrors state)) state.

Definition setHasDiscoveredPaint (b : bool) (state : StoryState) : StoryState :=
  set_hasDiscoveredPaint b state.

Definition addDynamicObject (o : StoryObject) (state : StoryState) : StoryState :=
  set_objects (Adapter.addOne id (objects state) o) state.

Definition addTimeSpent (amount : Z) (state : StoryState) : StoryState :=
  set_timeSpent (timeSpent state + amount) state.

Definition subtractTimeSpent (amount : Z) (state : StoryState) : StoryState :=
  set_timeSpent (Z.max 0 (timeSpent state - amount)) state.

Definition setDynamicHotspotCoords (locationId : string) (coords : gmap string (Z * Z))
  (state : StoryState) : StoryState :=
  set_dynamicHotspotCoords (<[locationId := coords]> (dynamicHotspotCoords state)) state.

Definition unlockEntity (type : UnlockType) (ref : string) (timeToAdd : Z)
  (state : StoryState) : StoryState :=
  (* Add time to player's total *)
  let state1 := set_timeSpent (timeSpent state + timeToAdd) state in
  match type with
  | ULocation => state1
  | USublocation =>
      match Adapter.entities (sublocations state1) !! ref with
      | Some sl =>
          if negb (JS.truthy_bool (subloc_hasBeenUnlocked sl))
          then set_sublocations
                 (Adapter.updateOne (sublocations state1) ref
                    (subloc_with_unlocked true true))
                 state1
          else state1
      | None => state1
      end
  | UEvidence =>
      match Adapter.entities (objects state1) !! ref with
      | Some object =>
          if negb (JS.truthy_bool (hasBeenUnlocked object))
          then set_objects
                 (Adapter.updateOne (objects state1) ref (with_hasBeenUnlocked true))
                 state1
          else state1
      | None => state1
      end
  | UCharacter => state1
  | UEvent =>
      match Adapter.entities (events state1) !! ref with
      | Some e =>
          if negb (JS.truthy_bool (event_hasBeenUnlocked e))
          then set_events
                 (Adapter.updateOne (events state1) ref (event_with_hasBeenUnlocked true))
                 state1
          else state1
      | None => state1
      end
  end.

(** ** The actions of the slice and its reducer *)

Inductive Action : Type :=
| LoadStoryCartridgeFulfilled (data : StoryData)
| ToggleSuspect (cid : string) (suspect : bool)
| AddToTimeline (oid : string)
| RemoveFromTimeline (oid : string)
| AssignEvidenceToSuspect (objectId suspectId : string)
| QueueImageGeneration (request : ImageGenerationRequest)
| DequeueImageRequests (n : nat)
| SetIsProcessingQueue (b : bool)
| SetImageLoading (cid : string) (isLoading : bool)
| SetImageUrl (cid : string) (imageUrl : string)
| SetImageUrls (urls : gmap string string)
| SetImageError (cid : string) (hasError : bool)
| SetHasDiscoveredPaint (b : bool)
| AddDynamicObject (o : StoryObject)
| AddTimeSpent (amount : Z)
| SubtractTimeSpent (amount : Z)
| SetDynamicHotspotCoords (locationId : string) (coords : gmap string (Z * Z))
| UnlockEntity (type : UnlockType) (ref : string) (timeToAdd : Z).

Definition reducer (state : StoryState) (action : Action) : StoryState :=
  match action with
  | LoadStoryCartridgeFulfilled data =>
      loadStoryCartridge_fulfilled (loadStoryCartridge data) state
  | ToggleSuspect cid b => toggleSuspect cid b state
  | AddToTimeline oid => addToTimeline oid state
  | RemoveFromTimeline oid => removeFromTimeline oid state
  | AssignEvidenceToSuspect o su => assignEvidenceToSuspect o su state
  | QueueImageGeneration r => queueImageGeneration r state
  | DequeueImageRequests n => dequeueImageRequests n state
  | SetIsProcessingQueue b => setIsProcessingQueue b state
  | SetImageLoading c b => setImageLoading c b state
  | SetImageUrl c u => setImageUrl c u state
  | SetImageUrls urls => setImageUrls urls state
  | SetImageError c b => setImageError c b state
  | SetHasDiscoveredPaint b => setHasDiscoveredPaint b state
  | AddDynamicObject o => addDynamicObject o state
  | AddTimeSpent a => addTimeSpent a state
  | SubtractTimeSpent a => subtractTimeSpent a state
  | SetDynamicHotspotCoords l c => setDynamicHotspotCoords l c state
  | UnlockEntity t r c => unlockEntity t r c state
  end.

(** The store after a sequence of dispatched actions. *)
Definition dispatchAll (actions : list Action) (state : StoryState) : StoryState :=
  List.fold_left reducer actions state.

(** The states a session can be in. *)
Definition reachable (cfg : Config) (state : StoryState) : Prop :=
  exists actions, state = dispatchAll actions (initialState cfg).

End Story.

(* ===================================================================== *)
(** * store/storySlice.ts: the image generation queue processor *)
(* ===================================================================== *)

(** The thunk [processImageGenerationQueue] talks to the image service and
    to the blob cache.  What those do for a request is given by an oracle;
    the order in which the requests of a batch settle is given by a second
    one.  The thunk is then a function on the store state, which it only
    changes by dispatching actions of the slice.  No other action is
    dispatched while the thunk runs. *)
Module ImageQueue.
Import Types Story.

(** What the [try] block of a request does: [generateImageAPI] returned an
    image, which was saved and for which [URL.createObjectURL] gave
    [objectURL]; or it returned nothing; or something in the block threw. *)
Inductive Outcome : Type :=
| Published (objectURL : string)
| NoImage
| Thrown.

Record World : Type := mkWorld {
  service : ImageGenerationRequest -> Outcome;
  settleOrder : list ImageGenerationRequest -> list ImageGenerationRequest;
}.

(** Some request of [all] with card id [c] was published, and the store
    holds its URL under [c]. *)
Definition urlHeld (w : World) (all : list ImageGenerationRequest) (s : StoryState)
  (c : string) : Prop :=
  exists r' url',
    r' ∈ all /\ request_cardId r' = c /\ service w r' = Published url'
    /\ imageUrls s !! c = Some url'.

(** The request did not produce an image. *)
Definition failed (w : World) (r : ImageGenerationRequest) : Prop :=
  service w r = NoImage \/ service w r = Thrown.

(** [currentQueue.slice(0, limit)]. *)
Definition slice0 {A : Type} (limit : Z) (l : list A) : list A :=
  if limit <? 0
  then take (length l - Z.to_nat (- limit))%nat l
  else take (Z.to_nat limit) l.

(** The synchronous start of a request's callback, up to its first await. *)
Definition startRequest (state : StoryState) (request : ImageGenerationRequest)
  : StoryState :=
  setImageLoading (request_cardId request) true state.

(** The rest of the callback, run when the request settles: the branch of
    the [try], or the [catch], and then the [finally]. *)
Definition settleRequest (w : World) (state : StoryState)
  (request : ImageGenerationRequest) : StoryState :=
  let state1 :=
    match service w request with
    | Published objectURL => setImageUrl (request_cardId request) objectURL state
    | NoImage => setImageError (request_cardId request) true state
    | Thrown => setImageError (request_cardId request) true state
    end in
  setImageLoading (request_cardId request) false state1.

(** One iteration of the [while] loop. *)
Definition processBatch (cfg : Config) (w : World) (state : StoryState) : StoryState :=
  let currentQueue := imageGenerationQueue state in
  let batch := slice0 (CONCURRENT_REQUEST_LIMIT cfg) currentQueue in
  let state1 := dequeueImageRequests (length batch) state in
  let state2 := List.fold_left startRequest batch state1 in
  List.fold_left (settleRequest w) (settleOrder w batch) state2.

(** The [while] loop, for at most [fuel] iterations. *)
Fixpoint processLoop (cfg : Config) (w : World) (fuel : nat) (state : StoryState)
  : option StoryState :=
  match imageGenerationQueue state with
  | [] => Some state
  | _ :: _ =>
      match fuel with
      | O => None
      | S fuel' => processLoop cfg w fuel' (processBatch cfg w state)
      end
  end.

Definition processImageGenerationQueue (cfg : Config) (w : World) (fuel : nat)
  (state : StoryState) : option StoryState :=
  if (isProcessingQueue state
      || Nat.eqb (length (imageGenerationQueue state)) 0)%bool
  then Some state
  else
    match processLoop cfg w fuel (setIsProcessingQueue true state) with
    | Some state' => Some (setIsProcessingQueue false state')
    | None => None
    end.

End ImageQueue.

(* ===================================================================== *)
(** * store/caseFileSlice.ts: the case file *)
(* ===================================================================== *)

Module CaseFile.

Inductive CaseFileViewMode : Type :=
| workspace
| timeline.

Record Clue : Type := mkClue {
  clue_id : string;
  eventKey : string;
  text : string;
  clue_type : string;
  category : string;
  points : Z;
  bonusPoints : option Z;
}.

Record EvidenceSlot : Type := mkEvidenceSlot {
  slotId : string;
  correctEventKey : option string;
  placedClueId : option string;
}.

Record TimelineAnchor : Type := mkTimelineAnchor {
  anchor_id : string;
  anchor_title : string;
  timeLabel : string;
  primarySlot : EvidenceSlot;
  supportingSlots : list EvidenceSlot;
}.

Record CaseFileData : Type := mkCaseFileData {
  data_title : string;
  data_clues : list Clue;
  data_anchors : list TimelineAnchor;
}.

Record CaseFileState : Type := mkCaseFileState {
  viewMode : CaseFileViewMode;
  activeTab : string;
  selectedClueId : option string;
  clues : Adapter.EntityState Clue;
  slots : Adapter.EntityState EvidenceSlot;
  anchors : list TimelineAnchor;
  score : Z;
  lastIncorrectSlotId : option string;
}.

Definition with_placedClueId (v : option string) (sl : EvidenceSlot) : EvidenceSlot :=
  {| slotId := slotId sl; correctEventKey := correctEventKey sl; placedClueId := v |}.

Definition set_viewMode (v : CaseFileViewMode) (s : CaseFileState) : CaseFileState :=
  {| viewMode := v; activeTab := activeTab s; selectedClueId := selectedClueId s;
     clues := clues s; slots := slots s; anchors := anchors s; score := score s;
     lastIncorrectSlotId := lastIncorrectSlotId s |}.

Definition set_activeTab (v : string) (s : CaseFileState) : CaseFileState :=
  {| viewMode := viewMode s; activeTab := v; selectedClueId := selectedClueId s;
     clues := clues s; slots := slots s; anchors := anchors s; score := score s;
     lastIncorrectSlotId := lastIncorrectSlotId s |}.

Definition set_selectedClueId (v : option string) (s : CaseFileState) : CaseFileState :=
  {| viewMode := viewMode s; activeTab := activeTab s; selectedClueId := v;
     clues := clues s; slots := slots s; anchors := anchors s; score := score s;
     lastIncorrectSlotId := lastIncorrectSlotId s |}.

Definition set_slots (v : Adapter.EntityState EvidenceSlot) (s : CaseFileState)
  : CaseFileState :=
  {| viewMode := viewMode s; activeTab := activeTab s;
     selectedClueId := selectedClueId s; clues := clues s; slots := v;
     anchors := anchors s; score := score s;
     lastIncorrectSlotId := lastIncorrectSlotId s |}.

Definition set_score (v : Z) (s : CaseFileState) : CaseFileState :=
  {| viewMode := viewMode s; activeTab := activeTab s;
     selectedClueId := selectedClueId s; clues := clues s; slots := slots s;
     anchors := anchors s; score := v;
     lastIncorrectSlotId := lastIncorrectSlotId s |}.

Definition set_lastIncorrectSlotId (v : option string) (s : CaseFileState)
  : CaseFileState :=
  {| viewMode := viewMode s; activeTab := activeTab s;
     selectedClueId := selectedClueId s; clues := clues s; slots := slots s;
     anchors := anchors s; score := score s; lastIncorrectSlotId := v |}.

(** The empty state that the cartridge load populates. *)
Definition createEmptyInitialState : CaseFileState :=
  {| viewMode := workspace;
     activeTab := "motive";
     selectedClueId := None;
     clues := Adapter.getInitialState;
     slots := Adapter.getInitialState;
     anchors := [];
     score := 0;
     lastIncorrectSlotId := None |}.

Definition initialState : CaseFileState := createEmptyInitialState.

(** The functions of no argument that the module caseFileSlice.ts binds,
    by name.  A call of a name that is not bound throws a ReferenceError. *)
Definition moduleFunctions : list (string * CaseFileState) :=
  [ ("createEmptyInitialState", createEmptyInitialState) ].

Definition callByName (f : string) : JS.Completion CaseFileState :=
  match List.find (fun b => String.eqb (fst b) f) moduleFunctions with
  | Some b => JS.Normal (snd b)
  | None => JS.Throw (JS.ReferenceError f)
  end.

Definition setViewMode (v : CaseFileViewMode) (state : CaseFileState) : CaseFileState :=
  set_viewMode v state.

Definition setActiveTab (v : string) (state : CaseFileState) : CaseFileState :=
  set_activeTab v state.

Definition setSelectedClueId (v : option string) (state : CaseFileState)
  : CaseFileState :=
  set_selectedClueId v state.

(** [!!state.slots.entities[k]?.placedClueId]. *)
Definition slotFilled (k : string) (state : CaseFileState) : bool :=
  match Adapter.entities (slots state) !! k with
  | Some sl => JS.truthy (placedClueId sl)
  | None => false
  end.

(** The value of [isCorrect] in [placeClueInSlot]. *)
Definition isCorrect (state : CaseFileState) (target : string)
  (clue : Clue) (slot : EvidenceSlot) (anchor : TimelineAnchor) : bool :=
  if String.eqb (clue_type clue) "PRIMARY" then
    JS.strict_eq (correctEventKey slot) (eventKey clue)
  else if String.eqb (clue_type clue) "SUPPORTING" then
    (* Must be a supporting slot and the primary must be filled *)
    let primarySlotFilled := slotFilled (slotId (primarySlot anchor)) state in
    let isSupportingSlot :=
      List.existsb (fun s => String.eqb (slotId s) target) (supportingSlots anchor) in
    (primarySlotFilled && isSupportingSlot
     && String.eqb (category clue) (anchor_id anchor))%bool
  else false.

Definition placeClueInSlot (target : string) (state : CaseFileState) : CaseFileState :=
  match selectedClueId state with
  | None => state
  | Some clueId =>
      if negb (JS.truthy_string clueId) then state
      else
        match Adapter.entities (clues state) !! clueId,
              Adapter.entities (slots state) !! target,
              List.find (fun a => String.eqb (anchor_id a) (activeTab state))
                        (anchors state) with
        | Some clue, Some slot, Some anchor =>
            if isCorrect state target clue slot anchor then
              let state1 :=
                set_slots
                  (Adapter.updateOne (slots state) target
                     (with_placedClueId (Some clueId)))
                  state in
              let state2 :=
                set_score (score state1 + (points clue + JS.or_zero (bonusPoints clue)))
                          state1 in
              set_lastIncorrectSlotId None (set_selectedClueId None state2)
            else
              (* Incorrect placement: the slot that shakes *)
              set_lastIncorrectSlotId (Some target) state
        | _, _, _ => state
        end
  end.

Definition clearLastIncorrectSlot (state : CaseFileState) : CaseFileState :=
  set_lastIncorrectSlotId None state.

(** [return createInitialState();] *)
Definition resetInvestigation (state : CaseFileState) : JS.Completion CaseFileState :=
  callByName "createInitialState".

(** extraReducers, case loadCaseFileFromCartridge.fulfilled. *)
Definition loadCaseFileFromCartridge_fulfilled (data : CaseFileData)
  (state : CaseFileState) : CaseFileState :=
  let allSlots :=
    List.flat_map (fun a => primarySlot a :: supportingSlots a) (data_anchors data) in
  {| viewMode := viewMode state;
     activeTab := activeTab state;
     selectedClueId := selectedClueId state;
     clues := Adapter.setAll clue_id Adapter.getInitialState (data_clues data);
     slots := Adapter.setAll slotId Adapter.getInitialState allSlots;
     anchors := data_anchors data;
     score := score state;
     lastIncorrectSlotId := lastIncorrectSlotId state |}.

Inductive Action : Type :=
| SetViewMode (v : CaseFileViewMode)
| SetActiveTab (v : string)
| SetSelectedClueId (v : option string)
| PlaceClueInSlot (target : string)
| ClearLastIncorrectSlot
| ResetInvestigation
| LoadCaseFileFulfilled (data : CaseFileData)
| ShowModal (modalType : string).

Definition reducer (state : CaseFileState) (action : Action)
  : JS.Completion CaseFileState :=
  match action with
  | SetViewMode v => JS.Normal (setViewMode v state)
  | SetActiveTab v => JS.Normal (setActiveTab v state)
  | SetSelectedClueId v => JS.Normal (setSelectedClueId v state)
  | PlaceClueInSlot target => JS.Normal (placeClueInSlot target state)
  | ClearLastIncorrectSlot => JS.Normal (clearLastIncorrectSlot state)
  | ResetInvestigation => resetInvestigation state
  | LoadCaseFileFulfilled data =>
      JS.Normal (loadCaseFileFromCartridge_fulfilled data state)
  | ShowModal _ =>
      (* the score is copied into the action; the state stays *)
      JS.Normal state
  end.

(** The store: a reducer that throws leaves the state as it was (the
    error goes to the caller of [dispatch]). *)
Definition dispatch (state : CaseFileState) (action : Action) : CaseFileState :=
  match reducer state action with
  | JS.Normal state' => state'
  | JS.Throw _ => state
  end.

Definition dispatchAll (actions : list Action) (state : CaseFileState) : CaseFileState :=
  List.fold_left dispatch actions state.

Definition reachable (state : CaseFileState) : Prop :=
  exists actions, state = dispatchAll actions initialState.

(** [selectIsInvestigationComplete]. *)
Definition selectIsInvestigationComplete (state : CaseFileState) : bool :=
  List.forallb (fun sl => JS.truthy (placedClueId sl)) (Adapter.selectAll (slots state)).

End CaseFile.

(* ===================================================================== *)
(** * services/cartridgeLoader.ts: the transformation of characters *)
(* ===================================================================== *)

Module Cartridge.
Import Types.

(** A character of the raw cartridge.  [statement], [components] and
    [connections] may be absent. *)
Record RawCharacter : Type := mkRawCharacter {
  raw_id : string;
  raw_name : string;
  raw_age : string;
  raw_role : string;
  raw_occupation : string;
  raw_imagePrompt : string;
  bio : string;
  raw_isSuspect : bool;
  statement : option string;
  raw_components : option (list DataComponent);
  raw_connections : option Connections;
}.

(** An object of the raw cartridge, with the fields that the transformation
    of characters reads or writes. *)
Record RawObject : Type := mkRawObject {
  rawobj_id : string;
  rawobj_name : string;
  rawobj_unidentifiedDescription : option string;
  rawobj_ownerCharacterId : option string;
  rawobj_authorCharacterId : option string;
  rawobj_category : option string;
  rawobj_locationFoundId : string;
  rawobj_timestamp : string;
  rawobj_imagePrompt : string;
  rawobj_description : string;
  rawobj_components : list DataComponent;
  rawobj_rarity : option string;
  rawobj_timeToAdd : option Z;
}.

(** The two arrays that [transformCharacterData] extends in place. *)
Record Working : Type := mkWorking {
  allRawObjects : list RawObject;
  testimonies : list Testimony;
}.

Definition standardComponentTypes : list string :=
  [ "socialMedia"; "phoneLog"; "cctv"; "records"; "file"; "purchaseInfo";
    "interaction"; "dialogue" ].

(** [components.find(comp => comp.type === 'physicalCharacteristics')?.props]. *)
Definition physicalCharacteristics (components : list DataComponent) : option JS.Json :=
  match List.find (fun comp => String.eqb (comp_type comp) "physicalCharacteristics")
                  components with
  | Some comp => props comp
  | None => None
  end.

Definition mugshotPrompt (name : string) (physicalChars : JS.Json) : string :=
  "Mugshot of " +:+ name
  +:+ ". Front and side profile view against a height chart. A plaque in front displays their details: Height: "
  +:+ JS.interpolate (JS.get physicalChars "height")
  +:+ ", Weight: " +:+ JS.interpolate (JS.get physicalChars "weight")
  +:+ ", Eyes: " +:+ JS.interpolate (JS.get physicalChars "eyes")
  +:+ ", Hair: " +:+ JS.interpolate (JS.get physicalChars "hair")
  +:+ ". "
  +:+ (if JS.truthy_json (JS.get physicalChars "features")
       then JS.interpolate (JS.get physicalChars "features") else "")
  +:+ " The style is high-contrast, gritty, Sin City noir. Photorealistic, hyper-detailed, sharp focus.".

Definition mugshot (now : string) (c : RawCharacter) (physicalChars : JS.Json)
  : RawObject :=
  {| rawobj_id := "obj_mugshot_" +:+ raw_id c;
     rawobj_name := "Booking Photo: " +:+ raw_name c;
     rawobj_unidentifiedDescription := Some "An official police booking photo.";
     rawobj_ownerCharacterId := Some (raw_id c);
     rawobj_authorCharacterId := None;
     rawobj_category := Some "police_file";
     rawobj_locationFoundId := "loc_police_station";
     rawobj_timestamp := now;
     rawobj_imagePrompt := mugshotPrompt (raw_name c) physicalChars;
     rawobj_description := "Official booking photo for " +:+ raw_name c +:+ ".";
     rawobj_components := [];
     rawobj_rarity := Some "irrelevant";
     rawobj_timeToAdd := Some 0 |}.

(** One round of [standardComponentTypes.forEach]. *)
Definition ensureComponent (cid : string) (objs : list RawObject)
  (components : list DataComponent) (type : string) : list DataComponent :=
  let hasComponentData :=
    (List.existsb
       (fun obj => JS.strict_eq (rawobj_ownerCharacterId obj) cid
                   && JS.strict_eq (rawobj_category obj) type)
       objs
     || List.existsb
          (fun obj => JS.strict_eq (rawobj_authorCharacterId obj) cid
                      && String.eqb type "socialMedia")
          objs)%bool in
  let hasComponentOnCharacter :=
    List.existsb (fun existing => String.eqb (comp_type existing) type) components in
  if (hasComponentData && negb hasComponentOnCharacter)%bool
  then components ++ [ {| comp_type := type; props := Some (JS.JObj []) |} ]
  else components.

(** The body of the [map] callback, for one raw character; [now] is the
    value of [new Date().toISOString()] during the call. *)
Definition transformCharacter (now : string) (c : RawCharacter) (w : Working)
  : Character * Working :=
  let '(ids, testimonies1) :=
    match statement c with
    | Some s =>
        if JS.truthy_string s then
          let testimonyId := "testimony-" +:+ raw_id c in
          ([testimonyId],
           testimonies w ++
             [ {| testimony_id := testimonyId;
                  title := "Statement from " +:+ raw_name c;
                  content := s;
                  sourceCharacterId := raw_id c |} ])
        else ([], testimonies w)
    | None => ([], testimonies w)
    end in
  let components := default [] (raw_components c) in
  let physicalChars := physicalCharacteristics components in
  (* Auto-generate mugshot for suspects with physical characteristics *)
  let objs1 :=
    match physicalChars with
    | Some p =>
        if (JS.truthy_json (Some p) && String.eqb (raw_role c) "suspect")%bool
        then allRawObjects w ++ [mugshot now c p]
        else allRawObjects w
    | None => allRawObjects w
    end in
  (* Ensure consistent data components *)
  let components1 :=
    List.fold_left (ensureComponent (raw_id c) objs1) standardComponentTypes components in
  ({| char_id := raw_id c;
      char_name := raw_name c;
      age := raw_age c;
      occupation := raw_occupation c;
      char_imagePrompt := raw_imagePrompt c;
      char_description := bio c;
      role := JS.toLowerCase (raw_role c);
      isSuspect := raw_isSuspect c;
      connections :=
        default {| relatedPeople := []; knownLocations := []; associatedObjects := [] |}
                (raw_connections c);
      testimonyIds := ids;
      char_components := components1 |},
   {| allRawObjects := objs1; testimonies := testimonies1 |}).

(** [rawCharacters.map(...)], the clock being read once per character. *)
Fixpoint transformFrom (clock : nat -> string) (i : nat) (rawCharacters : list RawCharacter)
  (w : Working) : list Character * Working :=
  match rawCharacters with
  | [] => ([], w)
  | c :: rest =>
      let '(ch, w1) := transformCharacter (clock i) c w in
      let '(chs, w2) := transformFrom clock (S i) rest w1 in
      (ch :: chs, w2)
  end.

Definition transformCharacterData (clock : nat -> string)
  (rawCharacters : list RawCharacter) (allRawObjects : list RawObject)
  (testimonies : list Testimony) : list Character * Working :=
  transformFrom clock 0%nat rawCharacters
    {| allRawObjects := allRawObjects; testimonies := testimonies |}.

End Cartridge.

(* ===================================================================== *)
(** * Sessions of the entity store, and sample data *)
(* ===================================================================== *)

Module Session.
Import Types Story.

(** The three operations on story objects that touch the unlock flag, the
    timeline or the time counter. *)
Inductive EntityOp : Type :=
| OpAddToTimeline (oid : string)
| OpRemoveFromTimeline (oid : string)
| OpUnlockEntity (type : UnlockType) (ref : string) (timeCost : Z).

Definition toAction (op : EntityOp) : Action :=
  match op with
  | OpAddToTimeline oid => AddToTimeline oid
  | OpRemoveFromTimeline oid => RemoveFromTimeline oid
  | OpUnlockEntity t r c => UnlockEntity t r c
  end.

Definition step (s : StoryState) (op : EntityOp) : StoryState :=
  reducer s (toAction op).

Definition run (ops : list EntityOp) (s : StoryState) : StoryState :=
  List.fold_left step ops s.

(** The object [oid] exists and its [hasBeenUnlocked] flag is set. *)
Definition unlocked (oid : string) (s : StoryState) : bool :=
  match Adapter.entities (objects s) !! oid with
  | Some o => JS.truthy_bool (hasBeenUnlocked o)
  | None => false
  end.

(** The step takes the flag of [oid] from false to true. *)
Definition flips (oid : string) (op : EntityOp) (s : StoryState) : bool :=
  (negb (unlocked oid s) && unlocked oid (step s op))%bool.

(** How many steps of a run take the flag of [oid] from false to true. *)
Fixpoint flipCount (oid : string) (ops : list EntityOp) (s : StoryState) : nat :=
  match ops with
  | [] => 0%nat
  | op :: rest =>
      ((if flips oid op s then 1 else 0) + flipCount oid rest (step s op))%nat
  end.

(** The [timeToAdd] of an object, zero when absent. *)
Definition timeToAddOf (oid : string) (s : StoryState) : Z :=
  match Adapter.entities (objects s) !! oid with
  | Some o => JS.or_zero (timeToAdd o)
  | None => 0
  end.

(** The time a step is accountable for: an [addToTimeline] that takes the
    flag of its object from false to true owes the object's [timeToAdd];
    an [unlockEntity] owes its own time cost; nothing else owes time. *)
Definition owed (op : EntityOp) (s : StoryState) : Z :=
  match op with
  | OpAddToTimeline oid => if flips oid op s then timeToAddOf oid s else 0
  | OpRemoveFromTimeline _ => 0
  | OpUnlockEntity _ _ timeCost => timeCost
  end.

Fixpoint owedAlong (ops : list EntityOp) (s : StoryState) : Z :=
  match ops with
  | [] => 0
  | op :: rest => owed op s + owedAlong rest (step s op)
  end.

(** Every table of the store has the shape the adapter gives it. *)
Definition tablesWf (s : StoryState) : Prop :=
  Adapter.wf char_id (characters s)
  /\ Adapter.wf id (objects s)
  /\ Adapter.wf event_id (events s)
  /\ Adapter.wf loc_id (locations s)
  /\ Adapter.wf subloc_id (sublocations s)
  /\ Adapter.wf group_id (evidenceGroups s)
  /\ Adapter.wf bounty_id (bounties s).

(** The invariant of the store behind the timeline: the objects sit under
    their own ids, and no two entries of the timeline share a [cardId]. *)
Definition timelineInv (s : StoryState) : Prop :=
  Adapter.keyed id (objects s) /\ NoDup (List.map cardId (evidence s)).

End Session.

(** Sample data: a small cartridge with a victim, a location, an object
    not yet unlocked that costs 15 time units, a hidden sublocation and an
    event; and the same cartridge without any location. *)
Module Samples.
Import Types Story Session.

Definition cfg : Config :=
  {| INITIAL_PLAYER_TIME_SPENT := 0; MILESTONE_THRESHOLD := 5;
     ACCUSATION_THRESHOLD := 10; CONCURRENT_REQUEST_LIMIT := 2 |}.

Definition o1 : StoryObject :=
  {| id := "o1"; name := "Kitchen knife"; imagePrompt := "A knife.";
     description := "A knife with a chipped blade.";
     unidentifiedDescription := Some "A sharp object.";
     timestamp := "2024-01-01T22:00:00Z"; isEvidence := false;
     assignedToSuspectIds := []; locationFoundId := "loc1";
     category := "physical"; tags := []; authorCharacterId := None;
     ownerCharacterId := None; timeToAdd := Some 15;
     hasBeenUnlocked := Some false; rarity := "material"; components := [];
     unlocks := [ {| unlock_type := UEvent; ref := "e1"; time := 20 |} ] |}.

Definition victim : Character :=
  {| char_id := "c1"; char_name := "Tom"; age := "40"; occupation := "Baker";
     char_imagePrompt := "A man."; char_description := "The victim.";
     role := "victim"; isSuspect := false;
     connections := {| relatedPeople := []; knownLocations := [];
                       associatedObjects := [] |};
     testimonyIds := []; char_components := [] |}.

Definition loc1 : Location :=
  {| loc_id := "loc1"; loc_name := "Alley"; loc_imagePrompt := "An alley.";
     loc_description := "A dark alley."; hotspots := [];
     mapCoords := ("50%", "50%");
     lastEventTimestamp := "2024-01-01T21:00:00Z";
     lastEventDescription := "A scream."; sceneSummary := "The crime scene.";
     isInternal := false |}.

Definition sub1 : Sublocation :=
  {| subloc_id := "sub1"; subloc_name := "Dumpster";
     subloc_description := "Behind the dumpster."; subloc_locationId := "loc1";
     isVisible := false; subloc_timeToAdd := Some 0;
     subloc_hasBeenUnlocked := Some false |}.

Definition e1 : StoryEvent :=
  {| event_id := "e1"; event_name := "The murder"; event_imagePrompt := "Night.";
     event_description := "What happened."; event_timestamp := "2024-01-01T21:00:00Z";
     event_locationId := "loc1"; event_timeToAdd := Some 0;
     event_hasBeenUnlocked := None; event_rarity := "critical";
     event_tags := []; event_components := [] |}.

Definition data (locs : list Location) : StoryData :=
  {| sd_title := "Sample";
     sd_storyInfo := {| mapImagePrompt := ""; mapTitle := "Map";
                        crimeSceneId := "loc1" |};
     sd_characters := [victim]; sd_objects := [o1]; sd_events := Some [e1];
     sd_locations := locs; sd_sublocations := Some [sub1];
     sd_evidenceGroups := []; sd_testimonies := []; sd_bounties := [];
     sd_canonicalTimeline := None; sd_evidenceStacks := None |}.

(** The store after loading the sample cartridge. *)
Definition loaded : StoryState :=
  dispatchAll [LoadStoryCartridgeFulfilled (data [loc1])] (initialState cfg).

(** The store after loading the cartridge that has no location. *)
Definition loadedNoLocation : StoryState :=
  dispatchAll [LoadStoryCartridgeFulfilled (data [])] (initialState cfg).

(** The object is unlocked by another card's unlock entry, free of charge,
    and then put on the timeline. *)
Definition unlockThenAdd : list EntityOp :=
  [ OpUnlockEntity UEvidence "o1" 0; OpAddToTimeline "o1" ].

End Samples.

(** Sample case file: one anchor, "motive", with a primary slot expecting
    the event key "k1" and one supporting slot; a primary clue that
    matches it, a primary clue that does not, and a supporting clue. *)
Module CaseFileSamples.
Import CaseFile.

Definition p1 : Clue :=
  {| clue_id := "p1"; eventKey := "k1"; text := "He owed money.";
     clue_type := "PRIMARY"; category := "motive"; points := 10;
     bonusPoints := Some 5 |}.

Definition p2 : Clue :=
  {| clue_id := "p2"; eventKey := "k2"; text := "He was seen leaving.";
     clue_type := "PRIMARY"; category := "opportunity"; points := 10;
     bonusPoints := None |}.

Definition sup1 : Clue :=
  {| clue_id := "sup1"; eventKey := "k1-a"; text := "A ledger.";
     clue_type := "SUPPORTING"; category := "motive"; points := 3;
     bonusPoints := None |}.

Definition motivePrimary : EvidenceSlot :=
  {| slotId := "motive-primary"; correctEventKey := Some "k1";
     placedClueId := None |}.

Definition motiveSupport : EvidenceSlot :=
  {| slotId := "motive-s1"; correctEventKey := None; placedClueId := None |}.

Definition motive : TimelineAnchor :=
  {| anchor_id := "motive"; anchor_title := "Motive"; timeLabel := "Before";
     primarySlot := motivePrimary; supportingSlots := [motiveSupport] |}.

Definition data : CaseFileData :=
  {| data_title := "Case"; data_clues := [p1; p2; sup1]; data_anchors := [motive] |}.

(** The case file after the load, with the clue [selected] selected. *)
Definition withSelected (selected : string) : CaseFileState :=
  dispatchAll [LoadCaseFileFulfilled data; SetSelectedClueId (Some selected)]
              initialState.

(** The case file after the matching primary clue was placed, seen in the
    timeline view. *)
Definition placed : CaseFileState :=
  dispatchAll [PlaceClueInSlot "motive-primary"; SetViewMode timeline]
              (withSelected "p1").

End CaseFileSamples.

(** Sample cartridge characters: one with a statement, one without. *)
Module CartridgeSamples.
Import Types Cartridge.

Definition c1 : RawCharacter :=
  {| raw_id := "c1"; raw_name := "Marv"; raw_age := "45"; raw_role := "Witness";
     raw_occupation := "Driver"; raw_imagePrompt := "A tall man.";
     bio := "A driver."; raw_isSuspect := false;
     statement := Some "I saw nothing"; raw_components := None;
     raw_connections := None |}.

Definition c2 : RawCharacter :=
  {| raw_id := "c2"; raw_name := "Nancy"; raw_age := "30"; raw_role := "suspect";
     raw_occupation := "Dancer"; raw_imagePrompt := "A dancer.";
     bio := "A dancer."; raw_isSuspect := true;
     statement := Some "";
     raw_components :=
       Some [ {| comp_type := "physicalCharacteristics";
                 props := Some (JS.JObj [ ("height", JS.JStr "5'7")
                                        ; ("weight", JS.JNum 130) ]) |} ];
     raw_connections := None |}.

Definition clock (i : nat) : string := "2024-01-01T00:00:00.000Z".

End CartridgeSamples.

(** Sample queue: five requests, of which the second gets no image and the
    third throws; the requests of a batch settle in reverse order. *)
Module QueueSamples.
Import Types Story ImageQueue.

Definition request (c : string) : ImageGenerationRequest :=
  {| request_cardId := c; prompt := "A portrait."; colorTreatment := monochrome |}.

Definition world : World :=
  {| service := fun r =>
       if String.eqb (request_cardId r) "b" then NoImage
       else if String.eqb (request_cardId r) "c" then Thrown
       else Published ("blob:" +:+ request_cardId r);
     settleOrder := fun batch => rev batch |}.

Definition queued : StoryState :=
  dispatchAll
    (List.map (fun c => QueueImageGeneration (request c)) ["a"; "b"; "c"; "d"; "e"])
    (initialState Samples.cfg).

End QueueSamples.

(* ===================================================================== *)
(** * store/storySlice.ts: selectors and the other thunks *)
(* ===================================================================== *)

Module StoryViews.
Import Types Story.

Definition selectAllCharacters (s : StoryState) : list Character :=
  Adapter.selectAll (characters s).

Definition selectAllObjects (s : StoryState) : list StoryObject :=
  Adapter.selectAll (objects s).

Definition selectAllEvents (s : StoryState) : list StoryEvent :=
  Adapter.selectAll (events s).

Definition selectVictims (s : StoryState) : list Character :=
  List.filter (fun c => String.eqb (role c) "victim") (selectAllCharacters s).

Definition selectSuspects (s : StoryState) : list Character :=
  List.filter (fun c => isSuspect c) (selectAllCharacters s).

Definition selectWitnesses (s : StoryState) : list Character :=
  List.filter (fun c => String.eqb (role c) "witness") (selectAllCharacters s).

Definition selectPeople (s : StoryState) : list Character :=
  List.filter
    (fun c => negb (String.eqb (role c) "victim")
              && negb (String.eqb (role c) "witness")
              && negb (isSuspect c))%bool
    (selectAllCharacters s).

(** The state without its image bookkeeping: what the queue processor has
    no business with. *)
Definition withoutImages (s : StoryState) : StoryState :=
  set_imageUrls ∅
    (set_imageLoading ∅
       (set_imageErrors ∅
          (set_imageGenerationQueue [] (set_isProcessingQueue false s)))).

(** ** The thunk hydrateImageCache *)

(** An entry of the image cache: the card id and the stored blob. *)
Record CachedImage : Type := mkCachedImage {
  cached_id : string;
  blob : string;
}.

(** The [urls] object built by the loop over the cached images;
    [createObjectURL] stands for [URL.createObjectURL]. *)
Definition hydrationUrls (createObjectURL : string -> string)
  (existingUrls : gmap string string) (cachedImages : list CachedImage)
  : gmap string string :=
  List.fold_left
    (fun urls item =>
       if JS.truthy (existingUrls !! cached_id item) then urls
       else <[cached_id item := createObjectURL (blob item)]> urls)
    cachedImages ∅.

(** The actions the thunk dispatches; [cachedImages] is what
    [dbService.getAllImages()] gave, [None] when it threw. *)
Definition hydrateImageCache (createObjectURL : string -> string)
  (cachedImages : option (list CachedImage)) (s : StoryState) : list Action :=
  match cachedImages with
  | None => []
  | Some cached =>
      let urls := hydrationUrls createObjectURL (imageUrls s) cached in
      if Nat.ltb 0 (size urls) then [SetImageUrls urls] else []
  end.

(** ** The thunk createEvidenceFromTestimony *)





(** Sample cache: an image for a card that has a URL in the store and two
    images for a card that has none. *)
Definition sampleObjectURL (b : string) : string := "blob:" +:+ b.

Definition sampleCache : list CachedImage :=
  [ {| cached_id := "a"; blob := "a1" |};
    {| cached_id := "z"; blob := "z1" |};
    {| cached_id := "z"; blob := "z2" |} ].

Definition sampleWithUrl : StoryState :=
  dispatchAll [SetImageUrl "a" "blob:old"] Samples.loaded.

End StoryViews.

(* ===================================================================== *)
(** * hooks/useUnlockSystem.ts and the timeline toggle of ObjectCard.tsx *)
(* ===================================================================== *)

(** The hook and the card read the store through selectors at render time
    and dispatch actions of the story slice; they are functions from the
    store state they saw to the actions they dispatch.  What they dispatch
    to other slices (modals, milestones) is left out. *)
Module UnlockSystem.
Import Types Story StoryViews.

(** [handleEvidenceTap(objectId)]: one [unlockEntity] per unlock entry of
    the object. *)
Definition handleEvidenceTap (objectId : string) (s : StoryState) : list Action :=
  match List.find (fun obj => String.eqb (id obj) objectId) (selectAllObjects s) with
  | None => []
  | Some object =>
      List.map (fun unlock => UnlockEntity (unlock_type unlock) (ref unlock) (time unlock))
               (unlocks object)
  end.

Inductive SymbolType : Type :=
| SymbolCharacter
| SymbolObject
| SymbolEvent.

Definition isSymbolVisible (s : StoryState) (entityId : string) (entityType : SymbolType)
  : bool :=
  match entityType with
  | SymbolCharacter => true
  | SymbolObject =>
      match List.find (fun obj => String.eqb (id obj) entityId) (selectAllObjects s) with
      | Some object => JS.truthy_bool (hasBeenUnlocked object)
      | None => false
      end
  | SymbolEvent =>
      match List.find (fun evt => String.eqb (event_id evt) entityId) (selectAllEvents s) with
      | Some e => JS.truthy_bool (event_hasBeenUnlocked e)
      | None => false
      end
  end.

Record VisibleSymbols : Type := mkVisibleSymbols {
  persons : list StoryObject;
  items : list StoryObject;
  visibleEvents : list StoryEvent;
}.

Definition getVisibleTimelineSymbols (s : StoryState) : VisibleSymbols :=
  {| persons :=
       List.filter
         (fun obj => String.eqb (category obj) "character"
                     && JS.truthy_bool (hasBeenUnlocked obj))%bool
         (selectAllObjects s);
     items :=
       List.filter
         (fun obj => (String.eqb (category obj) "physical"
                      || String.eqb (category obj) "document")
                     && JS.truthy_bool (hasBeenUnlocked obj))%bool
         (selectAllObjects s);
     visibleEvents :=
       List.filter (fun evt => JS.truthy_bool (event_hasBeenUnlocked evt))
                   (selectAllEvents s) |}.

(** [handleEvidenceToggle(isAdding)] of the card that shows [object]. *)
Definition handleEvidenceToggle (isAdding : bool) (object : StoryObject) (s : StoryState)
  : list Action :=
  let currentlyOn := onTimeline (id object) s in
  if isAdding then
    if currentlyOn then []
    else
      let isFirstUnlock := negb (JS.truthy_bool (hasBeenUnlocked object)) in
      AddToTimeline (id object)
        :: (if isFirstUnlock then handleEvidenceTap (id object) s else [])
  else
    if negb currentlyOn then []
    else [RemoveFromTimeline (id object)].

(** The sum of the time costs of unlock entries. *)
Definition unlockTimes (us : list Unlock) : Z :=
  List.fold_right (fun u acc => time u + acc) 0 us.

Definition isLoad (a : Action) : bool :=
  match a with
  | LoadStoryCartridgeFulfilled _ => true
  | _ => false
  end.

(** None of the actions is a cartridge load. *)
Definition noLoad (actions : list Action) : Prop :=
  List.forallb (fun a => negb (isLoad a)) actions = true.

(** The [unlockEntity] actions of a list of unlock entries. *)
Definition unlockActions (us : list Unlock) : list Action :=
  List.map (fun unlock => UnlockEntity (unlock_type unlock) (ref unlock) (time unlock)) us.

(** The target of an unlock entry is unlocked, or the entry has no flag to
    set. *)
Definition targetUnlocked (u : Unlock) (s : StoryState) : bool :=
  match unlock_type u with
  | ULocation | UCharacter => true
  | USublocation =>
      match Adapter.entities (sublocations s) !! ref u with
      | Some sl => JS.truthy_bool (subloc_hasBeenUnlocked sl)
      | None => false
      end
  | UEvidence =>
      match Adapter.entities (objects s) !! ref u with
      | Some o => JS.truthy_bool (hasBeenUnlocked o)
      | None => false
      end
  | UEvent =>
      match Adapter.entities (events s) !! ref u with
      | Some e => JS.truthy_bool (event_hasBeenUnlocked e)
      | None => false
      end
  end.

(** The target of an unlock entry is in the store. *)
Definition targetExists (u : Unlock) (s : StoryState) : bool :=
  match unlock_type u with
  | ULocation | UCharacter => true
  | USublocation => bool_decide (is_Some (Adapter.entities (sublocations s) !! ref u))
  | UEvidence => bool_decide (is_Some (Adapter.entities (objects s) !! ref u))
  | UEvent => bool_decide (is_Some (Adapter.entities (events s) !! ref u))
  end.

Definition objectUnlocked (k : string) (s : StoryState) : bool :=
  match Adapter.entities (objects s) !! k with
  | Some o => JS.truthy_bool (hasBeenUnlocked o)
  | None => false
  end.

Definition eventUnlocked (k : string) (s : StoryState) : bool :=
  match Adapter.entities (events s) !! k with
  | Some e => JS.truthy_bool (event_hasBeenUnlocked e)
  | None => false
  end.

Definition sublocationUnlocked (k : string) (s : StoryState) : bool :=
  match Adapter.entities (sublocations s) !! k with
  | Some sl => JS.truthy_bool (subloc_hasBeenUnlocked sl)
  | None => false
  end.

Definition sublocationShown (k : string) (s : StoryState) : bool :=
  match Adapter.entities (sublocations s) !! k with
  | Some sl => (isVisible sl && JS.truthy_bool (subloc_hasBeenUnlocked sl))%bool
  | None => false
  end.

(** The sublocation is unlocked but not visible. *)
Definition sublocationHiddenUnlocked (k : string) (s : StoryState) : bool :=
  match Adapter.entities (sublocations s) !! k with
  | Some sl => (negb (isVisible sl) && JS.truthy_bool (subloc_hasBeenUnlocked sl))%bool
  | None => false
  end.

(** Sample: a cartridge whose sublocation is marked unlocked but not
    visible. *)
Definition hiddenSub : Sublocation :=
  {| subloc_id := "sub2"; subloc_name := "Cellar";
     subloc_description := "Under the stairs."; subloc_locationId := "loc1";
     isVisible := false; subloc_timeToAdd := Some 0;
     subloc_hasBeenUnlocked := Some true |}.

Definition loadedHidden : StoryState :=
  dispatchAll
    [ LoadStoryCartridgeFulfilled
        {| sd_title := "Sample";
           sd_storyInfo := {| mapImagePrompt := ""; mapTitle := "Map";
                              crimeSceneId := "loc1" |};
           sd_characters := [Samples.victim]; sd_objects := [Samples.o1];
           sd_events := Some [Samples.e1]; sd_locations := [Samples.loc1];
           sd_sublocations := Some [Samples.sub1; hiddenSub];
           sd_evidenceGroups := []; sd_testimonies := []; sd_bounties := [];
           sd_canonicalTimeline := None; sd_evidenceStacks := None |} ]
    (initialState Samples.cfg).

End UnlockSystem.

(* ===================================================================== *)
(** * store/caseFileSlice.ts: the selectors *)
(* ===================================================================== *)

Module CaseFileViews.
Import CaseFile.

Definition selectAllClues (s : CaseFileState) : list Clue :=
  Adapter.selectAll (clues s).

Definition selectAllSlots (s : CaseFileState) : list EvidenceSlot :=
  Adapter.selectAll (slots s).

(** [new Set(allSlots.map(slot => slot.placedClueId).filter(Boolean))]. *)
Definition placedClueIds (s : CaseFileState) : gset string :=
  list_to_set
    (omap (fun sl => if JS.truthy (placedClueId sl) then placedClueId sl else None)
          (selectAllSlots s)).

Definition selectUnplacedClues (s : CaseFileState) : list Clue :=
  List.filter (fun clue => negb (bool_decide (clue_id clue ∈ placedClueIds s)))
              (selectAllClues s).

Definition isLoad (a : Action) : bool :=
  match a with
  | LoadCaseFileFulfilled _ => true
  | _ => false
  end.

(** None of the actions is a load of the case file. *)
Definition noLoad (actions : list Action) : Prop :=
  List.forallb (fun a => negb (isLoad a)) actions = true.

(** No clue of the table takes points away. *)
Definition cluesNonNegative (s : CaseFileState) : Prop :=
  forall k clue,
    Adapter.entities (clues s) !! k = Some clue ->
    0 <= points clue + JS.or_zero (bonusPoints clue).

(** Select a clue and drop it on a slot. *)
Definition selectAndPlace (clueId target : string) : list Action :=
  [SetSelectedClueId (Some clueId); PlaceClueInSlot target].

End CaseFileViews.

(* ===================================================================== *)
(** * services/cartridgeLoader.ts: the conditions of transformCharacterData *)
(* ===================================================================== *)

Module CartridgeViews.
Import Types Cartridge.

(** The booking photo that [transformCharacterData] pushes for a raw
    character, if it pushes one: [physicalChars && c.role === 'suspect']. *)
Definition mugshotOf (now : string) (c : RawCharacter) : option RawObject :=
  match physicalCharacteristics (default [] (raw_components c)) with
  | Some p =>
      if (JS.truthy_json (Some p) && String.eqb (raw_role c) "suspect")%bool
      then Some (mugshot now c p)
      else None
  | None => None
  end.

(** The strings of ASCII characters only: on them [JS.toLowerCase] is
    [String.prototype.toLowerCase]. *)
Fixpoint asciiOnly (s : string) : bool :=
  match s with
  | EmptyString => true
  | String c rest => (Nat.ltb (nat_of_ascii c) 128 && asciiOnly rest)%bool
  end.

(** [hasComponentData] of the [forEach] over the standard types. *)
Definition hasComponentData (cid : string) (objs : list RawObject) (type : string)
  : bool :=
  (List.existsb
     (fun obj => JS.strict_eq (rawobj_ownerCharacterId obj) cid
                 && JS.strict_eq (rawobj_category obj) type)
     objs
   || List.existsb
        (fun obj => JS.strict_eq (rawobj_authorCharacterId obj) cid
                    && String.eqb type "socialMedia")
        objs)%bool.

(** [hasComponentOnCharacter]. *)
Definition hasComponentOnCharacter (components : list DataComponent) (type : string)
  : bool :=
  List.existsb (fun existing => String.eqb (comp_type existing) type) components.

(** [{ type, props: {} }]. *)
Definition placeholder (type : string) : DataComponent :=
  {| comp_type := type; props := Some (JS.JObj []) |}.

(** Samples: a character whose role is written with a capital, and an
    object that this character owns. *)
Definition capitalSuspect : RawCharacter :=
  {| raw_id := "c3"; raw_name := "Kevin"; raw_age := "28"; raw_role := "Suspect";
     raw_occupation := "Farmer"; raw_imagePrompt := "A quiet man.";
     bio := "A farmer."; raw_isSuspect := true;
     statement := None;
     raw_components :=
       Some [ {| comp_type := "physicalCharacteristics";
                 props := Some (JS.JObj [ ("height", JS.JStr "5'9") ]) |} ];
     raw_connections := None |}.

Definition phoneLogOf (cid : string) : RawObject :=
  {| rawobj_id := "obj_log"; rawobj_name := "Call log";
     rawobj_unidentifiedDescription := None;
     rawobj_ownerCharacterId := Some cid;
     rawobj_authorCharacterId := None;
     rawobj_category := Some "phoneLog";
     rawobj_locationFoundId := "loc1";
     rawobj_timestamp := "2024-01-01T00:00:00.000Z";
     rawobj_imagePrompt := "A list of calls.";
     rawobj_description := "Calls of one night.";
     rawobj_components := [];
     rawobj_rarity := None;
     rawobj_timeToAdd := None |}.

End CartridgeViews.

(* ===================================================================== *)
(** * config/timelineConfig.ts and components/views/TimelineView.tsx *)
(* ===================================================================== *)

Module TimelineView.
Import Types Story.

Inductive TimelineSymbolType : Type :=
| person
| item
| event.

Record TimelineSlot : Type := mkTimelineSlot {
  slot_id : string;
  timeId : string;
  slot_locationId : string;
  symbolType : TimelineSymbolType;
  initialSymbolId : option string;
}.

(** [defaultTimelineConfig.slots]. *)
Definition defaultSlots : list TimelineSlot :=
  [ {| slot_id := "slot-1"; timeId := "t-60"; slot_locationId := "loc-living-room";
       symbolType := person; initialSymbolId := None |};
    {| slot_id := "slot-2"; timeId := "t-30"; slot_locationId := "loc-kitchen";
       symbolType := item; initialSymbolId := None |};
    {| slot_id := "slot-3"; timeId := "t0"; slot_locationId := "loc-living-room";
       symbolType := event; initialSymbolId := None |};
    {| slot_id := "slot-4"; timeId := "t30"; slot_locationId := "loc-bedroom";
       symbolType := person; initialSymbolId := None |};
    {| slot_id := "slot-5"; timeId := "t60"; slot_locationId := "loc-hallway";
       symbolType := item; initialSymbolId := None |} ].

(** The state of the view: its slots, and the store it dispatches to. *)
Record View : Type := mkView {
  timelineSlots : list TimelineSlot;
  store : StoryState;
}.

(** [{ ...slot, initialSymbolId: symbolId }]. *)
Definition with_initialSymbolId (symbolId : string) (slot : TimelineSlot) : TimelineSlot :=
  {| slot_id := slot_id slot; timeId := timeId slot;
     slot_locationId := slot_locationId slot; symbolType := symbolType slot;
     initialSymbolId := Some symbolId |}.

Definition handleDropSymbol (slotId symbolId : string) (v : View) : View :=
  {| timelineSlots :=
       List.map
         (fun slot => if String.eqb (slot_id slot) slotId
                      then with_initialSymbolId symbolId slot else slot)
         (timelineSlots v);
     store := reducer (store v) (AddToTimeline symbolId) |}.

(** [slot.initialSymbolId !== undefined]. *)
Definition slotHasSymbol (slot : TimelineSlot) : bool :=
  match initialSymbolId slot with
  | Some _ => true
  | None => false
  end.

Definition allSlotsFilled (v : View) : bool :=
  List.forallb slotHasSymbol (timelineSlots v).

End TimelineView.

(* ===================================================================== *)
(** * Facts about property order *)
(* ===================================================================== *)

Section KeyOrderFacts.

Lemma insert_index_length (k : N * string) (l : list (N * string)) :
  length (JS.insert_index k l) = S (length l).
Proof.
  induction l as [|x l IH]; cbn; [reflexivity|].
  destruct (fst k <=? fst x)%N; cbn; [reflexivity|]. by rewrite IH.
Qed.

Lemma insert_index_In (k x : N * string) (l : list (N * string)) :
  In x (JS.insert_index k l) -> x = k \/ In x l.
Proof.
  induction l as [|y l IH]; cbn.
  - intros [<-|[]]. by left.
  - destruct (fst k <=? fst y)%N; cbn.
    + intros [<-|[<-|H]]; auto.
    + intros [<-|H]; [auto|]. destruct (IH H); auto.
Qed.

Lemma sort_indices_length (l : list (N * string)) :
  length (JS.sort_indices l) = length l.
Proof.
  unfold JS.sort_indices. induction l as [|x l IH]; cbn; [reflexivity|].
  by rewrite insert_index_length, IH.
Qed.

Lemma sort_indices_In (x : N * string) (l : list (N * string)) :
  In x (JS.sort_indices l) -> In x l.
Proof.
  unfold JS.sort_indices. induction l as [|y l IH]; cbn; [done|].
  intros H. apply insert_index_In in H as [->|H]; auto.
Qed.

Lemma index_keys_In (x : N * string) (keys : list string) :
  In x (JS.index_keys keys) -> In (snd x) keys.
Proof.
  unfold JS.index_keys. rewrite in_flat_map. intros (k & Hk & Hx).
  destruct (JS.array_index k); cbn in Hx; [|done].
  destruct Hx as [<-|[]]. exact Hk.
Qed.

Lemma key_order_length (keys : list string) :
  length (JS.key_order keys) = length keys.
Proof.
  unfold JS.key_order.
  rewrite length_app, length_map, sort_indices_length.
  unfold JS.index_keys, JS.is_index.
  induction keys as [|k keys IH]; cbn; [reflexivity|].
  destruct (JS.array_index k); cbn; lia.
Qed.

Lemma key_order_In (k : string) (keys : list string) :
  In k (JS.key_order keys) -> In k keys.
Proof.
  unfold JS.key_order. rewrite in_app_iff, in_map_iff, filter_In.
  intros [(x & <- & Hx)|[H _]]; [|exact H].
  by apply index_keys_In, sort_indices_In.
Qed.

End KeyOrderFacts.

(* ===================================================================== *)
(** * Facts about the entity adapter *)
(* ===================================================================== *)

Section AdapterFacts.
Context {T : Type}.
Implicit Types (st : Adapter.EntityState T) (k j : string) (f : T -> T).

Lemma updateOne_lookup_eq st k f :
  Adapter.entities (Adapter.updateOne st k f) !! k = f <$> Adapter.entities st !! k.
Proof. unfold Adapter.updateOne; cbn. apply lookup_alter_eq. Qed.

Lemma updateOne_lookup_ne st k j f :
  k <> j ->
  Adapter.entities (Adapter.updateOne st k f) !! j = Adapter.entities st !! j.
Proof. intros Hne. unfold Adapter.updateOne; cbn. by apply lookup_alter_ne. Qed.

Lemma updateOne_ids st k f :
  Adapter.ids (Adapter.updateOne st k f) = Adapter.ids st.
Proof. reflexivity. Qed.

Lemma updateOne_absent st k f :
  Adapter.entities st !! k = None -> Adapter.updateOne st k f = st.
Proof.
  intros Hk. destruct st as [i e]; unfold Adapter.updateOne; cbn in *.
  f_equal. apply map_eq; intros j.
  destruct (decide (k = j)) as [->|Hne].
  - by rewrite lookup_alter_eq, Hk.
  - by rewrite lookup_alter_ne.
Qed.

Lemma keyed_initial (selectId : T -> string) :
  Adapter.keyed selectId Adapter.getInitialState.
Proof. intros k e H. cbn in H. by rewrite lookup_empty in H. Qed.

Lemma keyed_addOne selectId st e :
  Adapter.keyed selectId st -> Adapter.keyed selectId (Adapter.addOne selectId st e).
Proof.
  intros Hk. unfold Adapter.addOne.
  destruct (Adapter.entities st !! selectId e) eqn:He; [exact Hk|].
  intros k x. cbn. rewrite lookup_insert. case_decide as Hd.
  - intros [= <-]. exact Hd.
  - apply Hk.
Qed.

Lemma keyed_addMany selectId es : forall st,
  Adapter.keyed selectId st -> Adapter.keyed selectId (Adapter.addMany selectId st es).
Proof.
  unfold Adapter.addMany. induction es as [|e es IH]; intros st Hk; cbn; [exact Hk|].
  apply IH. by apply keyed_addOne.
Qed.

Lemma keyed_setAll selectId st es : Adapter.keyed selectId (Adapter.setAll selectId st es).
Proof. unfold Adapter.setAll. apply keyed_addMany, keyed_initial. Qed.

Lemma keyed_updateOne selectId st k f :
  (forall e, selectId (f e) = selectId e) ->
  Adapter.keyed selectId st -> Adapter.keyed selectId (Adapter.updateOne st k f).
Proof.
  intros Hf Hk j x. unfold Adapter.updateOne; cbn.
  rewrite lookup_alter. case_decide as Hd.
  - subst j. destruct (Adapter.entities st !! k) as [e|] eqn:He; cbn; [|discriminate].
    intros [= <-]. rewrite Hf. by apply Hk.
  - apply Hk.
Qed.

Lemma wf_initial (selectId : T -> string) :
  Adapter.wf selectId Adapter.getInitialState.
Proof.
  split; [constructor|]. split; [|apply keyed_initial].
  intros k. cbn. rewrite lookup_empty, elem_of_nil. split; [done|].
  by intros [? ?].
Qed.

Lemma wf_addOne selectId st e :
  Adapter.wf selectId st -> Adapter.wf selectId (Adapter.addOne selectId st e).
Proof.
  intros (Hnd & Hdom & Hk). unfold Adapter.addOne.
  destruct (Adapter.entities st !! selectId e) eqn:He; [done|].
  split; [|split].
  - cbn. apply NoDup_app. split; [done|]. split; [|apply NoDup_singleton].
    intros x Hx Hx'. apply list_elem_of_singleton in Hx'. subst x.
    apply Hdom in Hx as [? Hx]. congruence.
  - intros k. cbn. rewrite elem_of_app, list_elem_of_singleton, lookup_insert.
    case_decide as Hd.
    + subst k. split; [by eexists|by right].
    + rewrite Hdom. split; [by intros [?|?]|by left].
  - pose proof (keyed_addOne selectId st e Hk) as H.
    unfold Adapter.addOne in H. by rewrite He in H.
Qed.

Lemma wf_setAll selectId st es : Adapter.wf selectId (Adapter.setAll selectId st es).
Proof.
  unfold Adapter.setAll, Adapter.addMany.
  assert (forall st0, Adapter.wf selectId st0 ->
                      Adapter.wf selectId (List.fold_left (Adapter.addOne selectId) es st0))
    as H.
  { induction es as [|e es IH]; intros st0 Hwf; cbn; [done|].
    by apply IH, wf_addOne. }
  apply H, wf_initial.
Qed.

Lemma wf_updateOne selectId st k f :
  (forall e, selectId (f e) = selectId e) ->
  Adapter.wf selectId st -> Adapter.wf selectId (Adapter.updateOne st k f).
Proof.
  intros Hf (Hnd & Hdom & Hk). split; [done|]. split.
  - intros j. cbn. rewrite Hdom, lookup_alter. case_decide as Hd; [|done].
    subst j. by rewrite fmap_is_Some.
  - by apply keyed_updateOne.
Qed.

(** A table that has an id has a first value. *)
Lemma values_head selectId st :
  Adapter.wf selectId st -> Adapter.ids st <> [] ->
  is_Some (head (Adapter.values st)).
Proof.
  intros (_ & Hdom & _) Hne. unfold Adapter.values.
  pose proof (key_order_length (Adapter.ids st)) as Hlen.
  destruct (JS.key_order (Adapter.ids st)) as [|k rest] eqn:Hko.
  - destruct (Adapter.ids st); [done|discriminate].
  - assert (k ∈ Adapter.ids st) as Hk.
    { apply list_elem_of_In, key_order_In. rewrite Hko. by left. }
    apply Hdom in Hk as [e He]. cbn. rewrite He. cbn. by eexists.
Qed.

End AdapterFacts.

(* ===================================================================== *)
(** * Properties of the entity store *)
(* ===================================================================== *)

Section StoryFacts.
Import Types Story Session.

(** ** Cumulative time *)

(** C10. [subtractTimeSpent a] sets [timeSpent] to [max 0 (timeSpent - a)],
    which is never negative, and leaves every other field of the state as
    it was. *)
Theorem C10_subtractTimeSpent_clamps (a : Z) (s : StoryState) :
  timeSpent (subtractTimeSpent a s) = Z.max 0 (timeSpent s - a)
  /\ 0 <= timeSpent (subtractTimeSpent a s)
  /\ set_timeSpent (timeSpent s) (subtractTimeSpent a s) = s.
Proof.
  destruct s; cbn. repeat split. lia.
Qed.

Lemma unlockEntity_timeSpent (type : UnlockType) (r : string) (timeCost : Z)
  (s : StoryState) :
  timeSpent (unlockEntity type r timeCost s) = timeSpent s + timeCost.
Proof.
  destruct type; cbn; try reflexivity.
  - destruct (Adapter.entities (sublocations s) !! r) as [sl|]; [|reflexivity].
    destruct (negb _); reflexivity.
  - destruct (Adapter.entities (objects s) !! r) as [o|]; [|reflexivity].
    destruct (negb _); reflexivity.
  - destruct (Adapter.entities (events s) !! r) as [e|]; [|reflexivity].
    destruct (negb _); reflexivity.
Qed.

Lemma removeFromTimeline_timeSpent (oid : string) (s : StoryState) :
  timeSpent (removeFromTimeline oid s) = timeSpent s.
Proof.
  unfold removeFromTimeline.
  destruct (Adapter.entities (objects s) !! oid) as [item|]; [|reflexivity].
  destruct (isEvidence item); reflexivity.
Qed.

(** ** unlockEntity *)

(** C6. [unlockEntity type ref timeCost] adds [timeCost] to [timeSpent]
    whatever the target; a sublocation that exists and is not yet unlocked
    becomes visible and unlocked; an object ('evidence') or an event that
    exists and is not yet unlocked becomes unlocked; for 'location' and
    'character' only the time changes. *)
Theorem C6_unlockEntity (type : UnlockType) (ref : string) (timeCost : Z)
  (s : StoryState) :
  let s' := unlockEntity type ref timeCost s in
  timeSpent s' = timeSpent s + timeCost
  /\ (forall sl,
        type = USublocation ->
        Adapter.entities (sublocations s) !! ref = Some sl ->
        JS.truthy_bool (subloc_hasBeenUnlocked sl) = false ->
        exists sl',
          Adapter.entities (sublocations s') !! ref = Some sl'
          /\ isVisible sl' = true /\ subloc_hasBeenUnlocked sl' = Some true)
  /\ (forall o,
        type = UEvidence ->
        Adapter.entities (objects s) !! ref = Some o ->
        JS.truthy_bool (hasBeenUnlocked o) = false ->
        exists o',
          Adapter.entities (objects s') !! ref = Some o'
          /\ hasBeenUnlocked o' = Some true)
  /\ (forall e,
        type = UEvent ->
        Adapter.entities (events s) !! ref = Some e ->
        JS.truthy_bool (event_hasBeenUnlocked e) = false ->
        exists e',
          Adapter.entities (events s') !! ref = Some e'
          /\ event_hasBeenUnlocked e' = Some true)
  /\ (type = ULocation \/ type = UCharacter ->
        s' = set_timeSpent (timeSpent s + timeCost) s).
Proof.
  cbn zeta. split; [|split; [|split; [|split]]].
  - apply unlockEntity_timeSpent.
  - intros sl -> Hsl Hf. cbn. rewrite Hsl, Hf. cbn.
    exists (subloc_with_unlocked true true sl). split; [|split; reflexivity].
    by rewrite lookup_alter_eq, Hsl.
  - intros o -> Ho Hf. cbn. rewrite Ho, Hf. cbn.
    exists (with_hasBeenUnlocked true o). split; [|reflexivity].
    by rewrite lookup_alter_eq, Ho.
  - intros e -> He Hf. cbn. rewrite He, Hf. cbn.
    exists (event_with_hasBeenUnlocked true e). split; [|reflexivity].
    by rewrite lookup_alter_eq, He.
  - intros [-> | ->]; reflexivity.
Qed.

Lemma C6_unlockEntity_witness :
  timeSpent (unlockEntity USublocation "sub1" 7 Samples.loaded) = 7
  /\ (exists sl',
        Adapter.entities (sublocations (unlockEntity USublocation "sub1" 7 Samples.loaded))
          !! "sub1" = Some sl'
        /\ isVisible sl' = true /\ subloc_hasBeenUnlocked sl' = Some true)
  /\ (exists o',
        Adapter.entities (objects (unlockEntity UEvidence "o1" 7 Samples.loaded))
          !! "o1" = Some o'
        /\ hasBeenUnlocked o' = Some true)
  /\ (exists e',
        Adapter.entities (events (unlockEntity UEvent "e1" 7 Samples.loaded))
          !! "e1" = Some e'
        /\ event_hasBeenUnlocked e' = Some true)
  /\ unlockEntity UCharacter "c1" 7 Samples.loaded
     = set_timeSpent 7 Samples.loaded.
Proof.
  split; [apply (C6_unlockEntity USublocation "sub1" 7 Samples.loaded)|].
  split.
  { apply (C6_unlockEntity USublocation "sub1" 7 Samples.loaded) with (sl := Samples.sub1);
      vm_compute; reflexivity. }
  split.
  { apply (C6_unlockEntity UEvidence "o1" 7 Samples.loaded) with (o := Samples.o1);
      vm_compute; reflexivity. }
  split.
  { apply (C6_unlockEntity UEvent "e1" 7 Samples.loaded) with (e := Samples.e1);
      vm_compute; reflexivity. }
  apply (C6_unlockEntity UCharacter "c1" 7 Samples.loaded). by right.
Defined.

(** ** addToTimeline *)

Lemma onTimeline_false_filter (oid : string) (evs : list Evidence) :
  List.existsb (fun e => String.eqb (cardId e) oid) evs = false ->
  List.filter (fun e => negb (String.eqb (cardId e) oid)) evs = evs.
Proof.
  induction evs as [|e evs IH]; cbn; [reflexivity|].
  intros H. apply orb_false_iff in H as [He Hrest].
  rewrite He. cbn. f_equal. by apply IH.
Qed.

Lemma onTimeline_false_count (oid : string) (evs : list Evidence) :
  List.existsb (fun e => String.eqb (cardId e) oid) evs = false ->
  List.filter (fun e => String.eqb (cardId e) oid) evs = [].
Proof.
  induction evs as [|e evs IH]; cbn; [reflexivity|].
  intros H. apply orb_false_iff in H as [He Hrest].
  rewrite He. by apply IH.
Qed.

(** A store with at least one location resolves a location for every
    object. *)
Lemma locationOf_resolves (item : StoryObject) (s : StoryState) :
  Adapter.wf loc_id (locations s) -> Adapter.ids (locations s) <> [] ->
  is_Some (locationOf item s).
Proof.
  intros Hwf Hne. unfold locationOf.
  destruct (Adapter.entities (locations s) !! locationFoundId item); [by eexists|].
  by apply (values_head loc_id).
Qed.

(** The entry that [addToTimeline] appends for an object. *)
Lemma addToTimeline_not_on_timeline (oid : string) (item : StoryObject) (l : Location)
  (s : StoryState) :
  Adapter.entities (objects s) !! oid = Some item ->
  onTimeline oid s = false ->
  locationOf item s = Some l ->
  addToTimeline oid s
  = set_evidence
      (evidence s ++
         [ {| ev_id := "ev-" +:+ oid; cardId := id item; cardType := CardObject;
              ev_name := name item; ev_imagePrompt := imagePrompt item;
              timestampCollected := timestamp item; locationId := loc_id l |} ])
      (if JS.truthy_bool (hasBeenUnlocked item)
       then set_objects
              (Adapter.updateOne (objects s) oid (with_isEvidence true)) s
       else set_objects
              (Adapter.updateOne (objects s) oid
                 (fun o => with_hasBeenUnlocked true (with_isEvidence true o)))
              (set_timeSpent (timeSpent s + JS.or_zero (timeToAdd item)) s)).
Proof.
  intros Hitem Hon Hloc. unfold addToTimeline. rewrite Hitem, Hon.
  unfold locationOf, onTimeline in *.
  destruct (JS.truthy_bool (hasBeenUnlocked item)); cbn;
    rewrite Hon; cbn; rewrite Hloc; reflexivity.
Qed.

Lemma addToTimeline_on_timeline (oid : string) (s : StoryState) :
  onTimeline oid s = true -> addToTimeline oid s = s.
Proof.
  intros Hon. unfold addToTimeline.
  destruct (Adapter.entities (objects s) !! oid); [|reflexivity].
  by rewrite Hon.
Qed.

(** C2, amended.  Let the state hold an object with id [o], not yet
    unlocked, with [timeToAdd] [t], not on the timeline, and let a location
    resolve for it.  Then [addToTimeline o] adds exactly [t] to
    [timeSpent], sets the object's [hasBeenUnlocked] and [isEvidence], and
    appends exactly one entry with [cardId] [o]; a second [addToTimeline o]
    changes nothing; and after [removeFromTimeline o] a further
    [addToTimeline o] adds no time and restores the entry. *)
Theorem C2_addToTimeline_first_unlock (o : string) (t : Z) (item : StoryObject)
  (l : Location) (s : StoryState) :
  Adapter.entities (objects s) !! o = Some item ->
  id item = o ->
  JS.truthy_bool (hasBeenUnlocked item) = false ->
  timeToAdd item = Some t ->
  onTimeline o s = false ->
  locationOf item s = Some l ->
  let s1 := addToTimeline o s in
  let s3 := addToTimeline o (removeFromTimeline o s1) in
  timeSpent s1 = timeSpent s + t
  /\ (exists item1,
        Adapter.entities (objects s1) !! o = Some item1
        /\ hasBeenUnlocked item1 = Some true /\ isEvidence item1 = true)
  /\ (exists e, evidence s1 = evidence s ++ [e] /\ cardId e = o)
  /\ length (List.filter (fun e => String.eqb (cardId e) o) (evidence s1)) = 1%nat
  /\ addToTimeline o s1 = s1
  /\ timeSpent s3 = timeSpent s1
  /\ evidence s3 = evidence s1.
Proof.
  intros Hitem Hid Hflag Ht Hon Hloc s1 s3.
  assert (Hs1 := addToTimeline_not_on_timeline o item l s Hitem Hon Hloc).
  rewrite Hflag, Ht in Hs1. cbn [JS.or_zero] in Hs1. fold s1 in Hs1.
  assert (Hitem1 : Adapter.entities (objects s1) !! o
                   = Some (with_hasBeenUnlocked true (with_isEvidence true item))).
  { rewrite Hs1. cbn. by rewrite lookup_alter_eq, Hitem. }
  assert (Hev1 : evidence s1 = evidence s ++
         [ {| ev_id := "ev-" +:+ o; cardId := id item; cardType := CardObject;
              ev_name := name item; ev_imagePrompt := imagePrompt item;
              timestampCollected := timestamp item; locationId := loc_id l |} ]).
  { rewrite Hs1. reflexivity. }
  assert (Hon1 : onTimeline o s1 = true).
  { unfold onTimeline. rewrite Hev1, List.existsb_app. cbn.
    rewrite Hid, String.eqb_refl. by rewrite orb_true_r. }
  split; [by rewrite Hs1|].
  split; [eexists; split; [exact Hitem1|split; reflexivity]|].
  split; [eexists; split; [exact Hev1|exact Hid]|].
  split.
  { rewrite Hev1, List.filter_app. cbn. rewrite Hid, String.eqb_refl.
    unfold onTimeline in Hon. rewrite (onTimeline_false_count _ _ Hon). reflexivity. }
  split; [by apply addToTimeline_on_timeline|].
  (* removal, then the second addition *)
  set (s2 := removeFromTimeline o s1) in *.
  assert (Hs2 : s2 = set_evidence (evidence s)
                  (set_objects
                     (Adapter.updateOne (objects s1) o
                        (fun x => with_assignedToSuspectIds [] (with_isEvidence false x)))
                     s1)).
  { unfold s2, removeFromTimeline. rewrite Hitem1. cbn [isEvidence with_hasBeenUnlocked with_isEvidence].
    cbn. rewrite Hev1, List.filter_app. cbn. rewrite Hid, String.eqb_refl. cbn.
    unfold onTimeline in Hon. rewrite (onTimeline_false_filter _ _ Hon).
    by rewrite app_nil_r. }
  set (item2 := with_assignedToSuspectIds []
                  (with_isEvidence false
                     (with_hasBeenUnlocked true (with_isEvidence true item)))).
  assert (Hitem2 : Adapter.entities (objects s2) !! o = Some item2).
  { rewrite Hs2. cbn. by rewrite lookup_alter_eq, Hitem1. }
  assert (Hon2 : onTimeline o s2 = false).
  { rewrite Hs2. exact Hon. }
  assert (Hloc2 : locationOf item2 s2 = Some l).
  { rewrite Hs2, Hs1. exact Hloc. }
  assert (Hs3 := addToTimeline_not_on_timeline o item2 l s2 Hitem2 Hon2 Hloc2).
  fold s3 in Hs3. cbn [item2 hasBeenUnlocked with_assignedToSuspectIds
                       with_isEvidence with_hasBeenUnlocked JS.truthy_bool] in Hs3.
  split.
  - rewrite Hs3, Hs2. reflexivity.
  - rewrite Hs3, Hev1, Hs2. reflexivity.
Qed.

Lemma C2_addToTimeline_first_unlock_witness :
  let s1 := addToTimeline "o1" Samples.loaded in
  let s3 := addToTimeline "o1" (removeFromTimeline "o1" s1) in
  timeSpent s1 = timeSpent Samples.loaded + 15
  /\ (exists item1,
        Adapter.entities (objects s1) !! "o1" = Some item1
        /\ hasBeenUnlocked item1 = Some true /\ isEvidence item1 = true)
  /\ (exists e, evidence s1 = evidence Samples.loaded ++ [e] /\ cardId e = "o1")
  /\ length (List.filter (fun e => String.eqb (cardId e) "o1") (evidence s1)) = 1%nat
  /\ addToTimeline "o1" s1 = s1
  /\ timeSpent s3 = timeSpent s1
  /\ evidence s3 = evidence s1.
Proof.
  apply (C2_addToTimeline_first_unlock "o1" 15 Samples.o1 Samples.loc1 Samples.loaded);
    vm_compute; reflexivity.
Defined.

(** C2, as stated, fails where no location resolves: in the store loaded
    from the cartridge without locations the object is there, locked, with
    [timeToAdd] 15 and off the timeline; [addToTimeline] charges the 15
    units and sets both flags, but appends no entry. *)
Lemma C2_counterexample_no_location :
  Adapter.entities (objects Samples.loadedNoLocation) !! "o1" = Some Samples.o1
  /\ id Samples.o1 = "o1"
  /\ hasBeenUnlocked Samples.o1 = Some false
  /\ timeToAdd Samples.o1 = Some 15
  /\ onTimeline "o1" Samples.loadedNoLocation = false
  /\ timeSpent (addToTimeline "o1" Samples.loadedNoLocation)
     = timeSpent Samples.loadedNoLocation + 15
  /\ ~ (exists e,
          evidence (addToTimeline "o1" Samples.loadedNoLocation)
            = evidence Samples.loadedNoLocation ++ [e]
          /\ cardId e = "o1")
  /\ onTimeline "o1" (addToTimeline "o1" Samples.loadedNoLocation) = false.
Proof.
  split_and!; try (vm_compute; reflexivity).
  intros (e & He & _).
  assert (evidence (addToTimeline "o1" Samples.loadedNoLocation) = []) as Hnil
    by (vm_compute; reflexivity).
  assert (evidence Samples.loadedNoLocation = []) as Hnil0
    by (vm_compute; reflexivity).
  rewrite Hnil, Hnil0 in He. discriminate.
Qed.

(** ** The tables of a session are the adapter's *)

Local Ltac tables :=
  unfold tablesWf; cbn; split_and!;
  first [ assumption
        | apply wf_updateOne; [by intros []|assumption]
        | by apply wf_addOne
        | apply wf_setAll ].

Lemma tablesWf_reducer (s : StoryState) (a : Action) :
  tablesWf s -> tablesWf (reducer s a).
Proof.
  intros (Hc & Ho & He & Hl & Hs & Hg & Hb).
  destruct a as [data|cid b|oid|oid|objectId suspectId|r|n|b|c b|c u|urls|c b|b|o
                |amt|amt|l c|type r tc]; cbn [reducer].
  - tables.
  - unfold toggleSuspect.
    destruct (Adapter.entities (characters s) !! cid) as [ch|]; [|tables].
    destruct (String.eqb (role ch) "suspect"); tables.
  - unfold addToTimeline.
    destruct (Adapter.entities (objects s) !! oid) as [item|]; [|tables].
    destruct (onTimeline oid s) eqn:Hon; [tables|].
    unfold onTimeline in *.
    destruct (negb (JS.truthy_bool (hasBeenUnlocked item))); cbn; rewrite Hon; cbn;
      unfold locationOf; cbn;
      (destruct (match Adapter.entities (locations s) !! locationFoundId item with
                 | Some l => Some l | None => _ end); tables).
  - unfold removeFromTimeline.
    destruct (Adapter.entities (objects s) !! oid) as [item|]; [|tables].
    destruct (isEvidence item); tables.
  - unfold assignEvidenceToSuspect.
    destruct (Adapter.entities (objects s) !! objectId) as [o|]; tables.
  - unfold queueImageGeneration. destruct (_ && _)%bool; tables.
  - tables.
  - tables.
  - tables.
  - tables.
  - tables.
  - tables.
  - tables.
  - tables.
  - tables.
  - tables.
  - tables.
  - unfold unlockEntity. destruct type; cbn.
    + tables.
    + destruct (Adapter.entities (sublocations s) !! r) as [sl|]; [|tables].
      destruct (negb _); tables.
    + destruct (Adapter.entities (objects s) !! r) as [o|]; [|tables].
      destruct (negb _); tables.
    + tables.
    + destruct (Adapter.entities (events s) !! r) as [e|]; [|tables].
      destruct (negb _); tables.
Qed.

(** In every state of a session each table is well formed; in particular
    every entity sits under its own id, which is what [updateOne] relies
    on. *)
Lemma reachable_tablesWf (cfg : Config) (s : StoryState) :
  reachable cfg s -> tablesWf s.
Proof.
  intros [actions ->]. unfold dispatchAll.
  assert (forall s0, tablesWf s0 -> tablesWf (List.fold_left reducer actions s0)) as H.
  { induction actions as [|a actions IH]; intros s0 H0; cbn; [done|].
    by apply IH, tablesWf_reducer. }
  apply H. unfold tablesWf. split_and!; apply wf_initial.
Qed.

(** ** The evidence timeline holds a card at most once *)

Lemma NoDup_map_filter (p : Evidence -> bool) (evs : list Evidence) :
  NoDup (List.map cardId evs) -> NoDup (List.map cardId (List.filter p evs)).
Proof.
  induction evs as [|e evs IH]; cbn; [done|].
  rewrite NoDup_cons. intros [Hnotin Hnd].
  destruct (p e); cbn; [|by apply IH].
  apply NoDup_cons. split; [|by apply IH].
  intros Hin. apply Hnotin.
  apply list_elem_of_In, in_map_iff in Hin as (x & Hx & Hxin).
  apply list_elem_of_In, in_map_iff. exists x. split; [done|].
  apply filter_In in Hxin. tauto.
Qed.

Lemma onTimeline_false_notin (oid : string) (s : StoryState) :
  onTimeline oid s = false -> oid ∉ List.map cardId (evidence s).
Proof.
  unfold onTimeline. intros Hon Hin.
  apply list_elem_of_In, in_map_iff in Hin as (e & He & Hein).
  assert (List.existsb (fun e => String.eqb (cardId e) oid) (evidence s) = true) as Ht.
  { apply existsb_exists. exists e. split; [done|]. by apply String.eqb_eq. }
  congruence.
Qed.

Lemma timelineInv_initialEvidence (data : StoryData) :
  NoDup (List.map cardId (initialEvidence (loadStoryCartridge data))).
Proof.
  unfold loadStoryCartridge; cbn.
  destruct (List.find _ (sd_characters data)); [|constructor].
  destruct (match (if JS.truthy_string _ then _ else _) with
            | Some l => Some l | None => _ end); cbn; [|constructor].
  apply NoDup_singleton.
Qed.

Lemma timelineInv_addToTimeline (oid : string) (s : StoryState) :
  timelineInv s -> timelineInv (addToTimeline oid s).
Proof.
  intros [Hk Hnd]. unfold addToTimeline.
  destruct (Adapter.entities (objects s) !! oid) as [item|] eqn:Hitem; [|done].
  destruct (onTimeline oid s) eqn:Hon; [done|].
  assert (Hid : id item = oid) by (by apply Hk).
  assert (Hfresh : NoDup (List.map cardId (evidence s ++
            [ {| ev_id := "ev-" +:+ oid; cardId := id item; cardType := CardObject;
                 ev_name := name item; ev_imagePrompt := imagePrompt item;
                 timestampCollected := timestamp item;
                 locationId := "" |} ]))).
  { rewrite List.map_app. cbn. apply NoDup_app. split; [done|]. split.
    - intros x Hx Hx'. apply list_elem_of_singleton in Hx'. subst x.
      rewrite Hid in Hx. by apply (onTimeline_false_notin oid s Hon).
    - apply NoDup_singleton. }
  rewrite List.map_app in Hfresh. cbn in Hfresh.
  destruct (negb (JS.truthy_bool (hasBeenUnlocked item))); cbn;
    unfold onTimeline in Hon |- *; cbn; rewrite Hon; cbn;
    unfold locationOf; cbn;
    (destruct (match Adapter.entities (locations s) !! locationFoundId item with
               | Some l => Some l | None => _ end) as [l|];
     split; cbn; [apply keyed_updateOne; [by intros []|done]
                 | rewrite ?List.map_app; cbn; done
                 | apply keyed_updateOne; [by intros []|done]
                 | done]).
Qed.

Lemma timelineInv_reducer (s : StoryState) (a : Action) :
  timelineInv s -> timelineInv (reducer s a).
Proof.
  intros Hinv.
  destruct a as [data|cid b|oid|oid|objectId suspectId|r|n|b|c b|c u|urls|c b|b|o
                |amt|amt|l c|type r tc]; cbn [reducer].
  - split; cbn; [apply keyed_setAll|apply timelineInv_initialEvidence].
  - destruct Hinv. unfold toggleSuspect.
    destruct (Adapter.entities (characters s) !! cid) as [c|]; [|done].
    by destruct (String.eqb (role c) "suspect").
  - by apply timelineInv_addToTimeline.
  - destruct Hinv as [Hk Hnd]. unfold removeFromTimeline.
    destruct (Adapter.entities (objects s) !! oid) as [item|]; [|done].
    destruct (isEvidence item); [|done].
    split; cbn; [apply keyed_updateOne; [by intros []|done]|].
    by apply NoDup_map_filter.
  - destruct Hinv as [Hk Hnd]. unfold assignEvidenceToSuspect.
    destruct (Adapter.entities (objects s) !! objectId) as [o|]; [|done].
    split; cbn; [apply keyed_updateOne; [by intros []|done]|done].
  - destruct Hinv. unfold queueImageGeneration. by destruct (_ && _)%bool.
  - by destruct Hinv.
  - by destruct Hinv.
  - by destruct Hinv.
  - by destruct Hinv.
  - by destruct Hinv.
  - by destruct Hinv.
  - by destruct Hinv.
  - destruct Hinv as [Hk Hnd]. split; cbn; [by apply keyed_addOne|done].
  - by destruct Hinv.
  - by destruct Hinv.
  - by destruct Hinv.
  - destruct Hinv as [Hk Hnd]. unfold unlockEntity. destruct type; cbn.
    + done.
    + destruct (Adapter.entities (sublocations s) !! r) as [sl|]; [|done].
      by destruct (negb _).
    + destruct (Adapter.entities (objects s) !! r) as [o|]; [|done].
      destruct (negb _); [|done].
      split; cbn; [apply keyed_updateOne; [by intros []|done]|done].
    + done.
    + destruct (Adapter.entities (events s) !! r) as [e|]; [|done].
      by destruct (negb _).
Qed.

Lemma timelineInv_dispatchAll (actions : list Action) : forall s,
  timelineInv s -> timelineInv (dispatchAll actions s).
Proof.
  unfold dispatchAll. induction actions as [|a actions IH]; intros s Hinv; cbn; [done|].
  apply IH. by apply timelineInv_reducer.
Qed.

Lemma timelineInv_initial (cfg : Config) : timelineInv (initialState cfg).
Proof. split; cbn; [apply keyed_initial|constructor]. Qed.

(** C5. In every state of a session (the initial state, the state after a
    cartridge load with its synthesized initial entry, and the state after
    any further action of the slice) the evidence timeline never contains
    two entries with the same [cardId]. *)
Theorem C5_timeline_cardIds_unique (cfg : Config) (s : StoryState) :
  reachable cfg s -> NoDup (List.map cardId (evidence s)).
Proof.
  intros [actions ->].
  apply (timelineInv_dispatchAll actions (initialState cfg)), timelineInv_initial.
Qed.

Lemma C5_timeline_cardIds_unique_witness :
  reachable Samples.cfg (addToTimeline "o1" Samples.loaded)
  /\ NoDup (List.map cardId (evidence (addToTimeline "o1" Samples.loaded))).
Proof.
  assert (Hr : reachable Samples.cfg (addToTimeline "o1" Samples.loaded)).
  { exists [LoadStoryCartridgeFulfilled (Samples.data [Samples.loc1]);
            AddToTimeline "o1"].
    reflexivity. }
  split; [exact Hr|].
  exact (C5_timeline_cardIds_unique Samples.cfg _ Hr).
Defined.

(** ** removeFromTimeline *)

(** C7, amended.  [removeFromTimeline oid] never changes [timeSpent].
    When the object exists and its [isEvidence] flag is set, the object
    gets [isEvidence] false and an empty [assignedToSuspectIds] and is
    otherwise as before, the other objects are untouched, the entries with
    [cardId] [oid] leave the evidence list, and no other field of the
    state changes.  When the object does not exist or its [isEvidence]
    flag is not set, the state is unchanged.  The flag decides, not the
    list: see the counterexample below. *)
Theorem C7_removeFromTimeline (oid : string) (s : StoryState) :
  let s' := removeFromTimeline oid s in
  timeSpent s' = timeSpent s
  /\ (forall item,
        Adapter.entities (objects s) !! oid = Some item ->
        isEvidence item = true ->
        (exists item',
           Adapter.entities (objects s') !! oid = Some item'
           /\ isEvidence item' = false
           /\ assignedToSuspectIds item' = []
           /\ with_isEvidence true
                (with_assignedToSuspectIds (assignedToSuspectIds item) item') = item)
        /\ (forall k, k <> oid ->
              Adapter.entities (objects s') !! k = Adapter.entities (objects s) !! k)
        /\ Adapter.ids (objects s') = Adapter.ids (objects s)
        /\ evidence s'
           = List.filter (fun e => negb (String.eqb (cardId e) oid)) (evidence s)
        /\ set_objects (objects s) (set_evidence (evidence s) s') = s)
  /\ (Adapter.entities (objects s) !! oid = None
      \/ (exists item,
            Adapter.entities (objects s) !! oid = Some item
            /\ isEvidence item = false) ->
      s' = s).
Proof.
  cbn zeta. split; [|split].
  - apply removeFromTimeline_timeSpent.
  - unfold removeFromTimeline. intros item Hitem Hev. rewrite Hitem, Hev. cbn.
    split; [|split; [|split; [|split]]].
    + exists (with_assignedToSuspectIds [] (with_isEvidence false item)).
      rewrite lookup_alter_eq, Hitem. cbn. repeat split.
      destruct item; cbn in *. by subst.
    + intros k Hk. by rewrite lookup_alter_ne.
    + reflexivity.
    + reflexivity.
    + by destruct s.
  - unfold removeFromTimeline. intros [Hnone | (item & Hitem & Hev)].
    + by rewrite Hnone.
    + by rewrite Hitem, Hev.
Qed.

(** Where the flag and the list agree about the object, an object without
    an entry on the list is left alone as well. *)
Lemma removeFromTimeline_off_timeline (oid : string) (s : StoryState) :
  (forall item,
     Adapter.entities (objects s) !! oid = Some item ->
     isEvidence item = onTimeline oid s) ->
  onTimeline oid s = false ->
  removeFromTimeline oid s = s.
Proof.
  intros Hagree Hoff. unfold removeFromTimeline.
  destruct (Adapter.entities (objects s) !! oid) as [item|] eqn:Hitem; [|done].
  by rewrite (Hagree item eq_refl), Hoff.
Qed.

Lemma C7_removeFromTimeline_witness :
  let s1 := addToTimeline "o1" Samples.loaded in
  timeSpent (removeFromTimeline "o1" s1) = 15
  /\ evidence (removeFromTimeline "o1" s1) = evidence Samples.loaded
  /\ removeFromTimeline "o1" Samples.loaded = Samples.loaded
  /\ removeFromTimeline "nothing" Samples.loaded = Samples.loaded.
Proof.
  cbn zeta.
  pose proof (C7_removeFromTimeline "o1" (addToTimeline "o1" Samples.loaded))
    as (Htime & Hon & _).
  pose proof (C7_removeFromTimeline "o1" Samples.loaded) as (_ & _ & Hoff).
  pose proof (C7_removeFromTimeline "nothing" Samples.loaded) as (_ & _ & Hnone).
  cbn zeta in *.
  split; [rewrite Htime; vm_compute; reflexivity|].
  split.
  { destruct (Hon (with_hasBeenUnlocked true (with_isEvidence true Samples.o1)))
      as (_ & _ & _ & Hev & _); [vm_compute; reflexivity..|].
    rewrite Hev. vm_compute. reflexivity. }
  split.
  { apply Hoff. right. exists Samples.o1. split; vm_compute; reflexivity. }
  apply Hnone. left. vm_compute. reflexivity.
Defined.

(** C7, as stated, fails when not on the timeline means that the evidence
    list has no entry of the object: in the store loaded from the
    cartridge without locations, [addToTimeline] sets the flag of the
    object and appends no entry; in that state, which a session reaches,
    the list is empty, and yet [removeFromTimeline] is no no-op: the
    object loses its [isEvidence] flag. *)
Lemma C7_counterexample_flag_without_entry :
  let s := addToTimeline "o1" Samples.loadedNoLocation in
  reachable Samples.cfg s
  /\ evidence s = []
  /\ onTimeline "o1" s = false
  /\ option_map isEvidence (Adapter.entities (objects s) !! "o1") = Some true
  /\ option_map isEvidence
       (Adapter.entities (objects (removeFromTimeline "o1" s)) !! "o1") = Some false
  /\ removeFromTimeline "o1" s <> s.
Proof.
  cbn zeta. split_and!.
  - exists [LoadStoryCartridgeFulfilled (Samples.data []); AddToTimeline "o1"].
    reflexivity.
  - vm_compute. reflexivity.
  - vm_compute. reflexivity.
  - vm_compute. reflexivity.
  - vm_compute. reflexivity.
  - intros H.
    apply (f_equal (fun st => option_map isEvidence
                                (Adapter.entities (objects st) !! "o1"))) in H.
    vm_compute in H. discriminate H.
Qed.

(** ** The unlock flag and the one-time cost *)

Lemma step_preserves_object (s : StoryState) (op : EntityOp) (k : string) :
  match Adapter.entities (objects s) !! k with
  | Some o =>
      exists o',
        Adapter.entities (objects (step s op)) !! k = Some o'
        /\ timeToAdd o' = timeToAdd o
        /\ (JS.truthy_bool (hasBeenUnlocked o) = true ->
            JS.truthy_bool (hasBeenUnlocked o') = true)
  | None => Adapter.entities (objects (step s op)) !! k = None
  end.
Proof.
  assert (Hupd : forall (f : StoryObject -> StoryObject) j,
    (forall o, timeToAdd (f o) = timeToAdd o
               /\ (JS.truthy_bool (hasBeenUnlocked o) = true ->
                   JS.truthy_bool (hasBeenUnlocked (f o)) = true)) ->
    match Adapter.entities (objects s) !! k with
    | Some o =>
        exists o',
          alter f j (Adapter.entities (objects s)) !! k = Some o'
          /\ timeToAdd o' = timeToAdd o
          /\ (JS.truthy_bool (hasBeenUnlocked o) = true ->
              JS.truthy_bool (hasBeenUnlocked o') = true)
    | None => alter f j (Adapter.entities (objects s)) !! k = None
    end).
  { intros f j Hf. rewrite lookup_alter. case_decide as Hd.
    - subst j. destruct (Adapter.entities (objects s) !! k) as [o|]; cbn; [|done].
      exists (f o). split; [done|]. apply Hf.
    - destruct (Adapter.entities (objects s) !! k) as [o|]; [|done].
      by exists o. }
  assert (Hsame :
    match Adapter.entities (objects s) !! k with
    | Some o =>
        exists o',
          Adapter.entities (objects s) !! k = Some o'
          /\ timeToAdd o' = timeToAdd o
          /\ (JS.truthy_bool (hasBeenUnlocked o) = true ->
              JS.truthy_bool (hasBeenUnlocked o') = true)
    | None => Adapter.entities (objects s) !! k = None
    end).
  { destruct (Adapter.entities (objects s) !! k) as [o|]; [by exists o|done]. }
  destruct op as [oid|oid|type r tc]; cbn [step toAction reducer].
  - unfold addToTimeline.
    destruct (Adapter.entities (objects s) !! oid) as [item|]; [|exact Hsame].
    destruct (onTimeline oid s) eqn:Hon; [exact Hsame|].
    unfold onTimeline in *.
    destruct (negb (JS.truthy_bool (hasBeenUnlocked item))); cbn; rewrite Hon; cbn;
      unfold locationOf; cbn;
      (destruct (match Adapter.entities (locations s) !! locationFoundId item with
                 | Some l => Some l | None => _ end); cbn;
       apply Hupd; intros o; (split; [reflexivity|cbn; tauto])).
  - unfold removeFromTimeline.
    destruct (Adapter.entities (objects s) !! oid) as [item|]; [|exact Hsame].
    destruct (isEvidence item); [|exact Hsame]. cbn.
    apply Hupd; intros o; (split; [reflexivity|cbn; tauto]).
  - unfold unlockEntity. destruct type; cbn; try exact Hsame.
    + destruct (Adapter.entities (sublocations s) !! r) as [sl|]; [|exact Hsame].
      destruct (negb _); exact Hsame.
    + destruct (Adapter.entities (objects s) !! r) as [o|]; [|exact Hsame].
      destruct (negb _); [|exact Hsame]. cbn.
      apply Hupd; intros x; (split; [reflexivity|cbn; tauto]).
    + destruct (Adapter.entities (events s) !! r) as [e|]; [|exact Hsame].
      destruct (negb _); exact Hsame.
Qed.

Lemma step_unlocked_mono (oid : string) (op : EntityOp) (s : StoryState) :
  unlocked oid s = true -> unlocked oid (step s op) = true.
Proof.
  unfold unlocked. pose proof (step_preserves_object s op oid) as H.
  destruct (Adapter.entities (objects s) !! oid) as [o|]; [|discriminate].
  destruct H as (o' & -> & _ & Hmono). exact Hmono.
Qed.

Lemma step_timeToAddOf (oid : string) (op : EntityOp) (s : StoryState) :
  timeToAddOf oid (step s op) = timeToAddOf oid s.
Proof.
  unfold timeToAddOf. pose proof (step_preserves_object s op oid) as H.
  destruct (Adapter.entities (objects s) !! oid) as [o|].
  - destruct H as (o' & -> & -> & _). reflexivity.
  - by rewrite H.
Qed.

Lemma step_timeSpent (op : EntityOp) (s : StoryState) :
  timeSpent (step s op) = timeSpent s + owed op s.
Proof.
  destruct op as [oid|oid|type r tc]; cbn [owed].
  - unfold flips, unlocked, timeToAddOf. cbn [step toAction reducer].
    unfold addToTimeline.
    destruct (Adapter.entities (objects s) !! oid) as [item|] eqn:Hitem.
    2:{ rewrite Hitem. cbn. lia. }
    destruct (onTimeline oid s) eqn:Hon.
    { rewrite Hitem. destruct (JS.truthy_bool (hasBeenUnlocked item)); cbn; lia. }
    unfold onTimeline in *.
    destruct (JS.truthy_bool (hasBeenUnlocked item)) eqn:Hflag; cbn; rewrite Hon; cbn;
      unfold locationOf; cbn;
      (destruct (match Adapter.entities (locations s) !! locationFoundId item with
                 | Some l => Some l | None => _ end); cbn;
       rewrite ?lookup_alter_eq, ?Hitem; cbn; lia).
  - cbn [step toAction reducer]. rewrite removeFromTimeline_timeSpent. lia.
  - cbn [step toAction reducer]. apply unlockEntity_timeSpent.
Qed.

Lemma flipCount_bound (oid : string) (ops : list EntityOp) : forall s,
  (flipCount oid ops s <= (if unlocked oid s then 0 else 1))%nat.
Proof.
  induction ops as [|op ops IH]; intros s; cbn [flipCount].
  - destruct (unlocked oid s); lia.
  - specialize (IH (step s op)). unfold flips.
    destruct (unlocked oid s) eqn:Hu; cbn.
    + rewrite (step_unlocked_mono oid op s Hu) in IH. lia.
    + destruct (unlocked oid (step s op)); lia.
Qed.

(** C1, amended.  Under every sequence of [addToTimeline],
    [removeFromTimeline] and [unlockEntity]: the [hasBeenUnlocked] flag of
    an object, once set, stays set, so it goes from false to true at most
    once; the object's [timeToAdd] does not change; and [timeSpent] grows
    by the [timeToAdd] of the object at each [addToTimeline] that makes
    that transition, by the time cost of each [unlockEntity], and by
    nothing else.  So [timeToAdd] is credited at most once per object, and
    exactly when [addToTimeline] makes the transition. *)
Theorem C1_unlock_once_and_owed_time (oid : string) (ops : list EntityOp)
  (s : StoryState) :
  (unlocked oid s = true -> unlocked oid (run ops s) = true)
  /\ (flipCount oid ops s <= 1)%nat
  /\ timeToAddOf oid (run ops s) = timeToAddOf oid s
  /\ timeSpent (run ops s) = timeSpent s + owedAlong ops s.
Proof.
  split; [|split; [|split]].
  - revert s. unfold run. induction ops as [|op ops IH]; intros s Hu; cbn; [done|].
    apply IH. by apply step_unlocked_mono.
  - pose proof (flipCount_bound oid ops s) as H. destruct (unlocked oid s); lia.
  - revert s. unfold run. induction ops as [|op ops IH]; intros s; cbn; [done|].
    rewrite IH. apply step_timeToAddOf.
  - revert s. unfold run. induction ops as [|op ops IH]; intros s; cbn [fold_left owedAlong].
    + lia.
    + rewrite IH, step_timeSpent. lia.
Qed.

Lemma C1_unlock_once_and_owed_time_witness :
  let s1 := run [OpAddToTimeline "o1"] Samples.loaded in
  let ops := [OpRemoveFromTimeline "o1"; OpAddToTimeline "o1"] in
  unlocked "o1" s1 = true
  /\ unlocked "o1" (run ops s1) = true
  /\ timeSpent s1 = 15
  /\ timeSpent (run ops s1) = 15.
Proof.
  cbn zeta.
  pose proof (C1_unlock_once_and_owed_time "o1" [OpAddToTimeline "o1"] Samples.loaded)
    as (_ & _ & _ & Htime1).
  pose proof (C1_unlock_once_and_owed_time "o1"
                [OpRemoveFromTimeline "o1"; OpAddToTimeline "o1"]
                (run [OpAddToTimeline "o1"] Samples.loaded))
    as (Hmono & _ & _ & Htime).
  assert (Hu : unlocked "o1" (run [OpAddToTimeline "o1"] Samples.loaded) = true)
    by (vm_compute; reflexivity).
  split; [exact Hu|].
  split; [exact (Hmono Hu)|].
  split; [rewrite Htime1|rewrite Htime]; vm_compute; reflexivity.
Defined.

(** C1, as stated, fails when [unlockEntity] makes the transition: the
    object with [timeToAdd] 15 is unlocked through an unlock entry of cost
    0 and then added to the timeline; its flag goes from false to true
    (once), yet [timeSpent] is what it was: the 15 units are credited
    neither at the transition nor afterwards. *)
Lemma C1_counterexample_unlockEntity :
  unlocked "o1" Samples.loaded = false
  /\ unlocked "o1" (run Samples.unlockThenAdd Samples.loaded) = true
  /\ flipCount "o1" Samples.unlockThenAdd Samples.loaded = 1%nat
  /\ timeToAddOf "o1" Samples.loaded = 15
  /\ onTimeline "o1" (run Samples.unlockThenAdd Samples.loaded) = true
  /\ timeSpent (run Samples.unlockThenAdd Samples.loaded)
     = timeSpent Samples.loaded
  /\ timeSpent (run Samples.unlockThenAdd Samples.loaded)
     <> timeSpent Samples.loaded + timeToAddOf "o1" Samples.loaded.
Proof. vm_compute. split_and!; try reflexivity. discriminate. Qed.

End StoryFacts.

(* ===================================================================== *)
(** * Properties of the case file *)
(* ===================================================================== *)

Section CaseFileFacts.
Import CaseFile.

Lemma slotFilled_spec (k : string) (s : CaseFileState) :
  slotFilled k s = true
  <-> exists sl c,
        Adapter.entities (slots s) !! k = Some sl
        /\ placedClueId sl = Some c /\ c <> "".
Proof.
  unfold slotFilled. split.
  - destruct (Adapter.entities (slots s) !! k) as [sl|]; [|discriminate].
    destruct (placedClueId sl) as [c|] eqn:Hc; cbn; [|discriminate].
    unfold JS.truthy_string. intros H. exists sl, c. repeat split; [done|].
    intros ->. discriminate.
  - intros (sl & c & -> & Hc & Hne). rewrite Hc. cbn. unfold JS.truthy_string.
    apply negb_true_iff, String.eqb_neq. exact Hne.
Qed.

Lemma isSupportingSlot_spec (target : string) (l : list EvidenceSlot) :
  List.existsb (fun sl => String.eqb (slotId sl) target) l = true
  <-> exists sl, In sl l /\ slotId sl = target.
Proof.
  rewrite existsb_exists. split; intros (sl & Hin & H); exists sl; split;
    try done; by apply String.eqb_eq.
Qed.

(** In every state of the case file the two tables are the adapter's. *)
Lemma reachable_caseFile_wf (s : CaseFileState) :
  reachable s ->
  Adapter.wf clue_id (clues s) /\ Adapter.wf slotId (slots s).
Proof.
  intros [actions ->]. unfold dispatchAll.
  assert (forall s0,
             Adapter.wf clue_id (clues s0) /\ Adapter.wf slotId (slots s0) ->
             Adapter.wf clue_id (clues (List.fold_left dispatch actions s0))
             /\ Adapter.wf slotId (slots (List.fold_left dispatch actions s0))) as H.
  { induction actions as [|a actions IH]; intros s0 [Hc Hs]; cbn; [done|].
    apply IH. destruct a as [v|v|v|target| | |data|m]; cbn; try done.
    - unfold placeClueInSlot.
      destruct (selectedClueId s0) as [clueId|]; [|done].
      destruct (negb _); [done|].
      destruct (Adapter.entities (clues s0) !! clueId) as [clue|]; [|done].
      destruct (Adapter.entities (slots s0) !! target) as [slot|]; [|done].
      destruct (List.find _ (anchors s0)) as [anchor|]; [|done].
      destruct (isCorrect s0 target clue slot anchor); cbn; [|done].
      split; [done|]. apply wf_updateOne; [by intros []|done].
    - split; apply wf_setAll. }
  apply H. split; apply wf_initial.
Qed.

(** C3. With a clue selected and the clue, the target slot and the active
    anchor resolved: a PRIMARY clue is placed correctly iff the slot's
    [correctEventKey] is the clue's [eventKey]; a SUPPORTING clue iff the
    anchor's primary slot is filled, the target is one of the anchor's
    supporting slots and the clue's category is the anchor's id.  A
    correct placement sets the slot's [placedClueId] to the id of the clue
    (the slot's other fields, the other slots and the clue list stay),
    adds the points and the bonus to the score and clears the selection
    and the incorrect-slot marker; an incorrect one sets
    [lastIncorrectSlotId] to the target slot and leaves every other field
    as it was.  Without a selection, or when the clue, the slot or the
    active anchor does not resolve, nothing changes. *)
Theorem C3_placeClueInSlot (target : string) (s : CaseFileState) :
  let s' := placeClueInSlot target s in
  (forall clueId clue slot anchor,
     selectedClueId s = Some clueId ->
     clueId <> "" ->
     Adapter.entities (clues s) !! clueId = Some clue ->
     Adapter.entities (slots s) !! target = Some slot ->
     List.find (fun a => String.eqb (anchor_id a) (activeTab s)) (anchors s)
       = Some anchor ->
     (clue_type clue = "PRIMARY" ->
        (isCorrect s target clue slot anchor = true
         <-> correctEventKey slot = Some (eventKey clue)))
     /\ (clue_type clue = "SUPPORTING" ->
           (isCorrect s target clue slot anchor = true
            <-> (exists psl c,
                   Adapter.entities (slots s) !! slotId (primarySlot anchor) = Some psl
                   /\ placedClueId psl = Some c /\ c <> "")
                /\ (exists sl, In sl (supportingSlots anchor) /\ slotId sl = target)
                /\ category clue = anchor_id anchor))
     /\ (isCorrect s target clue slot anchor = true ->
           (exists slot',
              Adapter.entities (slots s') !! target = Some slot'
              /\ placedClueId slot' = Some clueId
              /\ slotId slot' = slotId slot
              /\ correctEventKey slot' = correctEventKey slot)
           /\ (forall k, k <> target ->
                 Adapter.entities (slots s') !! k = Adapter.entities (slots s) !! k)
           /\ Adapter.ids (slots s') = Adapter.ids (slots s)
           /\ clues s' = clues s
           /\ score s' = score s + (points clue + JS.or_zero (bonusPoints clue))
           /\ selectedClueId s' = None
           /\ lastIncorrectSlotId s' = None
           /\ viewMode s' = viewMode s
           /\ activeTab s' = activeTab s
           /\ anchors s' = anchors s)
     /\ (isCorrect s target clue slot anchor = false ->
           lastIncorrectSlotId s' = Some target
           /\ viewMode s' = viewMode s
           /\ activeTab s' = activeTab s
           /\ selectedClueId s' = selectedClueId s
           /\ clues s' = clues s
           /\ slots s' = slots s
           /\ anchors s' = anchors s
           /\ score s' = score s))
  /\ (selectedClueId s = None
      \/ selectedClueId s = Some ""
      \/ (exists clueId,
            selectedClueId s = Some clueId
            /\ Adapter.entities (clues s) !! clueId = None)
      \/ Adapter.entities (slots s) !! target = None
      \/ List.find (fun a => String.eqb (anchor_id a) (activeTab s)) (anchors s) = None ->
      s' = s).
Proof.
  cbn zeta. split.
  - intros clueId clue slot anchor Hsel Hne Hclue Hslot Hanchor.
    assert (Htruthy : JS.truthy_string clueId = true).
    { unfold JS.truthy_string. by apply negb_true_iff, String.eqb_neq. }
    split; [|split; [|split]].
    + intros Hty. unfold isCorrect. rewrite Hty. cbn.
      unfold JS.strict_eq. destruct (correctEventKey slot) as [k|].
      * rewrite String.eqb_eq. split; [by intros ->|by intros [= ->]].
      * split; discriminate.
    + intros Hty. unfold isCorrect. rewrite Hty. cbn.
      rewrite !andb_true_iff, slotFilled_spec, isSupportingSlot_spec, String.eqb_eq.
      tauto.
    + intros Hok. unfold placeClueInSlot.
      rewrite Hsel, Htruthy, Hclue, Hslot, Hanchor, Hok. cbn.
      split_and!; try reflexivity.
      * exists (with_placedClueId (Some clueId) slot).
        by rewrite lookup_alter_eq, Hslot.
      * intros k Hk. by rewrite lookup_alter_ne.
    + intros Hbad. unfold placeClueInSlot.
      rewrite Hsel, Htruthy, Hclue, Hslot, Hanchor, Hbad. cbn.
      by split_and!.
  - unfold placeClueInSlot.
    intros [Hsel | [Hsel | [(clueId & Hsel & Hclue) | [Hslot | Hanchor]]]].
    + by rewrite Hsel.
    + by rewrite Hsel.
    + rewrite Hsel, Hclue. by destruct (negb _).
    + destruct (selectedClueId s) as [clueId|]; [|done].
      destruct (negb _); [done|].
      rewrite Hslot. by destruct (Adapter.entities (clues s) !! clueId).
    + destruct (selectedClueId s) as [clueId|]; [|done].
      destruct (negb _); [done|].
      rewrite Hanchor.
      destruct (Adapter.entities (clues s) !! clueId); [|done].
      by destruct (Adapter.entities (slots s) !! target).
Qed.

Lemma C3_placeClueInSlot_witness :
  score (placeClueInSlot "motive-primary" (CaseFileSamples.withSelected "p1")) = 15
  /\ selectedClueId (placeClueInSlot "motive-primary" (CaseFileSamples.withSelected "p1"))
     = None
  /\ (exists slot',
        Adapter.entities
          (slots (placeClueInSlot "motive-primary" (CaseFileSamples.withSelected "p1")))
          !! "motive-primary" = Some slot'
        /\ placedClueId slot' = Some "p1")
  /\ lastIncorrectSlotId
       (placeClueInSlot "motive-primary" (CaseFileSamples.withSelected "p2"))
     = Some "motive-primary"
  /\ score (placeClueInSlot "motive-primary" (CaseFileSamples.withSelected "p2")) = 0
  /\ lastIncorrectSlotId
       (placeClueInSlot "motive-s1" (CaseFileSamples.withSelected "sup1"))
     = Some "motive-s1"
  /\ placeClueInSlot "motive-primary" (CaseFileSamples.withSelected "unknown")
     = CaseFileSamples.withSelected "unknown".
Proof.
  pose proof (C3_placeClueInSlot "motive-primary" (CaseFileSamples.withSelected "p1"))
    as [H1 _].
  pose proof (C3_placeClueInSlot "motive-primary" (CaseFileSamples.withSelected "p2"))
    as [H2 _].
  pose proof (C3_placeClueInSlot "motive-s1" (CaseFileSamples.withSelected "sup1"))
    as [H3 _].
  pose proof (C3_placeClueInSlot "motive-primary" (CaseFileSamples.withSelected "unknown"))
    as [_ H4].
  cbn zeta in *.
  destruct (H1 "p1" CaseFileSamples.p1 CaseFileSamples.motivePrimary CaseFileSamples.motive)
    as (_ & _ & Hok & _); [vm_compute; reflexivity|discriminate|vm_compute; reflexivity..|].
  destruct Hok as ((slot' & Hslot & Hplaced & _) & _ & _ & _ & Hscore & Hselected & _);
    [vm_compute; reflexivity|].
  destruct (H2 "p2" CaseFileSamples.p2 CaseFileSamples.motivePrimary CaseFileSamples.motive)
    as (_ & _ & _ & Hbad2); [vm_compute; reflexivity|discriminate|vm_compute; reflexivity..|].
  destruct Hbad2 as (Hmark2 & _ & _ & _ & _ & _ & _ & Hscore2); [vm_compute; reflexivity|].
  destruct (H3 "sup1" CaseFileSamples.sup1 CaseFileSamples.motiveSupport CaseFileSamples.motive)
    as (_ & _ & _ & Hbad3); [vm_compute; reflexivity|discriminate|vm_compute; reflexivity..|].
  destruct Hbad3 as (Hmark3 & _); [vm_compute; reflexivity|].
  split; [rewrite Hscore; vm_compute; reflexivity|].
  split; [exact Hselected|].
  split; [by exists slot'|].
  split; [exact Hmark2|].
  split; [rewrite Hscore2; vm_compute; reflexivity|].
  split; [exact Hmark3|].
  apply H4. right. right. left. exists "unknown". split; vm_compute; reflexivity.
Defined.

(** ** Reset *)

Lemma resetInvestigation_throws (s : CaseFileState) :
  resetInvestigation s = JS.Throw (JS.ReferenceError "createInitialState").
Proof. reflexivity. Qed.

(** The function the module does bind gives the shape the reset is meant
    to restore. *)
Lemma createEmptyInitialState_shape :
  score createEmptyInitialState = 0
  /\ viewMode createEmptyInitialState = workspace
  /\ (forall k, slotFilled k createEmptyInitialState = false)
  /\ callByName "createEmptyInitialState" = JS.Normal createEmptyInitialState.
Proof. repeat split. Qed.

(** C4, on the code: [resetInvestigation] calls [createInitialState], a name
    the module does not bind (its initial state is made by
    [createEmptyInitialState]), so the reducer throws and the store keeps
    its state.  After a correct placement and a switch to the timeline
    view, a reset leaves the score at 15, the slot filled and the view
    mode on the timeline. *)
Theorem C4_resetInvestigation_leaves_state :
  reachable CaseFileSamples.placed
  /\ reducer CaseFileSamples.placed ResetInvestigation
    = JS.Throw (JS.ReferenceError "createInitialState")
  /\ dispatch CaseFileSamples.placed ResetInvestigation = CaseFileSamples.placed
  /\ score (dispatch CaseFileSamples.placed ResetInvestigation) = 15
  /\ slotFilled "motive-primary" (dispatch CaseFileSamples.placed ResetInvestigation)
     = true
  /\ viewMode (dispatch CaseFileSamples.placed ResetInvestigation) = timeline.
Proof.
  split.
  { exists [ LoadCaseFileFulfilled CaseFileSamples.data;
             SetSelectedClueId (Some "p1");
             PlaceClueInSlot "motive-primary";
             SetViewMode timeline ].
    reflexivity. }
  vm_compute. repeat split.
Qed.

End CaseFileFacts.

(* ===================================================================== *)
(** * Properties of the cartridge transformer *)
(* ===================================================================== *)

Section CartridgeFacts.
Import Types Cartridge.

Lemma transformCharacter_with_statement (now : string) (c : RawCharacter) (w : Working)
  (s : string) :
  statement c = Some s -> s <> "" ->
  testimonyIds (fst (transformCharacter now c w)) = ["testimony-" +:+ raw_id c]
  /\ testimonies (snd (transformCharacter now c w))
     = testimonies w ++
         [ {| testimony_id := "testimony-" +:+ raw_id c;
              title := "Statement from " +:+ raw_name c;
              content := s;
              sourceCharacterId := raw_id c |} ].
Proof.
  intros Hs Hne. unfold transformCharacter. rewrite Hs.
  assert (JS.truthy_string s = true) as ->.
  { unfold JS.truthy_string. by apply negb_true_iff, String.eqb_neq. }
  split; reflexivity.
Qed.

Lemma transformCharacter_without_statement (now : string) (c : RawCharacter)
  (w : Working) :
  statement c = None \/ statement c = Some "" ->
  testimonyIds (fst (transformCharacter now c w)) = []
  /\ testimonies (snd (transformCharacter now c w)) = testimonies w.
Proof.
  intros [Hs | Hs]; unfold transformCharacter; rewrite Hs; split; reflexivity.
Qed.

Lemma transformFrom_cons (clock : nat -> string) (i : nat) (c : RawCharacter)
  (rest : list RawCharacter) (w : Working) :
  transformFrom clock i (c :: rest) w
  = (fst (transformCharacter (clock i) c w)
       :: fst (transformFrom clock (S i) rest (snd (transformCharacter (clock i) c w))),
     snd (transformFrom clock (S i) rest (snd (transformCharacter (clock i) c w)))).
Proof.
  cbn [transformFrom].
  destruct (transformCharacter (clock i) c w) as [ch w1]. cbn [fst snd].
  destruct (transformFrom clock (S i) rest w1) as [chs w2]. reflexivity.
Qed.

(** The testimonies after the transformation: those before, then one per
    character with a statement, in the order of the characters. *)
Lemma transformFrom_testimonies (clock : nat -> string) (raws : list RawCharacter) :
  forall i w,
    testimonies (snd (transformFrom clock i raws w))
    = testimonies w ++
        omap (fun c =>
                if JS.truthy (statement c)
                then Some {| testimony_id := "testimony-" +:+ raw_id c;
                             title := "Statement from " +:+ raw_name c;
                             content := default "" (statement c);
                             sourceCharacterId := raw_id c |}
                else None) raws.
Proof.
  induction raws as [|c raws IH]; intros i w.
  - cbn. by rewrite app_nil_r.
  - rewrite transformFrom_cons. cbn [snd]. rewrite IH.
    destruct (statement c) as [s|] eqn:Hs.
    + destruct (JS.truthy_string s) eqn:Ht.
      * assert (s <> "") as Hne.
        { intros ->. discriminate. }
        destruct (transformCharacter_with_statement (clock i) c w s Hs Hne) as [_ ->].
        cbn. rewrite Hs. cbn. rewrite Ht. cbn. by rewrite <- app_assoc.
      * destruct (transformCharacter_without_statement (clock i) c w) as [_ ->].
        { right. f_equal. unfold JS.truthy_string in Ht.
          apply negb_false_iff in Ht. rewrite Hs. f_equal. by apply String.eqb_eq. }
        cbn. rewrite Hs. cbn. by rewrite Ht.
    + destruct (transformCharacter_without_statement (clock i) c w) as [_ ->];
        [by left|].
      cbn. by rewrite Hs.
Qed.

Lemma transformFrom_characters (clock : nat -> string) (raws : list RawCharacter) :
  forall i w,
    List.map (fun ch => (char_id ch, testimonyIds ch)) (fst (transformFrom clock i raws w))
    = List.map (fun c => (raw_id c,
                          if JS.truthy (statement c)
                          then ["testimony-" +:+ raw_id c] else []))
               raws.
Proof.
  induction raws as [|c raws IH]; intros i w; [reflexivity|].
  rewrite transformFrom_cons. cbn [fst List.map]. rewrite IH. f_equal.
  unfold transformCharacter.
  destruct (statement c) as [s|]; cbn [JS.truthy]; [|reflexivity].
  destruct (JS.truthy_string s); reflexivity.
Qed.

(** C9. Every raw character with a non-empty statement gets exactly one
    synthesized testimony, with id [testimony-<id>], title
    [Statement from <name>], the statement as content and the character as
    source, and the transformed character's [testimonyIds] is exactly that
    id; a character whose statement is empty or absent gets no testimony
    and an empty [testimonyIds].  Over a whole cartridge the testimonies
    are those, in the order of the characters. *)
Theorem C9_statement_testimonies (clock : nat -> string)
  (rawCharacters : list RawCharacter) (rawObjects : list RawObject)
  (before : list Testimony) :
  (forall now c w s,
     statement c = Some s -> s <> "" ->
     testimonyIds (fst (transformCharacter now c w)) = ["testimony-" +:+ raw_id c]
     /\ testimonies (snd (transformCharacter now c w))
        = testimonies w ++
            [ {| testimony_id := "testimony-" +:+ raw_id c;
                 title := "Statement from " +:+ raw_name c;
                 content := s;
                 sourceCharacterId := raw_id c |} ])
  /\ (forall now c w,
        statement c = None \/ statement c = Some "" ->
        testimonyIds (fst (transformCharacter now c w)) = []
        /\ testimonies (snd (transformCharacter now c w)) = testimonies w)
  /\ testimonies (snd (transformCharacterData clock rawCharacters rawObjects before))
     = before ++
         omap (fun c =>
                 if JS.truthy (statement c)
                 then Some {| testimony_id := "testimony-" +:+ raw_id c;
                              title := "Statement from " +:+ raw_name c;
                              content := default "" (statement c);
                              sourceCharacterId := raw_id c |}
                 else None) rawCharacters
  /\ List.map (fun ch => (char_id ch, testimonyIds ch))
       (fst (transformCharacterData clock rawCharacters rawObjects before))
     = List.map (fun c => (raw_id c,
                           if JS.truthy (statement c)
                           then ["testimony-" +:+ raw_id c] else []))
                rawCharacters.
Proof.
  split; [|split; [|split]].
  - intros now c w s. apply transformCharacter_with_statement.
  - intros now c w. apply transformCharacter_without_statement.
  - unfold transformCharacterData. by rewrite transformFrom_testimonies.
  - unfold transformCharacterData. apply transformFrom_characters.
Qed.

Lemma C9_statement_testimonies_witness :
  let out := transformCharacterData CartridgeSamples.clock
               [CartridgeSamples.c1; CartridgeSamples.c2] [] [] in
  testimonies (snd out)
  = [ {| testimony_id := "testimony-c1"; title := "Statement from Marv";
         content := "I saw nothing"; sourceCharacterId := "c1" |} ]
  /\ List.map testimonyIds (fst out) = [ ["testimony-c1"]; [] ]
  /\ testimonyIds (fst (transformCharacter "now" CartridgeSamples.c1
                          {| allRawObjects := []; testimonies := [] |}))
     = ["testimony-c1"]
  /\ testimonyIds (fst (transformCharacter "now" CartridgeSamples.c2
                          {| allRawObjects := []; testimonies := [] |}))
     = [].
Proof.
  cbn zeta.
  pose proof (C9_statement_testimonies CartridgeSamples.clock
                [CartridgeSamples.c1; CartridgeSamples.c2] [] [])
    as (Hwith & Hwithout & Hall & _).
  split; [rewrite Hall; vm_compute; reflexivity|].
  split; [vm_compute; reflexivity|].
  split.
  - apply (Hwith "now" CartridgeSamples.c1 _ "I saw nothing");
      [vm_compute; reflexivity|discriminate].
  - apply (Hwithout "now" CartridgeSamples.c2). right. vm_compute. reflexivity.
Defined.

End CartridgeFacts.

(* ===================================================================== *)
(** * Properties of the image generation queue processor *)
(* ===================================================================== *)

Section ImageQueueFacts.
Import Types Story ImageQueue.

(** Closes a goal with a hypothesis of membership in the empty list. *)
Local Ltac in_nil_absurd :=
  intros; match goal with H : _ ∈ [] |- _ => by apply elem_of_nil in H end.

Variable cfg : Config.
Variable w : World.

Lemma startRequest_fold (batch : list ImageGenerationRequest) : forall s,
  let s' := List.fold_left startRequest batch s in
  imageUrls s' = imageUrls s
  /\ imageErrors s' = imageErrors s
  /\ imageGenerationQueue s' = imageGenerationQueue s
  /\ isProcessingQueue s' = isProcessingQueue s
  /\ (forall c, c ∉ List.map request_cardId batch ->
                imageLoading s' !! c = imageLoading s !! c).
Proof.
  induction batch as [|r batch IH]; intros s; cbn zeta; cbn [List.fold_left].
  - repeat split.
  - destruct (IH (startRequest s r)) as (Hu & He & Hq & Hp & Hl). cbn zeta in *.
    rewrite Hu, He, Hq, Hp. repeat split.
    intros c Hc. cbn in Hc. apply not_elem_of_cons in Hc as [Hne Hc].
    rewrite (Hl c Hc). cbn. by rewrite lookup_insert_ne.
Qed.

Lemma settleRequest_facts (all : list ImageGenerationRequest)
  (r : ImageGenerationRequest) (s : StoryState) :
  r ∈ all ->
  let s' := settleRequest w s r in
  imageGenerationQueue s' = imageGenerationQueue s
  /\ isProcessingQueue s' = isProcessingQueue s
  /\ (forall c, urlHeld w all s c -> urlHeld w all s' c)
  /\ (forall u, service w r = Published u -> urlHeld w all s' (request_cardId r))
  /\ (forall c, imageErrors s !! c = Some true -> imageErrors s' !! c = Some true)
  /\ (failed w r -> imageErrors s' !! request_cardId r = Some true)
  /\ imageLoading s' !! request_cardId r = Some false
  /\ (forall c, c <> request_cardId r -> imageLoading s' !! c = imageLoading s !! c).
Proof.
  intros Hin. cbn zeta. unfold settleRequest.
  split; [by destruct (service w r)|].
  split; [by destruct (service w r)|].
  split.
  { intros c (r' & url' & Hr' & Hc & Hpub & Hurl). unfold urlHeld.
    destruct (service w r) as [u| |] eqn:Hsv; cbn.
    - destruct (decide (request_cardId r = c)) as [Heq|Hne].
      + exists r, u. subst c. rewrite <- Heq. by rewrite lookup_insert_eq.
      + exists r', url'. by rewrite lookup_insert_ne.
    - by exists r', url'.
    - by exists r', url'. }
  split.
  { intros u Hu. rewrite Hu. unfold urlHeld. cbn. exists r, u.
    by rewrite lookup_insert_eq. }
  split.
  { intros c Hc. destruct (service w r); cbn; [done| |];
      (destruct (decide (request_cardId r = c)) as [->|Hne];
       [by rewrite lookup_insert_eq|by rewrite lookup_insert_ne]). }
  split.
  { intros [Hf|Hf]; rewrite Hf; cbn; by rewrite lookup_insert_eq. }
  split.
  { destruct (service w r); cbn; by rewrite lookup_insert_eq. }
  intros c Hc. destruct (service w r); cbn; by rewrite lookup_insert_ne.
Qed.

Lemma settleRequest_fold (all L : list ImageGenerationRequest) : forall s,
  (forall r, r ∈ L -> r ∈ all) ->
  let s' := List.fold_left (settleRequest w) L s in
  imageGenerationQueue s' = imageGenerationQueue s
  /\ isProcessingQueue s' = isProcessingQueue s
  /\ (forall c, urlHeld w all s c -> urlHeld w all s' c)
  /\ (forall r u, r ∈ L -> service w r = Published u -> urlHeld w all s' (request_cardId r))
  /\ (forall c, imageErrors s !! c = Some true -> imageErrors s' !! c = Some true)
  /\ (forall r, r ∈ L -> failed w r -> imageErrors s' !! request_cardId r = Some true)
  /\ (forall r, r ∈ L -> imageLoading s' !! request_cardId r = Some false)
  /\ (forall c, c ∉ List.map request_cardId L ->
                imageLoading s' !! c = imageLoading s !! c).
Proof.
  induction L as [|r L IH]; intros s Hsub; cbn zeta; cbn [List.fold_left].
  - repeat split; try done; in_nil_absurd.
  - assert (Hr : r ∈ all) by (apply Hsub; left).
    destruct (settleRequest_facts all r s Hr)
      as (Hq1 & Hp1 & Hu1 & Hpub1 & He1 & Hf1 & Hl1 & Hlo1).
    destruct (IH (settleRequest w s r))
      as (Hq & Hp & Hu & Hpub & He & Hf & Hl & Hlo).
    { intros x Hx. apply Hsub. by right. }
    cbn zeta in *. rewrite Hq, Hp, Hq1, Hp1.
    split; [done|]. split; [done|].
    split; [intros c Hc; by apply Hu, Hu1|].
    split.
    { intros x u Hx Hxu. apply elem_of_cons in Hx as [->|Hx].
      - by apply Hu, (Hpub1 u).
      - by apply (Hpub x u). }
    split; [intros c Hc; by apply He, He1|].
    split.
    { intros x Hx Hxf. apply elem_of_cons in Hx as [->|Hx].
      - by apply He, Hf1.
      - by apply Hf. }
    split.
    { intros x Hx. apply elem_of_cons in Hx as [->|Hx]; [|by apply Hl].
      destruct (decide (request_cardId r ∈ List.map request_cardId L)) as [Hin|Hnin].
      - apply list_elem_of_In, in_map_iff in Hin as (y & Hy & Hyin).
        rewrite <- Hy. apply Hl. by apply list_elem_of_In.
      - by rewrite (Hlo _ Hnin). }
    intros c Hc. cbn in Hc. apply not_elem_of_cons in Hc as [Hne Hc].
    rewrite (Hlo c Hc). by apply Hlo1.
Qed.

Hypothesis limit_positive : 1 <= CONCURRENT_REQUEST_LIMIT cfg.
Hypothesis settles_all : forall batch, Permutation (settleOrder w batch) batch.

Lemma batch_split (q : list ImageGenerationRequest) :
  let batch := slice0 (CONCURRENT_REQUEST_LIMIT cfg) q in
  batch ++ drop (length batch) q = q
  /\ (q <> [] -> (length (drop (length batch) q) < length q)%nat).
Proof.
  cbn zeta. unfold slice0.
  assert ((CONCURRENT_REQUEST_LIMIT cfg <? 0) = false) as -> by lia.
  set (n := Z.to_nat (CONCURRENT_REQUEST_LIMIT cfg)).
  assert (1 <= n)%nat by lia.
  rewrite length_take.
  destruct (decide (n <= length q)%nat) as [Hle|Hgt].
  - rewrite Nat.min_l by done. split; [apply take_drop|].
    intros Hq. rewrite length_drop. destruct q; [done|cbn in *; lia].
  - rewrite Nat.min_r by lia. rewrite take_ge by lia. rewrite drop_all.
    split; [by rewrite app_nil_r|].
    intros Hq. destruct q; [done|cbn; lia].
Qed.

Lemma processBatch_facts (all : list ImageGenerationRequest) (s : StoryState) :
  (forall r, r ∈ imageGenerationQueue s -> r ∈ all) ->
  let batch := slice0 (CONCURRENT_REQUEST_LIMIT cfg) (imageGenerationQueue s) in
  let s' := processBatch cfg w s in
  imageGenerationQueue s' = drop (length batch) (imageGenerationQueue s)
  /\ isProcessingQueue s' = isProcessingQueue s
  /\ (forall c, urlHeld w all s c -> urlHeld w all s' c)
  /\ (forall r u, r ∈ batch -> service w r = Published u ->
                  urlHeld w all s' (request_cardId r))
  /\ (forall c, imageErrors s !! c = Some true -> imageErrors s' !! c = Some true)
  /\ (forall r, r ∈ batch -> failed w r -> imageErrors s' !! request_cardId r = Some true)
  /\ (forall r, r ∈ batch -> imageLoading s' !! request_cardId r = Some false)
  /\ (forall c, imageLoading s !! c = Some false -> imageLoading s' !! c = Some false).
Proof.
  intros Hsub. cbn zeta. unfold processBatch.
  set (batch := slice0 (CONCURRENT_REQUEST_LIMIT cfg) (imageGenerationQueue s)).
  set (s1 := dequeueImageRequests (length batch) s).
  set (s2 := List.fold_left startRequest batch s1).
  destruct (batch_split (imageGenerationQueue s)) as [Hsplit _]. fold batch in Hsplit.
  assert (Hbatch : forall r, r ∈ batch -> r ∈ all).
  { intros r Hr. apply Hsub. rewrite <- Hsplit. apply elem_of_app. by left. }
  assert (Hperm : forall r, r ∈ settleOrder w batch <-> r ∈ batch).
  { intros r. by rewrite (settles_all batch). }
  destruct (startRequest_fold batch s1) as (Hu2 & He2 & Hq2 & Hp2 & Hl2).
  fold s2 in Hu2, He2, Hq2, Hp2, Hl2. cbn zeta in *.
  destruct (settleRequest_fold all (settleOrder w batch) s2)
    as (Hq & Hp & Hu & Hpub & He & Hf & Hl & Hlo).
  { intros r Hr. by apply Hbatch, Hperm. }
  cbn zeta in *. rewrite Hq, Hp, Hq2, Hp2.
  split; [done|]. split; [done|].
  split.
  { intros c Hc. apply Hu. destruct Hc as (r' & url' & ? & ? & ? & Hurl).
    exists r', url'. rewrite Hu2. done. }
  split; [intros r u Hr; apply Hpub; by apply Hperm|].
  split; [intros c Hc; apply He; by rewrite He2|].
  split; [intros r Hr; apply Hf; by apply Hperm|].
  split; [intros r Hr; apply Hl; by apply Hperm|].
  intros c Hc.
  destruct (decide (c ∈ List.map request_cardId (settleOrder w batch))) as [Hin|Hnin].
  - apply list_elem_of_In, in_map_iff in Hin as (y & Hy & Hyin).
    rewrite <- Hy. apply Hl. by apply list_elem_of_In.
  - rewrite (Hlo c Hnin). rewrite Hl2; [exact Hc|].
    intros Hin. apply Hnin.
    apply list_elem_of_In, in_map_iff in Hin as (y & Hy & Hyin).
    apply list_elem_of_In, in_map_iff. exists y. split; [done|].
    apply list_elem_of_In, Hperm. by apply list_elem_of_In.
Qed.

Lemma processLoop_facts (all : list ImageGenerationRequest) (fuel : nat) :
  forall s,
    (length (imageGenerationQueue s) <= fuel)%nat ->
    (forall r, r ∈ imageGenerationQueue s -> r ∈ all) ->
    exists s',
      processLoop cfg w fuel s = Some s'
      /\ imageGenerationQueue s' = []
      /\ isProcessingQueue s' = isProcessingQueue s
      /\ (forall c, urlHeld w all s c -> urlHeld w all s' c)
      /\ (forall r u, r ∈ imageGenerationQueue s -> service w r = Published u ->
                      urlHeld w all s' (request_cardId r))
      /\ (forall c, imageErrors s !! c = Some true -> imageErrors s' !! c = Some true)
      /\ (forall r, r ∈ imageGenerationQueue s -> failed w r ->
                    imageErrors s' !! request_cardId r = Some true)
      /\ (forall r, r ∈ imageGenerationQueue s ->
                    imageLoading s' !! request_cardId r = Some false)
      /\ (forall c, imageLoading s !! c = Some false -> imageLoading s' !! c = Some false).
Proof.
  induction fuel as [|fuel IH]; intros s Hlen Hsub.
  - destruct (imageGenerationQueue s) as [|r q] eqn:Hq; [|cbn in Hlen; lia].
    exists s. cbn. rewrite Hq. repeat split; try done; in_nil_absurd.
  - destruct (imageGenerationQueue s) as [|r0 q0] eqn:Hq.
    { exists s. cbn. rewrite Hq. repeat split; try done; in_nil_absurd. }
    cbn [processLoop]. rewrite Hq. rewrite <- Hq in *.
    destruct (processBatch_facts all s Hsub)
      as (Hq1 & Hp1 & Hu1 & Hpub1 & He1 & Hf1 & Hl1 & Hlo1).
    destruct (batch_split (imageGenerationQueue s)) as [Hsplit Hshrink].
    cbn zeta in *.
    set (batch := slice0 (CONCURRENT_REQUEST_LIMIT cfg) (imageGenerationQueue s)) in *.
    set (s1 := processBatch cfg w s) in *.
    destruct (IH s1) as (s' & Hrun & Hq' & Hp' & Hu' & Hpub' & He' & Hf' & Hl' & Hlo').
    { rewrite Hq1. assert (imageGenerationQueue s <> []) by (rewrite Hq; done).
      specialize (Hshrink H). lia. }
    { intros r Hr. apply Hsub. rewrite <- Hsplit, <- Hq1. apply elem_of_app. by right. }
    exists s'. split; [exact Hrun|]. split; [exact Hq'|].
    split; [by rewrite Hp', Hp1|].
    split; [intros c Hc; by apply Hu', Hu1|].
    assert (Hcases : forall r, r ∈ imageGenerationQueue s ->
                               r ∈ batch \/ r ∈ imageGenerationQueue s1).
    { intros r Hr. rewrite <- Hsplit in Hr. apply elem_of_app in Hr. by rewrite Hq1. }
    split.
    { intros r u Hr Hru. destruct (Hcases r Hr) as [Hb|Hrest].
      - by apply Hu', (Hpub1 r u).
      - by apply (Hpub' r u). }
    split; [intros c Hc; by apply He', He1|].
    split.
    { intros r Hr Hrf. destruct (Hcases r Hr) as [Hb|Hrest].
      - by apply He', Hf1.
      - by apply Hf'. }
    split.
    { intros r Hr. destruct (Hcases r Hr) as [Hb|Hrest].
      - by apply Hlo', Hl1.
      - by apply Hl'. }
    intros c Hc. by apply Hlo', Hlo1.
Qed.

End ImageQueueFacts.

Section ImageQueueRun.
Import Types Story ImageQueue.

(** Whatever the limit and the oracles: a run that was let in by the guard
    and comes to its end leaves an empty queue and a lowered flag. *)
Lemma processLoop_ends_empty (cfg : Config) (w : World) (fuel : nat) :
  forall s s', processLoop cfg w fuel s = Some s' -> imageGenerationQueue s' = [].
Proof.
  induction fuel as [|fuel IH]; intros s s'; cbn [processLoop];
    destruct (imageGenerationQueue s) eqn:Hq; try discriminate.
  - by intros [= <-].
  - by intros [= <-].
  - apply IH.
Qed.

Lemma processImageGenerationQueue_ends_clean (cfg : Config) (w : World) (fuel : nat)
  (s s' : StoryState) :
  isProcessingQueue s = false ->
  processImageGenerationQueue cfg w fuel s = Some s' ->
  imageGenerationQueue s' = [] /\ isProcessingQueue s' = false.
Proof.
  intros Hp. unfold processImageGenerationQueue. rewrite Hp. cbn [orb].
  destruct (imageGenerationQueue s) as [|r q] eqn:Hq; cbn [length Nat.eqb].
  - by intros [= <-].
  - destruct (processLoop cfg w fuel (setIsProcessingQueue true s)) as [s1|] eqn:Hrun;
      [|discriminate].
    intros [= <-]. split; [|reflexivity].
    cbn. by apply processLoop_ends_empty in Hrun.
Qed.

(** C8. Let the concurrency limit be at least one, let every request of a
    batch settle, in any order, and let no run be in progress.  Then the
    processor comes to its end (within as many rounds as there are queued
    requests), the queue is empty and [isProcessingQueue] is false
    afterwards, and for every request it took off the queue: the loading
    flag of its card is cleared; if the service gave an image, a URL of a
    published request for that card is in [imageUrls] (the request's own
    URL when the queued card ids are distinct); if the service gave nothing
    or something threw, [imageErrors] of its card is true, whatever
    happened to the other requests of its batch. *)
Theorem C8_processImageGenerationQueue (cfg : Config) (w : World) (fuel : nat)
  (s : StoryState) :
  1 <= CONCURRENT_REQUEST_LIMIT cfg ->
  (forall batch, Permutation (settleOrder w batch) batch) ->
  isProcessingQueue s = false ->
  (length (imageGenerationQueue s) <= fuel)%nat ->
  exists s',
    processImageGenerationQueue cfg w fuel s = Some s'
    /\ imageGenerationQueue s' = []
    /\ isProcessingQueue s' = false
    /\ forall r,
         r ∈ imageGenerationQueue s ->
         imageLoading s' !! request_cardId r = Some false
         /\ (forall u, service w r = Published u ->
               urlHeld w (imageGenerationQueue s) s' (request_cardId r)
               /\ (NoDup (List.map request_cardId (imageGenerationQueue s)) ->
                   imageUrls s' !! request_cardId r = Some u))
         /\ (failed w r -> imageErrors s' !! request_cardId r = Some true).
Proof.
  intros Hlimit Hperm Hidle Hfuel.
  unfold processImageGenerationQueue. rewrite Hidle. cbn [orb].
  destruct (imageGenerationQueue s) as [|r0 q0] eqn:Hq; cbn [length Nat.eqb].
  { exists s. rewrite Hq. repeat split; try done;
      intros; match goal with H : _ ∈ [] |- _ => by apply elem_of_nil in H end. }
  rewrite <- Hq in *.
  destruct (processLoop_facts cfg w Hlimit Hperm (imageGenerationQueue s) fuel
              (setIsProcessingQueue true s))
    as (s1 & Hrun & Hq1 & Hp1 & _ & Hpub & _ & Hf & Hl & _); [done..|].
  rewrite Hrun. exists (setIsProcessingQueue false s1).
  split; [done|]. split; [exact Hq1|]. split; [done|].
  intros r Hr. split; [by apply Hl|]. split; [|by apply Hf].
  intros u Hu. pose proof (Hpub r u Hr Hu) as Hheld.
  split; [exact Hheld|].
  intros Hnd. destruct Hheld as (r' & url' & Hr' & Hc & Hpub' & Hurl).
  assert (r' = r) as ->.
  { clear -Hnd Hr Hr' Hc. cbn in Hr, Hr'.
    induction (imageGenerationQueue s) as [|x l IH]; [by apply elem_of_nil in Hr|].
    cbn in Hnd. apply NoDup_cons in Hnd as [Hx Hnd].
    apply elem_of_cons in Hr as [->|Hr]; apply elem_of_cons in Hr' as [->|Hr'].
    - done.
    - exfalso. apply Hx. rewrite <- Hc. apply list_elem_of_In, in_map.
      by apply list_elem_of_In.
    - exfalso. apply Hx. rewrite Hc. apply list_elem_of_In, in_map.
      by apply list_elem_of_In.
    - by apply IH. }
  rewrite Hu in Hpub'. injection Hpub' as <-. exact Hurl.
Qed.

Lemma C8_processImageGenerationQueue_witness :
  exists s',
    processImageGenerationQueue Samples.cfg QueueSamples.world 5 QueueSamples.queued
      = Some s'
    /\ imageGenerationQueue s' = []
    /\ isProcessingQueue s' = false
    /\ imageUrls s' !! "a" = Some "blob:a"
    /\ imageErrors s' !! "b" = Some true
    /\ imageErrors s' !! "c" = Some true
    /\ imageLoading s' !! "c" = Some false.
Proof.
  destruct (C8_processImageGenerationQueue Samples.cfg QueueSamples.world 5
              QueueSamples.queued)
    as (s' & Hrun & Hq & Hp & Hall).
  - vm_compute. discriminate.
  - intros batch. cbn. symmetry. apply Permutation_rev.
  - vm_compute. reflexivity.
  - vm_compute. lia.
  - exists s'. split; [exact Hrun|]. split; [exact Hq|]. split; [exact Hp|].
    assert (Hqueue : imageGenerationQueue QueueSamples.queued
                     = List.map QueueSamples.request ["a"; "b"; "c"; "d"; "e"])
      by (vm_compute; reflexivity).
    rewrite Hqueue in Hall.
    destruct (Hall (QueueSamples.request "a")) as (_ & Ha & _).
    { apply list_elem_of_In. cbn. tauto. }
    destruct (Hall (QueueSamples.request "b")) as (_ & _ & Hb).
    { apply list_elem_of_In. cbn. tauto. }
    destruct (Hall (QueueSamples.request "c")) as (Hlc & _ & Hc).
    { apply list_elem_of_In. cbn. tauto. }
    split.
    { apply (Ha "blob:a"); [vm_compute; reflexivity|].
      apply (bool_decide_unpack _). vm_compute. exact I. }
    split; [apply Hb; left; vm_compute; reflexivity|].
    split; [apply Hc; right; vm_compute; reflexivity|exact Hlc].
Defined.

(** Five requests under a limit of two take three rounds: two do not
    suffice, three do. *)
Lemma five_requests_three_rounds :
  processImageGenerationQueue Samples.cfg QueueSamples.world 2 QueueSamples.queued
    = None
  /\ is_Some (processImageGenerationQueue Samples.cfg QueueSamples.world 3
                QueueSamples.queued)
  /\ List.map (fun r => length (imageGenerationQueue r))
       [ QueueSamples.queued;
         processBatch Samples.cfg QueueSamples.world QueueSamples.queued;
         processBatch Samples.cfg QueueSamples.world
           (processBatch Samples.cfg QueueSamples.world QueueSamples.queued);
         processBatch Samples.cfg QueueSamples.world
           (processBatch Samples.cfg QueueSamples.world
              (processBatch Samples.cfg QueueSamples.world QueueSamples.queued)) ]
     = [5; 3; 1; 0]%nat.
Proof.
  split; [vm_compute; reflexivity|].
  split; [|vm_compute; reflexivity].
  destruct (processImageGenerationQueue _ _ 3 _) eqn:H; [by eexists|].
  vm_compute in H. discriminate.
Qed.

End ImageQueueRun.

(* ===================================================================== *)
(** * Further properties of the entity store *)
(* ===================================================================== *)

Section QueueAdmission.
Import Types Story ImageQueue.

Lemma queued_notin (c : string) (q : list ImageGenerationRequest) :
  List.existsb (fun req => String.eqb (request_cardId req) c) q = false ->
  c ∉ List.map request_cardId q.
Proof.
  intros Hq Hin. apply list_elem_of_In, in_map_iff in Hin as (r & Hr & Hrin).
  assert (List.existsb (fun req => String.eqb (request_cardId req) c) q = true) as Ht.
  { apply existsb_exists. exists r. split; [done|]. by apply String.eqb_eq. }
  congruence.
Qed.

Lemma queue_unique_reducer (s : StoryState) (a : Action) :
  NoDup (List.map request_cardId (imageGenerationQueue s)) ->
  NoDup (List.map request_cardId (imageGenerationQueue (reducer s a))).
Proof.
  intros Hnd.
  destruct a as [data|cid b|oid|oid|objectId suspectId|r|n|b|c b|c u|urls|c b|b|o
                |amt|amt|l c|type r tc]; cbn [reducer]; try done.
  - unfold toggleSuspect.
    destruct (Adapter.entities (characters s) !! cid) as [ch|]; [|done].
    by destruct (String.eqb (role ch) "suspect").
  - unfold addToTimeline.
    destruct (Adapter.entities (objects s) !! oid) as [item|]; [|done].
    destruct (onTimeline oid s) eqn:Hon; [done|].
    unfold onTimeline in *.
    destruct (negb (JS.truthy_bool (hasBeenUnlocked item))); cbn; rewrite Hon; cbn;
      unfold locationOf; cbn;
      by destruct (match Adapter.entities (locations s) !! locationFoundId item with
                   | Some l => Some l | None => _ end).
  - unfold removeFromTimeline.
    destruct (Adapter.entities (objects s) !! oid) as [item|]; [|done].
    by destruct (isEvidence item).
  - unfold assignEvidenceToSuspect.
    by destruct (Adapter.entities (objects s) !! objectId).
  - unfold queueImageGeneration.
    destruct (List.existsb _ (imageGenerationQueue s)) eqn:Hq; cbn; [done|].
    destruct (negb (JS.truthy _) && negb (JS.truthy_bool _))%bool; cbn; [|done].
    rewrite List.map_app. cbn. apply NoDup_app. split; [done|]. split.
    + intros x Hx Hx'. apply list_elem_of_singleton in Hx'. subst x.
      by apply (queued_notin _ _ Hq).
    + apply NoDup_singleton.
  - cbn. rewrite <- (take_drop n (imageGenerationQueue s)), List.map_app in Hnd.
    by apply NoDup_app in Hnd as (_ & _ & Hnd).
  - unfold unlockEntity. destruct type; cbn; try done.
    + destruct (Adapter.entities (sublocations s) !! r) as [sl|]; [|done].
      by destruct (negb _).
    + destruct (Adapter.entities (objects s) !! r) as [o|]; [|done].
      by destruct (negb _).
    + destruct (Adapter.entities (events s) !! r) as [e|]; [|done].
      by destruct (negb _).
Qed.

(** X1. In every state of a session the image generation queue holds a
    card at most once: admission checks the queue, and nothing else adds
    to it. *)
Theorem queue_cardIds_unique (cfg : Config) (s : StoryState) :
  reachable cfg s -> NoDup (List.map request_cardId (imageGenerationQueue s)).
Proof.
  intros [actions ->]. unfold dispatchAll.
  assert (forall s0,
             NoDup (List.map request_cardId (imageGenerationQueue s0)) ->
             NoDup (List.map request_cardId
                      (imageGenerationQueue (List.fold_left reducer actions s0)))) as H.
  { induction actions as [|a actions IH]; intros s0 H0; cbn; [done|].
    by apply IH, queue_unique_reducer. }
  apply H. constructor.
Qed.

Lemma queue_cardIds_unique_witness :
  reachable Samples.cfg
    (queueImageGeneration (QueueSamples.request "a") QueueSamples.queued)
  /\ List.map request_cardId
       (imageGenerationQueue
          (queueImageGeneration (QueueSamples.request "a") QueueSamples.queued))
     = ["a"; "b"; "c"; "d"; "e"]
  /\ NoDup (List.map request_cardId
              (imageGenerationQueue
                 (queueImageGeneration (QueueSamples.request "a") QueueSamples.queued))).
Proof.
  assert (Hr : reachable Samples.cfg
                 (queueImageGeneration (QueueSamples.request "a") QueueSamples.queued)).
  { exists (List.map (fun c => QueueImageGeneration (QueueSamples.request c))
                     ["a"; "b"; "c"; "d"; "e"; "a"]).
    reflexivity. }
  split; [exact Hr|]. split; [vm_compute; reflexivity|].
  exact (queue_cardIds_unique Samples.cfg _ Hr).
Defined.

End QueueAdmission.

Section QueueRuns.
Import Types Story ImageQueue StoryViews.

Lemma withoutImages_batch (cfg : Config) (w : World) (s : StoryState) :
  withoutImages (processBatch cfg w s) = withoutImages s.
Proof.
  unfold processBatch.
  set (batch := slice0 (CONCURRENT_REQUEST_LIMIT cfg) (imageGenerationQueue s)).
  assert (Hstart : forall l s0,
             withoutImages (List.fold_left startRequest l s0) = withoutImages s0).
  { induction l as [|r l IH]; intros s0; cbn [List.fold_left]; [done|].
    rewrite IH. by destruct s0. }
  assert (Hsettle : forall l s0,
             withoutImages (List.fold_left (settleRequest w) l s0) = withoutImages s0).
  { induction l as [|r l IH]; intros s0; cbn [List.fold_left]; [done|].
    rewrite IH. unfold settleRequest. destruct (service w r); by destruct s0. }
  rewrite Hsettle, Hstart. by destruct s.
Qed.

Lemma withoutImages_loop (cfg : Config) (w : World) (fuel : nat) :
  forall s s', processLoop cfg w fuel s = Some s' -> withoutImages s' = withoutImages s.
Proof.
  induction fuel as [|fuel IH]; intros s s'; cbn [processLoop];
    destruct (imageGenerationQueue s) eqn:Hq; try discriminate.
  - by intros [= <-].
  - by intros [= <-].
  - intros Hrun. rewrite (IH _ _ Hrun). apply withoutImages_batch.
Qed.

(** X2. A run of the queue processor changes nothing but the image URLs,
    the loading and error flags, the queue and [isProcessingQueue]: the
    entities, the timeline, the time spent and all else are as before. *)
Theorem processImageGenerationQueue_frame (cfg : Config) (w : World) (fuel : nat)
  (s s' : StoryState) :
  processImageGenerationQueue cfg w fuel s = Some s' ->
  withoutImages s' = withoutImages s
  /\ objects s' = objects s
  /\ evidence s' = evidence s
  /\ timeSpent s' = timeSpent s.
Proof.
  intros Hrun.
  assert (withoutImages s' = withoutImages s) as Hframe.
  { unfold processImageGenerationQueue in Hrun.
    destruct (isProcessingQueue s || _)%bool; [by injection Hrun as <-|].
    destruct (processLoop _ _ _ _) as [s1|] eqn:Hloop; [|discriminate].
    injection Hrun as <-. apply withoutImages_loop in Hloop.
    transitivity (withoutImages s1); [by destruct s1|].
    rewrite Hloop. by destruct s. }
  split; [exact Hframe|].
  split; [exact (f_equal objects Hframe)|].
  split; [exact (f_equal evidence Hframe)|exact (f_equal timeSpent Hframe)].
Qed.

Lemma processImageGenerationQueue_frame_witness :
  exists s',
    processImageGenerationQueue Samples.cfg QueueSamples.world 3 QueueSamples.queued
      = Some s'
    /\ withoutImages s' = withoutImages QueueSamples.queued
    /\ timeSpent s' = 0.
Proof.
  destruct (processImageGenerationQueue Samples.cfg QueueSamples.world 3
              QueueSamples.queued) as [s'|] eqn:Hrun.
  - exists s'. split; [reflexivity|].
    destruct (processImageGenerationQueue_frame _ _ _ _ _ Hrun) as (H & _ & _ & Ht).
    split; [exact H|]. rewrite Ht. reflexivity.
  - vm_compute in Hrun. discriminate.
Defined.

Lemma processBatch_queue (cfg : Config) (w : World) (s : StoryState) :
  imageGenerationQueue (processBatch cfg w s)
  = drop (length (slice0 (CONCURRENT_REQUEST_LIMIT cfg) (imageGenerationQueue s)))
         (imageGenerationQueue s).
Proof.
  unfold processBatch.
  set (batch := slice0 (CONCURRENT_REQUEST_LIMIT cfg) (imageGenerationQueue s)).
  destruct (settleRequest_fold w (settleOrder w batch) (settleOrder w batch)
              (List.fold_left startRequest batch (dequeueImageRequests (length batch) s)))
    as (Hq & _); [done|].
  cbn zeta in Hq. rewrite Hq.
  destruct (startRequest_fold batch (dequeueImageRequests (length batch) s))
    as (_ & _ & Hq' & _).
  cbn zeta in Hq'. by rewrite Hq'.
Qed.

Lemma processLoop_stuck (cfg : Config) (w : World) (fuel : nat) :
  CONCURRENT_REQUEST_LIMIT cfg <= 0 ->
  forall s, imageGenerationQueue s <> [] -> processLoop cfg w fuel s = None.
Proof.
  intros Hlimit. induction fuel as [|fuel IH]; intros s Hq; cbn [processLoop];
    destruct (imageGenerationQueue s) as [|r q] eqn:Hqueue; try done.
  apply IH. rewrite processBatch_queue, Hqueue. unfold slice0.
  destruct (CONCURRENT_REQUEST_LIMIT cfg <? 0) eqn:Hneg.
  - rewrite length_take. intros Hnil.
    apply (f_equal length) in Hnil. rewrite length_drop in Hnil. cbn in Hnil. lia.
  - assert (Z.to_nat (CONCURRENT_REQUEST_LIMIT cfg) = 0%nat) as -> by lia.
    cbn. done.
Qed.

(** X3. With a concurrency limit of zero or less the processor never comes
    to its end on a queue that is not empty: every round takes an empty
    batch (or, with a negative limit, leaves the last requests), so the
    queue never empties, whatever the number of rounds. *)
Theorem processImageGenerationQueue_never_ends (cfg : Config) (w : World)
  (s : StoryState) :
  CONCURRENT_REQUEST_LIMIT cfg <= 0 ->
  isProcessingQueue s = false ->
  imageGenerationQueue s <> [] ->
  forall fuel, processImageGenerationQueue cfg w fuel s = None.
Proof.
  intros Hlimit Hidle Hq fuel. unfold processImageGenerationQueue. rewrite Hidle.
  destruct (imageGenerationQueue s) as [|r q] eqn:Hqueue; [done|]. cbn.
  rewrite (processLoop_stuck cfg w fuel Hlimit); [done|].
  cbn. by rewrite Hqueue.
Qed.

Lemma processImageGenerationQueue_never_ends_witness :
  processImageGenerationQueue
    {| INITIAL_PLAYER_TIME_SPENT := 0; MILESTONE_THRESHOLD := 5;
       ACCUSATION_THRESHOLD := 10; CONCURRENT_REQUEST_LIMIT := 0 |}
    QueueSamples.world 1000 QueueSamples.queued = None.
Proof.
  apply processImageGenerationQueue_never_ends.
  - cbn. lia.
  - vm_compute. reflexivity.
  - vm_compute. discriminate.
Defined.

Lemma slice0_elem {A : Type} (limit : Z) (l : list A) (x : A) :
  x ∈ slice0 limit l -> x ∈ l.
Proof.
  unfold slice0. destruct (limit <? 0); intros Hx.
  - rewrite <- (take_drop (length l - Z.to_nat (- limit)) l). apply elem_of_app. by left.
  - rewrite <- (take_drop (Z.to_nat limit) l). apply elem_of_app. by left.
Qed.

(** The URL of a card stays as it is through the rounds unless a request
    for that card is published. *)
Lemma processLoop_urls_kept (cfg : Config) (w : World) (c : string) (fuel : nat) :
  (forall batch, Permutation (settleOrder w batch) batch) ->
  forall s s',
    (forall r u, r ∈ imageGenerationQueue s -> service w r = Published u ->
                 request_cardId r <> c) ->
    processLoop cfg w fuel s = Some s' ->
    imageUrls s' !! c = imageUrls s !! c.
Proof.
  intros Hperm.
  assert (Hsettle : forall l s0,
             (forall r u, r ∈ l -> service w r = Published u -> request_cardId r <> c) ->
             imageUrls (List.fold_left (settleRequest w) l s0) !! c = imageUrls s0 !! c).
  { induction l as [|r l IH]; intros s0 Hl; cbn [List.fold_left]; [done|].
    rewrite IH by (intros x u Hx; apply Hl; by right).
    unfold settleRequest. destruct (service w r) as [u| |] eqn:Hsv; cbn; try done.
    apply lookup_insert_ne. apply (Hl r u); [by left|done]. }
  induction fuel as [|fuel IH]; intros s s' Hsafe; cbn [processLoop];
    destruct (imageGenerationQueue s) as [|r0 q0] eqn:Hq; try discriminate.
  - by intros [= <-].
  - by intros [= <-].
  - intros Hrun. rewrite <- Hq in *.
    assert (Hsub : forall r, r ∈ imageGenerationQueue (processBatch cfg w s) ->
                             r ∈ imageGenerationQueue s).
    { intros r. rewrite processBatch_queue. intros Hr.
      rewrite <- (take_drop
                    (length (slice0 (CONCURRENT_REQUEST_LIMIT cfg) (imageGenerationQueue s)))
                    (imageGenerationQueue s)).
      apply elem_of_app. by right. }
    rewrite (IH _ _ (fun r u Hr => Hsafe r u (Hsub r Hr)) Hrun).
    unfold processBatch.
    set (batch := slice0 (CONCURRENT_REQUEST_LIMIT cfg) (imageGenerationQueue s)).
    rewrite Hsettle.
    + destruct (startRequest_fold batch (dequeueImageRequests (length batch) s))
        as (Hu & _).
      cbn zeta in Hu. by rewrite Hu.
    + intros r u Hr. apply Hsafe. apply (slice0_elem (CONCURRENT_REQUEST_LIMIT cfg)).
      fold batch. by rewrite <- (Hperm batch).
Qed.

(** X4. After a run (limit at least one, every request settling, URLs not
    empty): a card whose request was published is never admitted to the
    queue again, so its image is not generated twice; a card whose request
    failed, that had no image and no published request, is admitted again,
    so a failed image can be retried. *)
Theorem admission_after_run (cfg : Config) (w : World) (fuel : nat) (s : StoryState) :
  1 <= CONCURRENT_REQUEST_LIMIT cfg ->
  (forall batch, Permutation (settleOrder w batch) batch) ->
  (forall r u, service w r = Published u -> u <> "") ->
  isProcessingQueue s = false ->
  (length (imageGenerationQueue s) <= fuel)%nat ->
  exists s',
    processImageGenerationQueue cfg w fuel s = Some s'
    /\ forall r,
         r ∈ imageGenerationQueue s ->
         (forall u again,
            service w r = Published u ->
            request_cardId again = request_cardId r ->
            queueImageGeneration again s' = s')
         /\ (failed w r ->
             JS.truthy (imageUrls s !! request_cardId r) = false ->
             (forall r', r' ∈ imageGenerationQueue s ->
                         request_cardId r' = request_cardId r -> failed w r') ->
             imageGenerationQueue (queueImageGeneration r s') = [r]).
Proof.
  intros Hlimit Hperm Hurls Hidle Hfuel.
  unfold processImageGenerationQueue. rewrite Hidle. cbn [orb].
  destruct (imageGenerationQueue s) as [|r0 q0] eqn:Hq; cbn [length Nat.eqb].
  { exists s. split; [done|]. intros r Hr. by apply elem_of_nil in Hr. }
  rewrite <- Hq in *.
  destruct (processLoop_facts cfg w Hlimit Hperm (imageGenerationQueue s) fuel
              (setIsProcessingQueue true s))
    as (s1 & Hrun & Hq1 & Hp1 & _ & Hpub & _ & Hf & Hl & _); [done..|].
  rewrite Hrun. exists (setIsProcessingQueue false s1). split; [done|].
  intros r Hr. split.
  - intros u again Hu Hsame.
    destruct (Hpub r u Hr Hu) as (r' & url' & _ & _ & Hpub' & Hurl).
    unfold queueImageGeneration. cbn. rewrite Hsame, Hurl. cbn.
    assert (JS.truthy_string url' = true) as ->.
    { unfold JS.truthy_string. apply negb_true_iff, String.eqb_neq.
      by apply (Hurls r'). }
    cbn. by rewrite andb_false_r.
  - intros Hfail Hnone Hall.
    assert (imageUrls s1 !! request_cardId r = imageUrls s !! request_cardId r) as Hkept.
    { apply (processLoop_urls_kept cfg w (request_cardId r) fuel Hperm
               (setIsProcessingQueue true s) s1); [|exact Hrun].
      intros x u Hx Hxu Hc. destruct (Hall x Hx Hc) as [Hn|Hn]; congruence. }
    unfold queueImageGeneration. cbn. rewrite Hq1, Hkept, Hnone, (Hl r Hr). cbn.
    reflexivity.
Qed.

Lemma admission_after_run_witness :
  exists s',
    processImageGenerationQueue Samples.cfg QueueSamples.world 5 QueueSamples.queued
      = Some s'
    /\ queueImageGeneration (QueueSamples.request "a") s' = s'
    /\ imageGenerationQueue (queueImageGeneration (QueueSamples.request "b") s')
       = [QueueSamples.request "b"].
Proof.
  destruct (admission_after_run Samples.cfg QueueSamples.world 5 QueueSamples.queued)
    as (s' & Hrun & Hall).
  - vm_compute. discriminate.
  - intros batch. cbn. symmetry. apply Permutation_rev.
  - intros r u. cbn.
    destruct (String.eqb (request_cardId r) "b"); [discriminate|].
    destruct (String.eqb (request_cardId r) "c"); [discriminate|].
    intros [= <-]. discriminate.
  - vm_compute. reflexivity.
  - vm_compute. lia.
  - exists s'. split; [exact Hrun|].
    assert (Hqueue : imageGenerationQueue QueueSamples.queued
                     = List.map QueueSamples.request ["a"; "b"; "c"; "d"; "e"])
      by (vm_compute; reflexivity).
    rewrite Hqueue in Hall.
    destruct (Hall (QueueSamples.request "a")) as (Ha & _).
    { apply list_elem_of_In. cbn. tauto. }
    destruct (Hall (QueueSamples.request "b")) as (_ & Hb).
    { apply list_elem_of_In. cbn. tauto. }
    split.
    + apply (Ha "blob:a"); vm_compute; reflexivity.
    + apply Hb.
      * left. vm_compute. reflexivity.
      * vm_compute. reflexivity.
      * intros r' Hr' Hc. apply list_elem_of_In in Hr'. cbn in Hr'.
        destruct Hr' as [<-|[<-|[<-|[<-|[<-|[]]]]]]; try discriminate.
        left. vm_compute. reflexivity.
Defined.

End QueueRuns.

Section SuspectAssignment.
Import Types Story.

Lemma existsb_eqb_elem (x : string) (l : list string) :
  List.existsb (String.eqb x) l = true <-> x ∈ l.
Proof.
  rewrite existsb_exists. split.
  - intros (y & Hy & Hxy). apply String.eqb_eq in Hxy. subst y.
    by apply list_elem_of_In.
  - intros Hx. exists x. split; [by apply list_elem_of_In|apply String.eqb_refl].
Qed.

(** X5. [assignEvidenceToSuspect] is a toggle on an object that exists:
    the suspect is among the object's [assignedToSuspectIds] afterwards iff
    it was not before, every other suspect is as before, and neither the
    timeline nor the time spent changes; on an object that does not exist
    it does nothing. *)
Theorem assignEvidenceToSuspect_toggles (objectId suspectId : string) (s : StoryState) :
  let s' := assignEvidenceToSuspect objectId suspectId s in
  (forall o,
     Adapter.entities (objects s) !! objectId = Some o ->
     exists o',
       Adapter.entities (objects s') !! objectId = Some o'
       /\ (suspectId ∈ assignedToSuspectIds o' <-> suspectId ∉ assignedToSuspectIds o)
       /\ (forall other, other <> suspectId ->
             other ∈ assignedToSuspectIds o' <-> other ∈ assignedToSuspectIds o)
       /\ with_assignedToSuspectIds (assignedToSuspectIds o) o' = o
       /\ evidence s' = evidence s
       /\ timeSpent s' = timeSpent s)
  /\ (Adapter.entities (objects s) !! objectId = None -> s' = s).
Proof.
  cbn zeta. unfold assignEvidenceToSuspect. split.
  - intros o Ho. rewrite Ho. cbn. rewrite lookup_alter_eq, Ho. cbn.
    eexists. split; [reflexivity|]. cbn.
    destruct (List.existsb (String.eqb suspectId) (assignedToSuspectIds o)) eqn:Hin.
    + apply existsb_eqb_elem in Hin.
      split; [|split; [|split; [by destruct o|done]]].
      * split; [|done]. intros Hx. apply list_elem_of_In, filter_In in Hx as [_ Hx].
        by rewrite String.eqb_refl in Hx.
      * intros other Hne. rewrite !list_elem_of_In, filter_In.
        split; [tauto|]. intros Ho'. split; [done|].
        by apply negb_true_iff, String.eqb_neq.
    + assert (suspectId ∉ assignedToSuspectIds o) as Hnotin.
      { intros Hx. apply existsb_eqb_elem in Hx. congruence. }
      split; [|split; [|split; [by destruct o|done]]].
      * split; [done|]. intros _. apply elem_of_app. right. by apply list_elem_of_singleton.
      * intros other Hne. rewrite elem_of_app, list_elem_of_singleton. tauto.
  - by intros ->.
Qed.

Lemma assignEvidenceToSuspect_toggles_witness :
  (exists o',
     Adapter.entities (objects (assignEvidenceToSuspect "o1" "c2" Samples.loaded))
       !! "o1" = Some o'
     /\ "c2" ∈ assignedToSuspectIds o')
  /\ assignEvidenceToSuspect "nothing" "c2" Samples.loaded = Samples.loaded.
Proof.
  destruct (assignEvidenceToSuspect_toggles "o1" "c2" Samples.loaded) as [Hin _].
  destruct (assignEvidenceToSuspect_toggles "nothing" "c2" Samples.loaded) as [_ Hout].
  cbn zeta in *. split.
  - destruct (Hin Samples.o1) as (o' & Ho' & Hiff & _); [vm_compute; reflexivity|].
    exists o'. split; [exact Ho'|]. apply Hiff. cbn. apply not_elem_of_nil.
  - apply Hout. vm_compute. reflexivity.
Defined.

End SuspectAssignment.

Section Hydration.
Import Types Story StoryViews.

Lemma find_app_first {A : Type} (f : A -> bool) (l1 l2 : list A) :
  List.find f (l1 ++ l2)
  = match List.find f l1 with
    | Some x => Some x
    | None => List.find f l2
    end.
Proof.
  induction l1 as [|x l1 IH]; cbn; [done|]. by destruct (f x).
Qed.

Lemma hydrationUrls_fold (createObjectURL : string -> string)
  (existing : gmap string string) (cached : list CachedImage) :
  forall (acc : gmap string string) (c : string),
    List.fold_left
      (fun urls item =>
         if JS.truthy (existing !! cached_id item) then urls
         else <[cached_id item := createObjectURL (blob item)]> urls)
      cached acc !! c
    = match List.find (fun item => String.eqb (cached_id item) c) (rev cached) with
      | Some item =>
          if JS.truthy (existing !! c) then acc !! c
          else Some (createObjectURL (blob item))
      | None => acc !! c
      end.
Proof.
  induction cached as [|item cached IH]; intros acc c; cbn [List.fold_left rev]; [done|].
  rewrite IH, find_app_first.
  destruct (List.find _ (rev cached)) as [later|] eqn:Hlater.
  - destruct (JS.truthy (existing !! c)) eqn:Hc; [|done].
    destruct (JS.truthy (existing !! cached_id item)) eqn:Hi; [done|].
    rewrite lookup_insert_ne; [done|]. intros Heq. rewrite Heq in Hi. congruence.
  - cbn. destruct (String.eqb (cached_id item) c) eqn:Heq.
    + apply String.eqb_eq in Heq. subst c.
      destruct (JS.truthy (existing !! cached_id item)); [done|].
      by rewrite lookup_insert_eq.
    + apply String.eqb_neq in Heq.
      destruct (JS.truthy (existing !! cached_id item)); [done|].
      by rewrite lookup_insert_ne.
Qed.

(** The URLs the thunk publishes: for a card without a URL in the store,
    the object URL of its last cached image. *)
Lemma hydrationUrls_lookup (createObjectURL : string -> string)
  (existing : gmap string string) (cached : list CachedImage) (c : string) :
  hydrationUrls createObjectURL existing cached !! c
  = match List.find (fun item => String.eqb (cached_id item) c) (rev cached) with
    | Some item =>
        if JS.truthy (existing !! c) then None else Some (createObjectURL (blob item))
    | None => None
    end.
Proof.
  unfold hydrationUrls. rewrite hydrationUrls_fold, lookup_empty.
  by destruct (List.find _ _).
Qed.

Lemma hydrate_urls (createObjectURL : string -> string) (cached : list CachedImage)
  (s : StoryState) (c : string) :
  imageUrls (dispatchAll (hydrateImageCache createObjectURL (Some cached) s) s) !! c
  = match hydrationUrls createObjectURL (imageUrls s) cached !! c with
    | Some u => Some u
    | None => imageUrls s !! c
    end.
Proof.
  unfold hydrateImageCache.
  set (urls := hydrationUrls createObjectURL (imageUrls s) cached).
  destruct (Nat.ltb 0 (size urls)) eqn:Hsize; cbn.
  - rewrite lookup_union. destruct (urls !! c), (imageUrls s !! c); done.
  - assert (urls = ∅) as ->.
    { apply map_size_empty_iff. apply Nat.ltb_ge in Hsize. lia. }
    by rewrite lookup_empty.
Qed.

(** X6. Hydration from the image cache never replaces a URL, other than
    the empty one, that the store already holds; gives every cached card
    that had none the object URL of its cached image, and that of the last
    entry of the cache when the card is cached more than once; leaves the
    URLs of the cards that are not cached alone; changes nothing but
    [imageUrls]; changes nothing at all when reading the cache failed; and,
    object URLs being non-empty, hydrating again from the same cache
    changes nothing. *)
Theorem hydrateImageCache_idempotent (createObjectURL : string -> string)
  (cached : list CachedImage) (s : StoryState) :
  (forall b, createObjectURL b <> "") ->
  let hydrate := fun st => dispatchAll (hydrateImageCache createObjectURL (Some cached) st) st in
  (forall c u, imageUrls s !! c = Some u -> u <> "" -> imageUrls (hydrate s) !! c = Some u)
  /\ (forall before item after,
        cached = before ++ item :: after ->
        (forall later, later ∈ after -> cached_id later <> cached_id item) ->
        JS.truthy (imageUrls s !! cached_id item) = false ->
        imageUrls (hydrate s) !! cached_id item = Some (createObjectURL (blob item)))
  /\ (forall c, (forall item, item ∈ cached -> cached_id item <> c) ->
                imageUrls (hydrate s) !! c = imageUrls s !! c)
  /\ set_imageUrls (imageUrls s) (hydrate s) = s
  /\ dispatchAll (hydrateImageCache createObjectURL None s) s = s
  /\ hydrate (hydrate s) = hydrate s.
Proof.
  intros Hurl hydrate.
  assert (Hlook : forall st c,
             imageUrls (hydrate st) !! c
             = match hydrationUrls createObjectURL (imageUrls st) cached !! c with
               | Some u => Some u
               | None => imageUrls st !! c
               end).
  { intros st c. apply hydrate_urls. }
  assert (Hframe : forall st, set_imageUrls (imageUrls st) (hydrate st) = st).
  { intros st. unfold hydrate, hydrateImageCache.
    destruct (Nat.ltb 0 _); by destruct st. }
  assert (Hkeep : forall st c u,
             imageUrls st !! c = Some u -> u <> "" -> imageUrls (hydrate st) !! c = Some u).
  { intros st c u Hc Hu. rewrite Hlook, hydrationUrls_lookup, Hc. cbn.
    assert (JS.truthy_string u = true) as ->.
    { unfold JS.truthy_string. by apply negb_true_iff, String.eqb_neq. }
    by destruct (List.find _ _). }
  split; [apply Hkeep|].
  split.
  { intros before item after Hcached Hlast Hnone.
    rewrite Hlook, hydrationUrls_lookup, Hnone, Hcached.
    rewrite rev_app_distr. cbn [rev]. rewrite <- app_assoc, find_app_first.
    destruct (List.find _ (rev after)) as [later|] eqn:Hfind.
    - apply find_some in Hfind as [Hin Heq]. apply String.eqb_eq in Heq.
      exfalso. apply (Hlast later); [|done]. apply list_elem_of_In. by apply in_rev.
    - cbn. by rewrite String.eqb_refl. }
  split.
  { intros c Hc. rewrite Hlook, hydrationUrls_lookup.
    destruct (List.find _ (rev cached)) as [item|] eqn:Hfind; [|done].
    apply find_some in Hfind as [Hin Heq]. apply String.eqb_eq in Heq.
    exfalso. apply (Hc item); [|done]. apply list_elem_of_In. by apply in_rev. }
  split; [apply Hframe|].
  split; [reflexivity|].
  (* the second hydration finds every cached card with a URL *)
  assert (hydrationUrls createObjectURL (imageUrls (hydrate s)) cached = ∅) as Hnone.
  { apply map_eq. intros c. rewrite lookup_empty, hydrationUrls_lookup.
    destruct (List.find _ (rev cached)) as [item|] eqn:Hfind; [|done].
    assert (JS.truthy (imageUrls (hydrate s) !! c) = true) as ->; [|done].
    rewrite Hlook, hydrationUrls_lookup, Hfind.
    destruct (JS.truthy (imageUrls s !! c)) eqn:Hc; [done|].
    cbn. unfold JS.truthy_string. apply negb_true_iff, String.eqb_neq, Hurl. }
  unfold hydrate at 1. unfold hydrateImageCache. rewrite Hnone. reflexivity.
Qed.

Lemma hydrateImageCache_idempotent_witness :
  let hydrate := fun st =>
    dispatchAll (hydrateImageCache sampleObjectURL (Some sampleCache) st) st in
  imageUrls (hydrate sampleWithUrl) !! "a" = Some "blob:old"
  /\ imageUrls (hydrate sampleWithUrl) !! "z" = Some "blob:z2"
  /\ hydrate (hydrate sampleWithUrl) = hydrate sampleWithUrl.
Proof.
  cbn zeta.
  destruct (hydrateImageCache_idempotent sampleObjectURL sampleCache sampleWithUrl)
    as (Hkeep & Hlast & _ & _ & _ & Hidem).
  { intros b. unfold sampleObjectURL. discriminate. }
  cbn zeta in *. split; [|split; [|exact Hidem]].
  - apply Hkeep; [vm_compute; reflexivity|discriminate].
  - apply (Hlast [ {| cached_id := "a"; blob := "a1" |};
                   {| cached_id := "z"; blob := "z1" |} ]
                 {| cached_id := "z"; blob := "z2" |} []).
    + reflexivity.
    + intros later Hlater. by apply elem_of_nil in Hlater.
    + vm_compute. reflexivity.
Defined.

End Hydration.

Section CartridgeLoad.
Import Types Story.

Lemma find_role_elem (r : string) (cs : list Character) (c : Character) :
  List.find (fun x => String.eqb (role x) r) cs = Some c -> c ∈ cs /\ role c = r.
Proof.
  intros H. apply find_some in H as [Hin Heq].
  split; [by apply list_elem_of_In|by apply String.eqb_eq].
Qed.

(** X7. The timeline of a freshly loaded cartridge: it has an entry iff the
    cartridge has a character of role victim and at least one location;
    then it is the single entry [ev-initial-crime], of card type character,
    for the first victim, located at the crime scene when [crimeSceneId]
    names a location and at the first location otherwise.  The count of
    discoverable evidence is at least one. *)
Theorem loadStoryCartridge_initialEvidence (data : StoryData) :
  let initial := initialEvidence (loadStoryCartridge data) in
  (initial <> []
   <-> (exists c, c ∈ sd_characters data /\ role c = "victim")
       /\ sd_locations data <> [])
  /\ (forall e,
        e ∈ initial ->
        initial = [e]
        /\ ev_id e = "ev-initial-crime"
        /\ cardType e = CardCharacter
        /\ (exists v, List.find (fun c => String.eqb (role c) "victim")
                                (sd_characters data) = Some v
                      /\ cardId e = char_id v)
        /\ (exists l, l ∈ sd_locations data /\ locationId e = loc_id l)
        /\ ((exists l, l ∈ sd_locations data
                       /\ loc_id l = crimeSceneId (sd_storyInfo data))
            -> crimeSceneId (sd_storyInfo data) <> ""
            -> locationId e = crimeSceneId (sd_storyInfo data))
        /\ (~ (exists l, l ∈ sd_locations data
                         /\ loc_id l = crimeSceneId (sd_storyInfo data))
            -> exists l, head (sd_locations data) = Some l /\ locationId e = loc_id l))
  /\ 1 <= payload_totalDiscoverableEvidence (loadStoryCartridge data).
Proof.
  cbn zeta. unfold loadStoryCartridge. cbn [initialEvidence payload_totalDiscoverableEvidence].
  set (victim := List.find (fun c => String.eqb (role c) "victim") (sd_characters data)).
  set (scene := if JS.truthy_string (crimeSceneId (sd_storyInfo data))
                then List.find (fun l => String.eqb (loc_id l)
                                           (crimeSceneId (sd_storyInfo data)))
                               (sd_locations data)
                else None).
  assert (Hscene : forall l, scene = Some l ->
                     l ∈ sd_locations data /\ loc_id l = crimeSceneId (sd_storyInfo data)).
  { intros l. unfold scene. destruct (JS.truthy_string _); [|discriminate].
    intros H. apply find_some in H as [Hin Heq].
    split; [by apply list_elem_of_In|by apply String.eqb_eq]. }
  assert (Hnoscene : scene = None ->
            crimeSceneId (sd_storyInfo data) = ""
            \/ ~ (exists l, l ∈ sd_locations data
                            /\ loc_id l = crimeSceneId (sd_storyInfo data))).
  { unfold scene, JS.truthy_string.
    destruct (String.eqb (crimeSceneId (sd_storyInfo data)) "") eqn:He; cbn.
    - intros _. left. by apply String.eqb_eq.
    - intros Hnone. right. intros (l & Hl & Hid).
      pose proof (find_none _ _ Hnone l) as Hno. cbn in Hno.
      rewrite Hid, String.eqb_refl in Hno. discriminate Hno. by apply list_elem_of_In. }
  split; [|split].
  - split.
    + destruct victim as [v|] eqn:Hv; [|done].
      apply find_role_elem in Hv as [Hvin Hvrole].
      intros Hne. split; [by exists v|]. intros Hnil. apply Hne.
      destruct scene as [l|] eqn:Hs.
      * destruct (Hscene l eq_refl) as [Hl _]. rewrite Hnil in Hl.
        by apply elem_of_nil in Hl.
      * by rewrite Hnil.
    + intros [(c & Hc & Hrole) Hlocs].
      destruct victim as [v|] eqn:Hv.
      * destruct scene; [done|]. by destruct (sd_locations data).
      * exfalso. pose proof (find_none _ _ Hv c) as Hno. cbn in Hno.
        rewrite Hrole in Hno. discriminate Hno. by apply list_elem_of_In.
  - intros e He. destruct victim as [v|] eqn:Hv; [|by apply elem_of_nil in He].
    destruct scene as [l|] eqn:Hs.
    + apply list_elem_of_singleton in He. subst e. cbn.
      destruct (Hscene l eq_refl) as [Hl Hid].
      repeat split; try done.
      * by exists v.
      * by exists l.
      * intros Hno. exfalso. apply Hno. by exists l.
    + destruct (sd_locations data) as [|l0 rest] eqn:Hlocs; cbn in He;
        [by apply elem_of_nil in He|].
      apply list_elem_of_singleton in He. subst e. cbn.
      repeat split; try done.
      * by exists v.
      * exists l0. split; [by left|done].
      * intros Hex Hne. destruct (Hnoscene eq_refl) as [H|H]; [done|].
        exfalso. by apply H.
      * intros _. by exists l0.
  - lia.
Qed.

Lemma loadStoryCartridge_initialEvidence_witness :
  initialEvidence (loadStoryCartridge (Samples.data [Samples.loc1])) <> []
  /\ List.map locationId (initialEvidence (loadStoryCartridge (Samples.data [Samples.loc1])))
     = ["loc1"].
Proof.
  destruct (loadStoryCartridge_initialEvidence (Samples.data [Samples.loc1]))
    as (Hiff & _ & _).
  cbn zeta in *. split; [|vm_compute; reflexivity].
  apply Hiff. split; [|discriminate].
  exists Samples.victim. split; [|reflexivity]. cbn. by left.
Defined.

End CartridgeLoad.

Section AdapterLookup.
Context {T : Type}.

Lemma addMany_lookup (selectId : T -> string) (es : list T) :
  forall (st : Adapter.EntityState T) (k : string),
    Adapter.entities (Adapter.addMany selectId st es) !! k
    = match Adapter.entities st !! k with
      | Some e => Some e
      | None => List.find (fun e => String.eqb (selectId e) k) es
      end.
Proof.
  unfold Adapter.addMany.
  induction es as [|e es IH]; intros st k; cbn [List.fold_left List.find].
  - by destruct (Adapter.entities st !! k).
  - rewrite IH. unfold Adapter.addOne.
    destruct (Adapter.entities st !! selectId e) as [old|] eqn:Hold.
    + destruct (Adapter.entities st !! k) as [x|] eqn:Hk; [done|].
      destruct (String.eqb (selectId e) k) eqn:Heq; [|done].
      apply String.eqb_eq in Heq. congruence.
    + cbn. rewrite lookup_insert. case_decide as Hd.
      * subst k. by rewrite Hold, String.eqb_refl.
      * destruct (Adapter.entities st !! k); [done|].
        apply String.eqb_neq in Hd. by rewrite Hd.
Qed.

(** A table set from a list answers a lookup with the first entity of the
    list that has the id. *)
Lemma setAll_lookup (selectId : T -> string) (st : Adapter.EntityState T)
  (es : list T) (k : string) :
  Adapter.entities (Adapter.setAll selectId st es) !! k
  = List.find (fun e => String.eqb (selectId e) k) es.
Proof.
  unfold Adapter.setAll. rewrite addMany_lookup. cbn. by rewrite lookup_empty.
Qed.

(** Over a well-formed table [selectAll] and the dictionary agree. *)
Lemma find_selectAll (selectId : T -> string) (st : Adapter.EntityState T) (k : string) :
  Adapter.wf selectId st ->
  List.find (fun e => String.eqb (selectId e) k) (Adapter.selectAll st)
  = Adapter.entities st !! k.
Proof.
  intros (Hnd & Hdom & Hkeyed). unfold Adapter.selectAll.
  assert (Hgen : forall l,
             (forall j, j ∈ l -> is_Some (Adapter.entities st !! j)) ->
             List.find (fun e => String.eqb (selectId e) k)
                       (omap (fun j => Adapter.entities st !! j) l)
             = if bool_decide (k ∈ l) then Adapter.entities st !! k else None).
  { induction l as [|j l IH]; intros Hl; [done|].
    destruct (Hl j) as [e He]; [by left|].
    cbn. rewrite He. cbn. rewrite (Hkeyed j e He).
    destruct (String.eqb j k) eqn:Hjk.
    - apply String.eqb_eq in Hjk. subst j.
      rewrite bool_decide_eq_true_2 by by left. done.
    - apply String.eqb_neq in Hjk. rewrite IH by (intros x Hx; apply Hl; by right).
      destruct (bool_decide (k ∈ l)) eqn:Hin.
      + apply bool_decide_eq_true in Hin.
        rewrite bool_decide_eq_true_2 by by right. done.
      + apply bool_decide_eq_false in Hin.
        rewrite bool_decide_eq_false_2; [done|].
        intros Hx. apply elem_of_cons in Hx as [->|Hx]; done. }
  rewrite Hgen by (intros j Hj; by apply Hdom).
  destruct (bool_decide (k ∈ Adapter.ids st)) eqn:Hin; [done|].
  apply bool_decide_eq_false in Hin.
  destruct (Adapter.entities st !! k) eqn:Hk; [|done].
  exfalso. apply Hin, Hdom. by eexists.
Qed.

End AdapterLookup.

Section CartridgeIntoStore.
Import Types Story.

(** X8. A cartridge load replaces the seven collections, an id naming the
    first entity of the cartridge that carries it (a later one with the
    same id is dropped); it replaces the title, the story info, the
    testimonies and the timeline, the timeline by the initial evidence;
    and it keeps the time spent, the image URLs, the loading and error
    flags of the images, the image queue and its processing flag, the
    thresholds, the paint flag and the hotspot coordinates: a load is not
    a reset of the session. *)
Theorem load_replaces_collections (data : StoryData) (s : StoryState) :
  let s' := reducer s (LoadStoryCartridgeFulfilled data) in
  (forall k, Adapter.entities (objects s') !! k
             = List.find (fun o => String.eqb (id o) k) (sd_objects data))
  /\ (forall k, Adapter.entities (characters s') !! k
                = List.find (fun c => String.eqb (char_id c) k) (sd_characters data))
  /\ (forall k, Adapter.entities (locations s') !! k
                = List.find (fun l => String.eqb (loc_id l) k) (sd_locations data))
  /\ (forall k, Adapter.entities (events s') !! k
                = List.find (fun e => String.eqb (event_id e) k)
                            (default [] (sd_events data)))
  /\ (forall k, Adapter.entities (sublocations s') !! k
                = List.find (fun sl => String.eqb (subloc_id sl) k)
                            (default [] (sd_sublocations data)))
  /\ (forall k, Adapter.entities (evidenceGroups s') !! k
                = List.find (fun g => String.eqb (group_id g) k)
                            (sd_evidenceGroups data))
  /\ (forall k, Adapter.entities (bounties s') !! k
                = List.find (fun b => String.eqb (bounty_id b) k) (sd_bounties data))
  /\ title s' = sd_title data
  /\ storyInfo s' = sd_storyInfo data
  /\ testimonies s' = sd_testimonies data
  /\ evidence s' = initialEvidence (loadStoryCartridge data)
  /\ timeSpent s' = timeSpent s
  /\ imageUrls s' = imageUrls s
  /\ imageLoading s' = imageLoading s
  /\ imageErrors s' = imageErrors s
  /\ imageGenerationQueue s' = imageGenerationQueue s
  /\ isProcessingQueue s' = isProcessingQueue s
  /\ hasDiscoveredPaint s' = hasDiscoveredPaint s
  /\ milestoneThreshold s' = milestoneThreshold s
  /\ accusationThreshold s' = accusationThreshold s
  /\ dynamicHotspotCoords s' = dynamicHotspotCoords s.
Proof.
  cbn zeta. cbn [reducer]. unfold loadStoryCartridge_fulfilled. cbn.
  split_and!; try reflexivity; intros k; apply setAll_lookup.
Qed.

End CartridgeIntoStore.

(* ===================================================================== *)
(** * Properties of the unlock system *)
(* ===================================================================== *)

Section UnlockFacts.
Import Types Story StoryViews UnlockSystem.

(** What a reducer other than the load does to a table entry: it is kept,
    up to a change that keeps the id, the unlock entries and the time cost
    and only ever sets flags. *)
Lemma reducer_keeps_object (s : StoryState) (a : Action) (k : string) (o : StoryObject) :
  isLoad a = false ->
  Adapter.entities (objects s) !! k = Some o ->
  exists o',
    Adapter.entities (objects (reducer s a)) !! k = Some o'
    /\ id o' = id o /\ unlocks o' = unlocks o /\ timeToAdd o' = timeToAdd o
    /\ (JS.truthy_bool (hasBeenUnlocked o) = true ->
        JS.truthy_bool (hasBeenUnlocked o') = true).
Proof.
  intros Hload Ho.
  assert (Hsame : exists o',
             Adapter.entities (objects s) !! k = Some o'
             /\ id o' = id o /\ unlocks o' = unlocks o /\ timeToAdd o' = timeToAdd o
             /\ (JS.truthy_bool (hasBeenUnlocked o) = true ->
                 JS.truthy_bool (hasBeenUnlocked o') = true)) by by exists o.
  assert (Hupd : forall (f : StoryObject -> StoryObject) j,
             (forall x, id (f x) = id x /\ unlocks (f x) = unlocks x
                        /\ timeToAdd (f x) = timeToAdd x
                        /\ (JS.truthy_bool (hasBeenUnlocked x) = true ->
                            JS.truthy_bool (hasBeenUnlocked (f x)) = true)) ->
             exists o',
               alter f j (Adapter.entities (objects s)) !! k = Some o'
               /\ id o' = id o /\ unlocks o' = unlocks o /\ timeToAdd o' = timeToAdd o
               /\ (JS.truthy_bool (hasBeenUnlocked o) = true ->
                   JS.truthy_bool (hasBeenUnlocked o') = true)).
  { intros f j Hf. rewrite lookup_alter. case_decide as Hd.
    - subst j. rewrite Ho. cbn. exists (f o). split; [done|]. apply Hf.
    - by exists o. }
  destruct a as [data|cid b|oid|oid|objectId suspectId|r|n|b|c b|c u|urls|c b|b|x
                |amt|amt|l c|type r tc]; cbn [reducer]; try discriminate; try exact Hsame.
  - unfold toggleSuspect.
    destruct (Adapter.entities (characters s) !! cid) as [ch|]; [|exact Hsame].
    destruct (String.eqb (role ch) "suspect"); exact Hsame.
  - unfold addToTimeline.
    destruct (Adapter.entities (objects s) !! oid) as [item|]; [|exact Hsame].
    destruct (onTimeline oid s) eqn:Hon; [exact Hsame|].
    unfold onTimeline in *.
    destruct (negb (JS.truthy_bool (hasBeenUnlocked item))); cbn; rewrite Hon; cbn;
      unfold locationOf; cbn;
      (destruct (match Adapter.entities (locations s) !! locationFoundId item with
                 | Some l => Some l | None => _ end); cbn;
       apply Hupd; intros y; (split_and!; [done..|cbn; tauto])).
  - unfold removeFromTimeline.
    destruct (Adapter.entities (objects s) !! oid) as [item|]; [|exact Hsame].
    destruct (isEvidence item); [|exact Hsame]. cbn.
    apply Hupd; intros y; (split_and!; [done..|cbn; tauto]).
  - unfold assignEvidenceToSuspect.
    destruct (Adapter.entities (objects s) !! objectId) as [item|]; [|exact Hsame]. cbn.
    apply Hupd; intros y; (split_and!; [done..|cbn; tauto]).
  - unfold queueImageGeneration. destruct (_ && _)%bool; exact Hsame.
  - unfold addDynamicObject, Adapter.addOne. cbn.
    destruct (Adapter.entities (objects s) !! id x) eqn:Hx; [exact Hsame|]. cbn.
    rewrite lookup_insert_ne; [exact Hsame|]. intros Heq. congruence.
  - unfold unlockEntity. destruct type; cbn; try exact Hsame.
    + destruct (Adapter.entities (sublocations s) !! r) as [sl|]; [|exact Hsame].
      destruct (negb _); exact Hsame.
    + destruct (Adapter.entities (objects s) !! r) as [item|]; [|exact Hsame].
      destruct (negb _); [|exact Hsame]. cbn.
      apply Hupd; intros y; (split_and!; [done..|cbn; tauto]).
    + destruct (Adapter.entities (events s) !! r) as [e|]; [|exact Hsame].
      destruct (negb _); exact Hsame.
Qed.

(** A reducer other than the load leaves the sublocations alone, unless it
    is the [unlockEntity] of a sublocation that was locked. *)
Lemma reducer_sublocations (s : StoryState) (a : Action) :
  isLoad a = false ->
  sublocations (reducer s a) = sublocations s
  \/ exists r sl,
       Adapter.entities (sublocations s) !! r = Some sl
       /\ JS.truthy_bool (subloc_hasBeenUnlocked sl) = false
       /\ sublocations (reducer s a)
          = Adapter.updateOne (sublocations s) r (subloc_with_unlocked true true).
Proof.
  intros Hload.
  destruct a as [data|cid b|oid|oid|objectId suspectId|r|n|b|c b|c u|urls|c b|b|x
                |amt|amt|l c|type r tc]; cbn [reducer]; try discriminate;
    try (by left).
  - unfold toggleSuspect.
    destruct (Adapter.entities (characters s) !! cid) as [ch|]; [|by left].
    destruct (String.eqb (role ch) "suspect"); by left.
  - unfold addToTimeline.
    destruct (Adapter.entities (objects s) !! oid) as [item|]; [|by left].
    destruct (onTimeline oid s) eqn:Hon; [by left|].
    unfold onTimeline in *.
    destruct (negb (JS.truthy_bool (hasBeenUnlocked item))); cbn; rewrite Hon; cbn;
      unfold locationOf; cbn;
      (destruct (match Adapter.entities (locations s) !! locationFoundId item with
                 | Some l => Some l | None => _ end); by left).
  - unfold removeFromTimeline.
    destruct (Adapter.entities (objects s) !! oid) as [item|]; [|by left].
    destruct (isEvidence item); by left.
  - unfold assignEvidenceToSuspect.
    destruct (Adapter.entities (objects s) !! objectId); by left.
  - unfold queueImageGeneration. destruct (_ && _)%bool; by left.
  - unfold unlockEntity. destruct type; cbn; try (by left).
    + destruct (Adapter.entities (sublocations s) !! r) as [sl|] eqn:Hsl; [|by left].
      destruct (JS.truthy_bool (subloc_hasBeenUnlocked sl)) eqn:Hf; cbn; [by left|].
      right. by exists r, sl.
    + destruct (Adapter.entities (objects s) !! r) as [item|]; [|by left].
      destruct (negb _); by left.
    + destruct (Adapter.entities (events s) !! r) as [e|]; [|by left].
      destruct (negb _); by left.
Qed.

(** The same for the events. *)
Lemma reducer_events (s : StoryState) (a : Action) :
  isLoad a = false ->
  events (reducer s a) = events s
  \/ exists r e,
       Adapter.entities (events s) !! r = Some e
       /\ JS.truthy_bool (event_hasBeenUnlocked e) = false
       /\ events (reducer s a)
          = Adapter.updateOne (events s) r (event_with_hasBeenUnlocked true).
Proof.
  intros Hload.
  destruct a as [data|cid b|oid|oid|objectId suspectId|r|n|b|c b|c u|urls|c b|b|x
                |amt|amt|l c|type r tc]; cbn [reducer]; try discriminate;
    try (by left).
  - unfold toggleSuspect.
    destruct (Adapter.entities (characters s) !! cid) as [ch|]; [|by left].
    destruct (String.eqb (role ch) "suspect"); by left.
  - unfold addToTimeline.
    destruct (Adapter.entities (objects s) !! oid) as [item|]; [|by left].
    destruct (onTimeline oid s) eqn:Hon; [by left|].
    unfold onTimeline in *.
    destruct (negb (JS.truthy_bool (hasBeenUnlocked item))); cbn; rewrite Hon; cbn;
      unfold locationOf; cbn;
      (destruct (match Adapter.entities (locations s) !! locationFoundId item with
                 | Some l => Some l | None => _ end); by left).
  - unfold removeFromTimeline.
    destruct (Adapter.entities (objects s) !! oid) as [item|]; [|by left].
    destruct (isEvidence item); by left.
  - unfold assignEvidenceToSuspect.
    destruct (Adapter.entities (objects s) !! objectId); by left.
  - unfold queueImageGeneration. destruct (_ && _)%bool; by left.
  - unfold unlockEntity. destruct type; cbn; try (by left).
    + destruct (Adapter.entities (sublocations s) !! r) as [sl|]; [|by left].
      destruct (negb _); by left.
    + destruct (Adapter.entities (objects s) !! r) as [item|]; [|by left].
      destruct (negb _); by left.
    + destruct (Adapter.entities (events s) !! r) as [e|] eqn:He; [|by left].
      destruct (JS.truthy_bool (event_hasBeenUnlocked e)) eqn:Hf; cbn; [by left|].
      right. by exists r, e.
Qed.

Lemma reducer_keeps_event (s : StoryState) (a : Action) (k : string) :
  isLoad a = false ->
  eventUnlocked k s = true -> eventUnlocked k (reducer s a) = true.
Proof.
  intros Hload. unfold eventUnlocked.
  destruct (reducer_events s a Hload) as [->|(r & e & He & Hf & ->)]; [done|].
  cbn. rewrite lookup_alter. case_decide as Hd; [|done]. subst k. by rewrite He.
Qed.

Lemma reducer_keeps_sublocation (s : StoryState) (a : Action) (k : string) :
  isLoad a = false ->
  (sublocationShown k s = true -> sublocationShown k (reducer s a) = true)
  /\ (sublocationUnlocked k s = true -> sublocationUnlocked k (reducer s a) = true)
  /\ (sublocationHiddenUnlocked k s = true ->
      sublocationHiddenUnlocked k (reducer s a) = true).
Proof.
  intros Hload. unfold sublocationShown, sublocationUnlocked, sublocationHiddenUnlocked.
  destruct (reducer_sublocations s a Hload) as [->|(r & sl & Hsl & Hf & ->)]; [done|].
  cbn. rewrite lookup_alter. case_decide as Hd; [|done]. subst k. rewrite Hsl. cbn.
  rewrite Hf. split_and!; try done. by rewrite andb_false_r.
Qed.

Lemma reducer_keeps_objectUnlocked (s : StoryState) (a : Action) (k : string) :
  isLoad a = false ->
  objectUnlocked k s = true -> objectUnlocked k (reducer s a) = true.
Proof.
  intros Hload. unfold objectUnlocked.
  destruct (Adapter.entities (objects s) !! k) as [o|] eqn:Ho; [|discriminate].
  destruct (reducer_keeps_object s a k o Hload Ho) as (o' & -> & _ & _ & _ & Hmono).
  exact Hmono.
Qed.

(** X9. Unlocking is for good: through every sequence of actions of the
    story slice other than a cartridge load, an object or an event that is
    unlocked stays unlocked, and a sublocation that is unlocked and
    visible stays so; adding an object that is already there
    ([addDynamicObject]) does not bring a locked copy back. *)
Theorem unlocked_for_good (actions : list Action) (s : StoryState) (k : string) :
  noLoad actions ->
  (objectUnlocked k s = true -> objectUnlocked k (dispatchAll actions s) = true)
  /\ (eventUnlocked k s = true -> eventUnlocked k (dispatchAll actions s) = true)
  /\ (sublocationShown k s = true -> sublocationShown k (dispatchAll actions s) = true).
Proof.
  unfold noLoad, dispatchAll. revert s.
  induction actions as [|a actions IH]; intros s Hno; cbn in *; [done|].
  apply andb_true_iff in Hno as [Ha Hrest]. apply negb_true_iff in Ha.
  destruct (IH (reducer s a) Hrest) as (Ho & He & Hs).
  split_and!; intros H.
  - by apply Ho, reducer_keeps_objectUnlocked.
  - by apply He, reducer_keeps_event.
  - apply Hs. by apply reducer_keeps_sublocation.
Qed.

Lemma unlocked_for_good_witness :
  let s1 := dispatchAll [UnlockEntity UEvent "e1" 20; UnlockEntity USublocation "sub1" 0;
                         AddToTimeline "o1"] Samples.loaded in
  let later := [RemoveFromTimeline "o1"; AddDynamicObject Samples.o1;
                UnlockEntity UEvent "e1" 20; SubtractTimeSpent 100] in
  objectUnlocked "o1" (dispatchAll later s1) = true
  /\ eventUnlocked "e1" (dispatchAll later s1) = true
  /\ sublocationShown "sub1" (dispatchAll later s1) = true.
Proof.
  cbn zeta.
  set (s1 := dispatchAll [UnlockEntity UEvent "e1" 20; UnlockEntity USublocation "sub1" 0;
                          AddToTimeline "o1"] Samples.loaded).
  set (later := [RemoveFromTimeline "o1"; AddDynamicObject Samples.o1;
                 UnlockEntity UEvent "e1" 20; SubtractTimeSpent 100]).
  destruct (unlocked_for_good later s1 "o1") as (Ho & _ & _); [reflexivity|].
  destruct (unlocked_for_good later s1 "e1") as (_ & He & _); [reflexivity|].
  destruct (unlocked_for_good later s1 "sub1") as (_ & _ & Hs); [reflexivity|].
  split_and!; [apply Ho|apply He|apply Hs]; vm_compute; reflexivity.
Defined.

(** X10. The visibility of a sublocation only ever changes together with
    its unlock flag: a sublocation that is unlocked but not visible (as a
    cartridge can declare it) stays invisible through every sequence of
    actions other than a cartridge load, [unlockEntity] on it included. *)
Theorem hidden_unlocked_sublocation_stays_hidden (actions : list Action)
  (s : StoryState) (k : string) :
  noLoad actions ->
  sublocationHiddenUnlocked k s = true ->
  sublocationHiddenUnlocked k (dispatchAll actions s) = true.
Proof.
  unfold noLoad, dispatchAll. revert s.
  induction actions as [|a actions IH]; intros s Hno H; cbn in *; [done|].
  apply andb_true_iff in Hno as [Ha Hrest]. apply negb_true_iff in Ha.
  apply IH; [done|]. by apply reducer_keeps_sublocation.
Qed.

Lemma hidden_unlocked_sublocation_stays_hidden_witness :
  sublocationHiddenUnlocked "sub2"
    (dispatchAll [UnlockEntity USublocation "sub2" 5; UnlockEntity USublocation "sub1" 5]
                 loadedHidden) = true
  /\ sublocationShown "sub1"
       (dispatchAll [UnlockEntity USublocation "sub2" 5; UnlockEntity USublocation "sub1" 5]
                    loadedHidden) = true.
Proof.
  split; [|vm_compute; reflexivity].
  apply hidden_unlocked_sublocation_stays_hidden; [reflexivity|].
  vm_compute. reflexivity.
Defined.

Lemma dispatchAll_app (l1 l2 : list Action) (s : StoryState) :
  dispatchAll (l1 ++ l2) s = dispatchAll l2 (dispatchAll l1 s).
Proof. unfold dispatchAll. apply fold_left_app. Qed.

Lemma unlockActions_noLoad (us : list Unlock) : noLoad (unlockActions us).
Proof. unfold noLoad, unlockActions. induction us as [|u us IH]; cbn; done. Qed.

Lemma dispatchAll_keeps_object (actions : list Action) (k : string) :
  noLoad actions ->
  forall s o,
    Adapter.entities (objects s) !! k = Some o ->
    exists o',
      Adapter.entities (objects (dispatchAll actions s)) !! k = Some o'
      /\ id o' = id o /\ unlocks o' = unlocks o /\ timeToAdd o' = timeToAdd o
      /\ (JS.truthy_bool (hasBeenUnlocked o) = true ->
          JS.truthy_bool (hasBeenUnlocked o') = true).
Proof.
  unfold noLoad, dispatchAll.
  induction actions as [|a actions IH]; intros Hno s o Ho; cbn in *; [by exists o|].
  apply andb_true_iff in Hno as [Ha Hrest]. apply negb_true_iff in Ha.
  destruct (reducer_keeps_object s a k o Ha Ho) as (o1 & Ho1 & Hid & Hu & Ht & Hm).
  destruct (IH Hrest (reducer s a) o1 Ho1) as (o2 & Ho2 & Hid2 & Hu2 & Ht2 & Hm2).
  exists o2. split_and!; [done|congruence..|tauto].
Qed.

Lemma dispatchAll_tablesWf (actions : list Action) : forall s,
  Session.tablesWf s -> Session.tablesWf (dispatchAll actions s).
Proof.
  unfold dispatchAll. induction actions as [|a actions IH]; intros s Hwf; cbn; [done|].
  by apply IH, tablesWf_reducer.
Qed.

Lemma unlockEntity_reaches_target (u : Unlock) (s : StoryState) :
  targetExists u s = true ->
  targetUnlocked u (unlockEntity (unlock_type u) (ref u) (time u) s) = true.
Proof.
  unfold targetExists, targetUnlocked, unlockEntity.
  destruct (unlock_type u); cbn; try done; intros Hex;
    apply bool_decide_eq_true in Hex as [x Hx]; rewrite Hx.
  - destruct (JS.truthy_bool (subloc_hasBeenUnlocked x)) eqn:Hf; cbn.
    + by rewrite Hx, Hf.
    + by rewrite lookup_alter_eq, Hx.
  - destruct (JS.truthy_bool (hasBeenUnlocked x)) eqn:Hf; cbn.
    + by rewrite Hx, Hf.
    + by rewrite lookup_alter_eq, Hx.
  - destruct (JS.truthy_bool (event_hasBeenUnlocked x)) eqn:Hf; cbn.
    + by rewrite Hx, Hf.
    + by rewrite lookup_alter_eq, Hx.
Qed.

Lemma targetExists_unlockEntity (u : Unlock) (type : UnlockType) (r : string) (tc : Z)
  (s : StoryState) :
  targetExists u (unlockEntity type r tc s) = targetExists u s.
Proof.
  unfold targetExists, unlockEntity.
  destruct type; cbn; try done.
  - destruct (Adapter.entities (sublocations s) !! r) as [sl|]; [|done].
    destruct (negb _); [|done]. cbn.
    destruct (unlock_type u); try done.
    apply bool_decide_ext. rewrite lookup_alter. case_decide as Hd; [|done].
    subst r. by rewrite fmap_is_Some.
  - destruct (Adapter.entities (objects s) !! r) as [o|]; [|done].
    destruct (negb _); [|done]. cbn.
    destruct (unlock_type u); try done.
    apply bool_decide_ext. rewrite lookup_alter. case_decide as Hd; [|done].
    subst r. by rewrite fmap_is_Some.
  - destruct (Adapter.entities (events s) !! r) as [e|]; [|done].
    destruct (negb _); [|done]. cbn.
    destruct (unlock_type u); try done.
    apply bool_decide_ext. rewrite lookup_alter. case_decide as Hd; [|done].
    subst r. by rewrite fmap_is_Some.
Qed.

Lemma targetUnlocked_reducer (u : Unlock) (a : Action) (s : StoryState) :
  isLoad a = false ->
  targetUnlocked u s = true -> targetUnlocked u (reducer s a) = true.
Proof.
  intros Hload. unfold targetUnlocked. destruct (unlock_type u); try done.
  - apply (reducer_keeps_sublocation s a (ref u) Hload).
  - apply (reducer_keeps_objectUnlocked s a (ref u) Hload).
  - apply (reducer_keeps_event s a (ref u) Hload).
Qed.

Lemma targetUnlocked_dispatchAll (u : Unlock) (actions : list Action) :
  noLoad actions ->
  forall s, targetUnlocked u s = true -> targetUnlocked u (dispatchAll actions s) = true.
Proof.
  unfold noLoad, dispatchAll.
  induction actions as [|a l IH]; intros Hno s Hs; cbn in *; [done|].
  apply andb_true_iff in Hno as [Ha Hrest]. apply negb_true_iff in Ha.
  apply IH; [done|]. by apply targetUnlocked_reducer.
Qed.

Lemma unlockActions_time (us : list Unlock) : forall s,
  timeSpent (dispatchAll (unlockActions us) s) = timeSpent s + unlockTimes us.
Proof.
  unfold dispatchAll, unlockActions.
  induction us as [|u us IH]; intros s; cbn; [lia|].
  rewrite IH, unlockEntity_timeSpent. unfold unlockTimes. lia.
Qed.

Lemma unlockActions_evidence (us : list Unlock) : forall s,
  evidence (dispatchAll (unlockActions us) s) = evidence s.
Proof.
  unfold dispatchAll, unlockActions.
  induction us as [|u us IH]; intros s; cbn; [done|].
  rewrite IH. unfold unlockEntity. destruct (unlock_type u); cbn; try done.
  - destruct (Adapter.entities (sublocations s) !! ref u); [|done]. by destruct (negb _).
  - destruct (Adapter.entities (objects s) !! ref u); [|done]. by destruct (negb _).
  - destruct (Adapter.entities (events s) !! ref u); [|done]. by destruct (negb _).
Qed.

Lemma unlockActions_reach (us : list Unlock) : forall s u,
  u ∈ us -> targetExists u s = true ->
  targetUnlocked u (dispatchAll (unlockActions us) s) = true.
Proof.
  induction us as [|v us IH]; intros s u Hu Hex; [by apply elem_of_nil in Hu|].
  change (unlockActions (v :: us))
    with ([UnlockEntity (unlock_type v) (ref v) (time v)] ++ unlockActions us).
  rewrite dispatchAll_app. cbn [dispatchAll List.fold_left reducer].
  apply elem_of_cons in Hu as [->|Hu].
  - apply targetUnlocked_dispatchAll; [apply unlockActions_noLoad|].
    by apply unlockEntity_reaches_target.
  - apply IH; [done|]. by rewrite targetExists_unlockEntity.
Qed.

(** Unlock entries whose targets are unlocked, or not there, only cost
    time. *)
Lemma unlockActions_settled (us : list Unlock) : forall s,
  (forall u, u ∈ us -> targetUnlocked u s = true \/ targetExists u s = false) ->
  dispatchAll (unlockActions us) s = set_timeSpent (timeSpent s + unlockTimes us) s.
Proof.
  induction us as [|v us IH]; intros s Hs.
  - unfold set_timeSpent. cbn. rewrite Z.add_0_r. by destruct s.
  - change (unlockActions (v :: us))
      with ([UnlockEntity (unlock_type v) (ref v) (time v)] ++ unlockActions us).
    rewrite dispatchAll_app. cbn [dispatchAll List.fold_left reducer].
    assert (unlockEntity (unlock_type v) (ref v) (time v) s
            = set_timeSpent (timeSpent s + time v) s) as ->.
    { destruct (Hs v) as [Hv|Hv]; [by left|..];
        unfold targetUnlocked, targetExists, unlockEntity in *;
        destruct (unlock_type v); cbn in *; try done.
      - destruct (Adapter.entities (sublocations s) !! ref v); [|done]. by rewrite Hv.
      - destruct (Adapter.entities (objects s) !! ref v); [|done]. by rewrite Hv.
      - destruct (Adapter.entities (events s) !! ref v); [|done]. by rewrite Hv.
      - apply bool_decide_eq_false in Hv.
        destruct (Adapter.entities (sublocations s) !! ref v); [|done].
        exfalso. apply Hv. by eexists.
      - apply bool_decide_eq_false in Hv.
        destruct (Adapter.entities (objects s) !! ref v); [|done].
        exfalso. apply Hv. by eexists.
      - apply bool_decide_eq_false in Hv.
        destruct (Adapter.entities (events s) !! ref v); [|done].
        exfalso. apply Hv. by eexists. }
    rewrite IH.
    + unfold unlockTimes, set_timeSpent. destruct s; cbn. f_equal. lia.
    + intros u Hu. destruct (Hs u) as [H|H]; [by right|by left|by right].
Qed.

Lemma handleEvidenceTap_actions (oid : string) (o : StoryObject) (s : StoryState) :
  Session.tablesWf s ->
  Adapter.entities (objects s) !! oid = Some o ->
  handleEvidenceTap oid s = unlockActions (unlocks o).
Proof.
  intros (_ & Hwf & _) Ho. unfold handleEvidenceTap, selectAllObjects.
  by rewrite (find_selectAll id (objects s) oid Hwf), Ho.
Qed.

(** X11. Tapping an object ([handleEvidenceTap]) charges the sum of the
    time costs of its unlock entries and unlocks every target that is in
    the store, without touching the timeline.  It has no memory: a second
    tap charges the same sum again, though it changes no entity. *)
Theorem handleEvidenceTap_charges_every_time (oid : string) (o : StoryObject)
  (s : StoryState) :
  Session.tablesWf s ->
  Adapter.entities (objects s) !! oid = Some o ->
  let tap := fun st => dispatchAll (handleEvidenceTap oid st) st in
  timeSpent (tap s) = timeSpent s + unlockTimes (unlocks o)
  /\ (forall u, u ∈ unlocks o -> targetExists u s = true ->
                targetUnlocked u (tap s) = true)
  /\ evidence (tap s) = evidence s
  /\ tap (tap s) = set_timeSpent (timeSpent s + 2 * unlockTimes (unlocks o)) (tap s).
Proof.
  intros Hwf Ho tap.
  assert (Htap : tap s = dispatchAll (unlockActions (unlocks o)) s).
  { unfold tap. by rewrite (handleEvidenceTap_actions oid o s Hwf Ho). }
  split; [rewrite Htap; apply unlockActions_time|].
  split; [intros u Hu Hex; rewrite Htap; by apply unlockActions_reach|].
  split; [rewrite Htap; apply unlockActions_evidence|].
  destruct (dispatchAll_keeps_object (unlockActions (unlocks o)) oid
              (unlockActions_noLoad _) s o Ho) as (o' & Ho' & _ & Hu' & _).
  rewrite <- Htap in Ho'.
  assert (Hwf' : Session.tablesWf (tap s)).
  { rewrite Htap. by apply dispatchAll_tablesWf. }
  unfold tap at 1. rewrite (handleEvidenceTap_actions oid o' (tap s) Hwf' Ho'), Hu'.
  rewrite unlockActions_settled.
  - f_equal. rewrite Htap, unlockActions_time. lia.
  - intros u Hu. destruct (targetExists u s) eqn:Hex.
    + left. rewrite Htap. by apply unlockActions_reach.
    + right. rewrite Htap. clear -Hex.
      revert s Hex. unfold dispatchAll, unlockActions.
      induction (unlocks o) as [|v us IH]; intros s Hex; cbn; [done|].
      apply IH. by rewrite targetExists_unlockEntity.
Qed.

Lemma handleEvidenceTap_charges_every_time_witness :
  let tap := fun st => dispatchAll (handleEvidenceTap "o1" st) st in
  timeSpent (tap Samples.loaded) = 20
  /\ eventUnlocked "e1" (tap Samples.loaded) = true
  /\ timeSpent (tap (tap Samples.loaded)) = 40.
Proof.
  cbn zeta.
  destruct (handleEvidenceTap_charges_every_time "o1" Samples.o1 Samples.loaded)
    as (Htime & _ & _ & Htwice).
  { apply (reachable_tablesWf Samples.cfg).
    exists [LoadStoryCartridgeFulfilled (Samples.data [Samples.loc1])]. reflexivity. }
  { vm_compute. reflexivity. }
  cbn zeta in *. split; [rewrite Htime; vm_compute; reflexivity|].
  split; [vm_compute; reflexivity|].
  rewrite Htwice. vm_compute. reflexivity.
Defined.

Lemma addToTimeline_off_timeline (oid : string) (o : StoryObject) (s : StoryState) :
  Adapter.entities (objects s) !! oid = Some o ->
  onTimeline oid s = false ->
  timeSpent (addToTimeline oid s)
  = timeSpent s + (if JS.truthy_bool (hasBeenUnlocked o) then 0
                   else JS.or_zero (timeToAdd o))
  /\ objectUnlocked oid (addToTimeline oid s) = true
  /\ Adapter.entities (objects (addToTimeline oid s)) !! oid
     = Some (if JS.truthy_bool (hasBeenUnlocked o) then with_isEvidence true o
             else with_hasBeenUnlocked true (with_isEvidence true o)).
Proof.
  intros Ho Hon. unfold objectUnlocked, addToTimeline. rewrite Ho, Hon.
  unfold onTimeline in *.
  destruct (JS.truthy_bool (hasBeenUnlocked o)) eqn:Hf; cbn; rewrite Hon; cbn;
    unfold locationOf; cbn;
    (destruct (match Adapter.entities (locations s) !! locationFoundId o with
               | Some l => Some l | None => _ end); cbn;
     rewrite lookup_alter_eq, Ho; cbn; (split_and!; [lia|done..])).
Qed.

Lemma dispatchAll_keeps_objectUnlocked (actions : list Action) (k : string)
  (s : StoryState) :
  noLoad actions ->
  objectUnlocked k s = true -> objectUnlocked k (dispatchAll actions s) = true.
Proof.
  intros Hno. unfold objectUnlocked.
  destruct (Adapter.entities (objects s) !! k) as [o|] eqn:Ho; [|discriminate].
  destruct (dispatchAll_keeps_object actions k Hno s o Ho) as (o' & -> & _ & _ & _ & H).
  exact H.
Qed.

(** X12. The timeline toggle of an object's card, the card showing the
    object as the store has it: adding a locked object that is off the
    timeline charges its [timeToAdd] and the time costs of all its unlock
    entries, and leaves it unlocked; adding an object that is already
    unlocked charges nothing; removing never changes the time spent; and
    adding what is on the timeline, or removing what is not, dispatches
    nothing. *)
Theorem handleEvidenceToggle_charges_once (o : StoryObject) (s : StoryState) :
  Session.tablesWf s ->
  Adapter.entities (objects s) !! id o = Some o ->
  let after := fun isAdding => dispatchAll (handleEvidenceToggle isAdding o s) s in
  (onTimeline (id o) s = false ->
   JS.truthy_bool (hasBeenUnlocked o) = false ->
   timeSpent (after true)
   = timeSpent s + JS.or_zero (timeToAdd o) + unlockTimes (unlocks o)
   /\ objectUnlocked (id o) (after true) = true)
  /\ (JS.truthy_bool (hasBeenUnlocked o) = true -> timeSpent (after true) = timeSpent s)
  /\ timeSpent (after false) = timeSpent s
  /\ (onTimeline (id o) s = true -> handleEvidenceToggle true o s = [])
  /\ (onTimeline (id o) s = false -> handleEvidenceToggle false o s = []).
Proof.
  intros Hwf Ho after. unfold after, handleEvidenceToggle.
  split_and!.
  - intros Hon Hlocked. rewrite Hon, Hlocked. cbn [negb].
    rewrite (handleEvidenceTap_actions (id o) o s Hwf Ho).
    change (AddToTimeline (id o) :: unlockActions (unlocks o))
      with ([AddToTimeline (id o)] ++ unlockActions (unlocks o)).
    rewrite dispatchAll_app. cbn [dispatchAll List.fold_left reducer].
    destruct (addToTimeline_off_timeline (id o) o s Ho Hon) as (Ht & Hu & _).
    rewrite Hlocked in Ht. split.
    + rewrite unlockActions_time. lia.
    + apply dispatchAll_keeps_objectUnlocked; [apply unlockActions_noLoad|done].
  - intros Hunlocked. rewrite Hunlocked. cbn [negb].
    destruct (onTimeline (id o) s) eqn:Hon; [done|].
    cbn [dispatchAll List.fold_left reducer].
    destruct (addToTimeline_off_timeline (id o) o s Ho Hon) as (Ht & _).
    rewrite Hunlocked in Ht. lia.
  - destruct (onTimeline (id o) s); cbn; [|done]. apply removeFromTimeline_timeSpent.
  - by intros ->.
  - by intros ->.
Qed.

Lemma handleEvidenceToggle_charges_once_witness :
  timeSpent (dispatchAll (handleEvidenceToggle true Samples.o1 Samples.loaded)
                         Samples.loaded) = 35
  /\ objectUnlocked "o1"
       (dispatchAll (handleEvidenceToggle true Samples.o1 Samples.loaded)
                    Samples.loaded) = true
  /\ handleEvidenceToggle false Samples.o1 Samples.loaded = [].
Proof.
  destruct (handleEvidenceToggle_charges_once Samples.o1 Samples.loaded)
    as (Hfirst & _ & _ & _ & Hoff).
  { apply (reachable_tablesWf Samples.cfg).
    exists [LoadStoryCartridgeFulfilled (Samples.data [Samples.loc1])]. reflexivity. }
  { vm_compute. reflexivity. }
  cbn zeta in *.
  destruct Hfirst as [Ht Hu]; [vm_compute; reflexivity..|].
  split; [rewrite Ht; vm_compute; reflexivity|].
  split; [exact Hu|]. apply Hoff. vm_compute. reflexivity.
Defined.




End UnlockFacts.

Section CharacterViews.
Import Types Story StoryViews.

(** X14. The four character lists of the store cover the characters: each
    character is a victim, a flagged suspect, a witness or one of the
    other people, and the other people are none of the first three. *)
Theorem character_views_cover (s : StoryState) (c : Character) :
  c ∈ selectAllCharacters s ->
  (c ∈ selectVictims s \/ c ∈ selectSuspects s \/ c ∈ selectWitnesses s
   \/ c ∈ selectPeople s)
  /\ (c ∈ selectPeople s ->
      (c ∉ selectVictims s) /\ (c ∉ selectSuspects s) /\ (c ∉ selectWitnesses s)).
Proof.
  unfold selectVictims, selectSuspects, selectWitnesses, selectPeople.
  rewrite !list_elem_of_In, !filter_In. intros Hc. split.
  - destruct (String.eqb (role c) "victim") eqn:Hv; [by left|].
    destruct (isSuspect c) eqn:Hs; [right; by left|].
    destruct (String.eqb (role c) "witness") eqn:Hw; [right; right; by left|].
    by right; right; right.
  - intros [_ Hp]. apply andb_true_iff in Hp as [Hp Hs].
    apply andb_true_iff in Hp as [Hv Hw].
    apply negb_true_iff in Hv, Hw, Hs.
    split_and!; intros [_ H]; congruence.
Qed.

Lemma character_views_cover_witness :
  Samples.victim ∈ selectAllCharacters Samples.loaded
  /\ Samples.victim ∈ selectVictims Samples.loaded.
Proof.
  assert (Hin : Samples.victim ∈ selectAllCharacters Samples.loaded).
  { apply list_elem_of_In. vm_compute. by left. }
  split; [exact Hin|].
  destruct (character_views_cover Samples.loaded Samples.victim Hin) as [Hcover Hpeople].
  destruct Hcover as [H|[H|[H|H]]]; [done|exfalso..].
  - apply list_elem_of_In, filter_In in H as [_ H]. discriminate H.
  - apply list_elem_of_In, filter_In in H as [_ H]. discriminate H.
  - destruct (Hpeople H) as (Hv & _). apply Hv.
    apply list_elem_of_In, filter_In. split; [by apply list_elem_of_In|reflexivity].
Defined.

End CharacterViews.

(* ===================================================================== *)
(** * Further properties of the case file *)
(* ===================================================================== *)

Section CaseFilePlay.
Import CaseFile CaseFileViews.

(** What a dispatch other than a load does to the case file: the clues and
    the anchors stay; the slots stay, or one slot gets a clue; the score
    stays, or grows by the value of a clue of the table. *)
Lemma dispatch_shape (s : CaseFileState) (a : Action) :
  isLoad a = false ->
  clues (dispatch s a) = clues s
  /\ anchors (dispatch s a) = anchors s
  /\ ((slots (dispatch s a) = slots s /\ score (dispatch s a) = score s)
      \/ exists clueId clue target,
           clueId <> ""
           /\ Adapter.entities (clues s) !! clueId = Some clue
           /\ is_Some (Adapter.entities (slots s) !! target)
           /\ slots (dispatch s a)
              = Adapter.updateOne (slots s) target (with_placedClueId (Some clueId))
           /\ score (dispatch s a)
              = score s + (points clue + JS.or_zero (bonusPoints clue))).
Proof.
  intros Hload.
  destruct a as [v|v|v|target| | |data|m]; cbn; try discriminate;
    try (split_and!; [done..|by left]).
  unfold placeClueInSlot.
  destruct (selectedClueId s) as [clueId|]; [|split_and!; [done..|by left]].
  destruct (JS.truthy_string clueId) eqn:Htruthy; cbn;
    [|split_and!; [done..|by left]].
  destruct (Adapter.entities (clues s) !! clueId) as [clue|] eqn:Hclue;
    [|split_and!; [done..|by left]].
  destruct (Adapter.entities (slots s) !! target) as [slot|] eqn:Hslot;
    [|split_and!; [done..|by left]].
  destruct (List.find _ (anchors s)) as [anchor|]; [|split_and!; [done..|by left]].
  destruct (isCorrect s target clue slot anchor); cbn; [|split_and!; [done..|by left]].
  split_and!; [done..|]. right. exists clueId, clue, target.
  split_and!; try done.
  intros ->. discriminate.
Qed.

Lemma dispatch_keeps_filled (s : CaseFileState) (a : Action) (k : string) :
  isLoad a = false -> slotFilled k s = true -> slotFilled k (dispatch s a) = true.
Proof.
  intros Hload. unfold slotFilled.
  destruct (dispatch_shape s a Hload)
    as (_ & _ & [[-> _]|(clueId & clue & target & Hne & _ & _ & -> & _)]); [done|].
  cbn. rewrite lookup_alter. case_decide as Hd; [|done]. subst k.
  destruct (Adapter.entities (slots s) !! target); cbn; [|done].
  intros _. unfold JS.truthy_string. by apply negb_true_iff, String.eqb_neq.
Qed.

Lemma complete_spec (s : CaseFileState) :
  selectIsInvestigationComplete s = true
  <-> forall k, k ∈ Adapter.ids (slots s) ->
                is_Some (Adapter.entities (slots s) !! k) -> slotFilled k s = true.
Proof.
  unfold selectIsInvestigationComplete, Adapter.selectAll, slotFilled.
  induction (Adapter.ids (slots s)) as [|j l IH]; cbn.
  - split; [|done]. intros _ k Hk. by apply elem_of_nil in Hk.
  - destruct (Adapter.entities (slots s) !! j) as [sl|] eqn:Hj; cbn.
    + rewrite andb_true_iff, IH. split.
      * intros [Hsl Hl] k Hk Hsome. apply elem_of_cons in Hk as [->|Hk].
        -- by rewrite Hj.
        -- by apply Hl.
      * intros H. split.
        -- specialize (H j). rewrite Hj in H. apply H; [by left|by eexists].
        -- intros k Hk. apply H. by right.
    + rewrite IH. split.
      * intros Hl k Hk Hsome. apply elem_of_cons in Hk as [->|Hk].
        -- rewrite Hj in Hsome. by destruct Hsome.
        -- by apply Hl.
      * intros H k Hk. apply H. by right.
Qed.

(** X15. During play (any actions of the case file but a load, a reset
    among them) a slot that is filled stays filled, so an investigation
    that is complete stays complete; and, no clue taking points away, the
    score never goes down. *)
Theorem play_keeps_slots_and_score (actions : list Action) (s : CaseFileState) :
  noLoad actions ->
  (forall k, slotFilled k s = true -> slotFilled k (dispatchAll actions s) = true)
  /\ (selectIsInvestigationComplete s = true ->
      selectIsInvestigationComplete (dispatchAll actions s) = true)
  /\ (cluesNonNegative s -> score s <= score (dispatchAll actions s)).
Proof.
  unfold noLoad, dispatchAll. revert s.
  induction actions as [|a actions IH]; intros s Hno; cbn in *.
  { split_and!; [done|done|lia]. }
  apply andb_true_iff in Hno as [Ha Hrest]. apply negb_true_iff in Ha.
  destruct (IH (dispatch s a) Hrest) as (Hfilled & Hcomplete & Hscore).
  destruct (dispatch_shape s a Ha) as (Hclues & _ & Hshape).
  split_and!.
  - intros k Hk. by apply Hfilled, dispatch_keeps_filled.
  - intros Hc. apply Hcomplete. apply complete_spec. intros k Hk Hsome.
    apply dispatch_keeps_filled; [done|].
    destruct Hshape as [[Heq _]|(? & ? & t & _ & _ & _ & Heq & _)];
      rewrite Heq in Hk, Hsome; apply (proj1 (complete_spec s) Hc); try done.
    cbn in Hsome. rewrite lookup_alter in Hsome.
    case_decide as Hd; [|done]. subst k. by apply fmap_is_Some in Hsome.
  - intros Hnn.
    assert (cluesNonNegative (dispatch s a)) as Hnn'.
    { unfold cluesNonNegative. by rewrite Hclues. }
    specialize (Hscore Hnn').
    destruct Hshape as [[_ Hs]|(clueId & clue & ? & _ & Hclue & _ & _ & Hs)]; [lia|].
    specialize (Hnn clueId clue Hclue). lia.
Qed.

Lemma play_keeps_slots_and_score_witness :
  slotFilled "motive-primary"
    (dispatchAll [ResetInvestigation; SetSelectedClueId (Some "p2");
                  PlaceClueInSlot "motive-primary"] CaseFileSamples.placed) = true
  /\ 15 <= score (dispatchAll [ResetInvestigation; SetSelectedClueId (Some "p2");
                              PlaceClueInSlot "motive-primary"] CaseFileSamples.placed).
Proof.
  destruct (play_keeps_slots_and_score
              [ResetInvestigation; SetSelectedClueId (Some "p2");
               PlaceClueInSlot "motive-primary"] CaseFileSamples.placed)
    as (Hfilled & _ & Hscore); [reflexivity|].
  split; [apply Hfilled; vm_compute; reflexivity|].
  assert (score CaseFileSamples.placed = 15) as Hs by (vm_compute; reflexivity).
  rewrite <- Hs. apply Hscore.
  intros k clue Hk.
  assert (Adapter.entities (clues CaseFileSamples.placed)
          = list_to_map [("p1", CaseFileSamples.p1); ("p2", CaseFileSamples.p2);
                         ("sup1", CaseFileSamples.sup1)]) as Hmap
    by (vm_compute; reflexivity).
  rewrite Hmap in Hk. apply elem_of_list_to_map_2 in Hk.
  apply list_elem_of_In in Hk. cbn in Hk.
  destruct Hk as [[= <- <-]|[[= <- <-]|[[= <- <-]|[]]]]; cbn; lia.
Defined.

End CaseFilePlay.

Section CaseFilePool.
Import CaseFile CaseFileViews.

(** One selection and drop of a PRIMARY clue on a slot that asks for its
    event. *)
Lemma place_primary (clueId target : string) (clue : Clue) (slot : EvidenceSlot)
  (anchor : TimelineAnchor) (s : CaseFileState) :
  clueId <> "" ->
  Adapter.entities (clues s) !! clueId = Some clue ->
  clue_type clue = "PRIMARY" ->
  Adapter.entities (slots s) !! target = Some slot ->
  correctEventKey slot = Some (eventKey clue) ->
  List.find (fun a => String.eqb (anchor_id a) (activeTab s)) (anchors s) = Some anchor ->
  let s' := dispatchAll (selectAndPlace clueId target) s in
  clues s' = clues s /\ anchors s' = anchors s /\ activeTab s' = activeTab s
  /\ Adapter.entities (slots s') !! target = Some (with_placedClueId (Some clueId) slot)
  /\ score s' = score s + (points clue + JS.or_zero (bonusPoints clue))
  /\ lastIncorrectSlotId s' = None.
Proof.
  intros Hne Hclue Htype Hslot Hkey Hanchor. cbn.
  unfold placeClueInSlot, setSelectedClueId. cbn.
  assert (JS.truthy_string clueId = true) as ->.
  { unfold JS.truthy_string. by apply negb_true_iff, String.eqb_neq. }
  cbn. rewrite Hclue, Hslot, Hanchor.
  assert (isCorrect (set_selectedClueId (Some clueId) s) target clue slot anchor = true)
    as ->.
  { unfold isCorrect. rewrite Htype, Hkey. cbn. apply String.eqb_refl. }
  cbn. split_and!; try done. by rewrite lookup_alter_eq, Hslot.
Qed.

(** X16. Placement looks neither at what the slot holds nor at where the
    clue already lies: selecting the same matching PRIMARY clue and
    dropping it on the same slot a second time is again a correct
    placement, and its points and bonus are added to the score a second
    time. *)
Theorem placing_again_scores_again (clueId target : string) (clue : Clue)
  (slot : EvidenceSlot) (anchor : TimelineAnchor) (s : CaseFileState) :
  clueId <> "" ->
  Adapter.entities (clues s) !! clueId = Some clue ->
  clue_type clue = "PRIMARY" ->
  Adapter.entities (slots s) !! target = Some slot ->
  correctEventKey slot = Some (eventKey clue) ->
  List.find (fun a => String.eqb (anchor_id a) (activeTab s)) (anchors s) = Some anchor ->
  let once := dispatchAll (selectAndPlace clueId target) s in
  let twice := dispatchAll (selectAndPlace clueId target) once in
  score once = score s + (points clue + JS.or_zero (bonusPoints clue))
  /\ score twice = score s + 2 * (points clue + JS.or_zero (bonusPoints clue))
  /\ Adapter.entities (slots twice) !! target
     = Adapter.entities (slots once) !! target
  /\ lastIncorrectSlotId twice = None.
Proof.
  intros Hne Hclue Htype Hslot Hkey Hanchor once twice.
  destruct (place_primary clueId target clue slot anchor s)
    as (Hc1 & Ha1 & Ht1 & Hs1 & Hscore1 & _); try done.
  fold once in Hc1, Ha1, Ht1, Hs1, Hscore1.
  destruct (place_primary clueId target clue (with_placedClueId (Some clueId) slot)
              anchor once) as (_ & _ & _ & Hs2 & Hscore2 & Hlast); try done.
  { by rewrite Hc1. }
  { by rewrite Ha1, Ht1. }
  fold twice in Hs2, Hscore2, Hlast. split_and!.
  - done.
  - rewrite Hscore2, Hscore1. lia.
  - by rewrite Hs2, Hs1.
  - done.
Qed.

Lemma placing_again_scores_again_witness :
  score (dispatchAll (selectAndPlace "p1" "motive-primary") CaseFileSamples.placed)
  = 30.
Proof.
  pose proof (placing_again_scores_again "p1" "motive-primary" CaseFileSamples.p1
                CaseFileSamples.motivePrimary CaseFileSamples.motive
                (dispatchAll [LoadCaseFileFulfilled CaseFileSamples.data] initialState))
    as H.
  destruct H as (_ & H2 & _); [done|reflexivity..|].
  assert (score (dispatchAll (selectAndPlace "p1" "motive-primary")
                   CaseFileSamples.placed)
          = score (dispatchAll (selectAndPlace "p1" "motive-primary")
                     (dispatchAll (selectAndPlace "p1" "motive-primary")
                        (dispatchAll [LoadCaseFileFulfilled CaseFileSamples.data]
                                     initialState)))) as -> by reflexivity.
  rewrite H2. reflexivity.
Defined.

(** The ids of the placed clues: the ids that are not empty and are held
    by a slot of the table. *)
Lemma placedClueIds_spec (s : CaseFileState) (x : string) :
  x ∈ placedClueIds s
  <-> x <> ""
      /\ exists k sl, k ∈ Adapter.ids (slots s)
                      /\ Adapter.entities (slots s) !! k = Some sl
                      /\ placedClueId sl = Some x.
Proof.
  unfold placedClueIds, selectAllSlots, Adapter.selectAll.
  rewrite elem_of_list_to_set, list_elem_of_omap. split.
  - intros (sl & Hsl & Hx). apply list_elem_of_omap in Hsl as (k & Hk & Hlk).
    destruct (placedClueId sl) as [c|] eqn:Hc; cbn in Hx; [|discriminate].
    destruct (JS.truthy_string c) eqn:Ht; [|discriminate].
    injection Hx as ->. split.
    + intros ->. discriminate.
    + by exists k, sl.
  - intros (Hne & k & sl & Hk & Hlk & Hc). exists sl. split.
    + apply list_elem_of_omap. by exists k.
    + rewrite Hc. cbn.
      assert (JS.truthy_string x = true) as ->; [|done].
      unfold JS.truthy_string. by apply negb_true_iff, String.eqb_neq.
Qed.

Lemma pool_spec (s : CaseFileState) (c : Clue) :
  c ∈ selectUnplacedClues s
  <-> c ∈ selectAllClues s /\ clue_id c ∉ placedClueIds s.
Proof.
  unfold selectUnplacedClues.
  rewrite list_elem_of_In, filter_In, <- list_elem_of_In, negb_true_iff,
    bool_decide_eq_false. done.
Qed.

(** X17. A correct placement takes the clue out of the evidence pool and
    leaves it in the list of clues; a clue that the target slot held
    before is back in the pool unless another slot holds it too; every
    other clue is in the pool after the placement iff it was before. *)
Theorem placement_and_pool (target clueId : string) (clue : Clue)
  (slot : EvidenceSlot) (anchor : TimelineAnchor) (s : CaseFileState) :
  Adapter.wf clue_id (clues s) ->
  Adapter.wf slotId (slots s) ->
  selectedClueId s = Some clueId ->
  clueId <> "" ->
  Adapter.entities (clues s) !! clueId = Some clue ->
  Adapter.entities (slots s) !! target = Some slot ->
  List.find (fun a => String.eqb (anchor_id a) (activeTab s)) (anchors s) = Some anchor ->
  isCorrect s target clue slot anchor = true ->
  let s' := placeClueInSlot target s in
  clue ∈ selectAllClues s'
  /\ (clue ∉ selectUnplacedClues s')
  /\ (forall c, c ∈ selectAllClues s ->
        clue_id c <> clueId ->
        placedClueId slot = Some (clue_id c) ->
        (forall k sl, k <> target -> Adapter.entities (slots s) !! k = Some sl ->
                      placedClueId sl <> Some (clue_id c)) ->
        c ∈ selectUnplacedClues s')
  /\ (forall c, clue_id c <> clueId ->
        placedClueId slot <> Some (clue_id c) ->
        (c ∈ selectUnplacedClues s' <-> c ∈ selectUnplacedClues s)).
Proof.
  intros (_ & Hcdom & Hckeyed) (_ & Hsdom & _) Hsel Hne Hclue Hslot Hanchor Hok s'.
  assert (Hshape : clues s' = clues s
                   /\ slots s' = Adapter.updateOne (slots s) target
                                   (with_placedClueId (Some clueId))).
  { subst s'. unfold placeClueInSlot. rewrite Hsel.
    assert (JS.truthy_string clueId = true) as ->.
    { unfold JS.truthy_string. by apply negb_true_iff, String.eqb_neq. }
    cbn. by rewrite Hclue, Hslot, Hanchor, Hok. }
  destruct Hshape as [Hclues Hslots].
  assert (Hall : clue ∈ selectAllClues s').
  { unfold selectAllClues, Adapter.selectAll. rewrite Hclues.
    apply list_elem_of_omap. exists clueId. split; [|done].
    apply Hcdom. by eexists. }
  assert (Hid : clue_id clue = clueId) by by apply Hckeyed.
  assert (Hplaced : forall x,
             x ∈ placedClueIds s'
             <-> x <> ""
                 /\ (x = clueId
                     \/ exists k sl, k <> target /\ k ∈ Adapter.ids (slots s)
                                     /\ Adapter.entities (slots s) !! k = Some sl
                                     /\ placedClueId sl = Some x)).
  { intros x. rewrite placedClueIds_spec, Hslots. cbn. split.
    - intros (Hx & k & sl & Hk & Hlk & Hc). split; [done|].
      rewrite lookup_alter in Hlk. case_decide as Hd.
      + subst k. rewrite Hslot in Hlk. cbn in Hlk. injection Hlk as <-.
        cbn in Hc. left. congruence.
      + right. exists k, sl. split_and!; done.
    - intros (Hx & [->|(k & sl & Hkt & Hk & Hlk & Hc)]); (split; [done|]).
      + exists target, (with_placedClueId (Some clueId) slot). split_and!; try done.
        * apply Hsdom. by eexists.
        * by rewrite lookup_alter_eq, Hslot.
      + exists k, sl. split_and!; try done. by rewrite lookup_alter_ne. }
  split_and!.
  - done.
  - rewrite pool_spec, Hid, Hplaced. intros [_ Hno]. apply Hno. split; [done|by left].
  - intros c Hc Hcid Hheld Hothers. apply pool_spec. split.
    + unfold selectAllClues. by rewrite Hclues.
    + rewrite Hplaced. intros (_ & [Heq|(k & sl & Hkt & _ & Hlk & Hpc)]); [done|].
      by apply (Hothers k sl).
  - intros c Hcid Hheld. rewrite !pool_spec. unfold selectAllClues. rewrite Hclues.
    apply and_iff_compat_l, not_iff_compat.
    rewrite Hplaced, placedClueIds_spec. apply and_iff_compat_l. split.
    + intros [Heq|(k & sl & _ & Hk & Hlk & Hpc)]; [done|]. by exists k, sl.
    + intros (k & sl & Hk & Hlk & Hpc). right. exists k, sl. split_and!; try done.
      intros ->. rewrite Hslot in Hlk. congruence.
Qed.

Lemma placement_and_pool_witness :
  CaseFileSamples.p1 ∈ selectUnplacedClues (CaseFileSamples.withSelected "p1")
  /\ (CaseFileSamples.p1
      ∉ selectUnplacedClues (placeClueInSlot "motive-primary"
                               (CaseFileSamples.withSelected "p1")))
  /\ CaseFileSamples.p2
     ∈ selectUnplacedClues (placeClueInSlot "motive-primary"
                              (CaseFileSamples.withSelected "p1")).
Proof.
  assert (Hwf : Adapter.wf clue_id (clues (CaseFileSamples.withSelected "p1"))
                /\ Adapter.wf slotId (slots (CaseFileSamples.withSelected "p1"))).
  { apply reachable_caseFile_wf. by eexists. }
  destruct Hwf as [Hwc Hws].
  assert (Hp1 : CaseFileSamples.p1
                ∈ selectUnplacedClues (CaseFileSamples.withSelected "p1")).
  { apply list_elem_of_In. vm_compute. by left. }
  assert (Hp2 : CaseFileSamples.p2
                ∈ selectUnplacedClues (CaseFileSamples.withSelected "p1")).
  { apply list_elem_of_In. vm_compute. right. by left. }
  destruct (placement_and_pool "motive-primary" "p1" CaseFileSamples.p1
              CaseFileSamples.motivePrimary CaseFileSamples.motive
              (CaseFileSamples.withSelected "p1") Hwc Hws)
    as (_ & Hout & _ & Hrest); [reflexivity|done|reflexivity..|].
  split_and!; [done|done|].
  apply Hrest; [done|done|done].
Defined.

End CaseFilePool.

Section CaseFileLoad.
Import CaseFile CaseFileViews.

(** X18. After the load of a case file every slot of every anchor, primary
    or supporting, resolves in the slot table to a slot of that id, the
    first one of the anchors in order when two slots share the id; the
    clue table answers with the first clue of the id; and the score, the
    selection, the active tab and the view of the case before stay: a load
    is no reset. *)
Theorem loadCaseFile_resolves_slots (data : CaseFileData) (s : CaseFileState) :
  let s' := dispatch s (LoadCaseFileFulfilled data) in
  let allSlots :=
    List.flat_map (fun a => primarySlot a :: supportingSlots a) (data_anchors data) in
  (forall k, Adapter.entities (slots s') !! k
             = List.find (fun sl => String.eqb (slotId sl) k) allSlots)
  /\ (forall a sl, a ∈ data_anchors data ->
        sl ∈ primarySlot a :: supportingSlots a ->
        exists sl', Adapter.entities (slots s') !! slotId sl = Some sl'
                    /\ slotId sl' = slotId sl /\ sl' ∈ allSlots)
  /\ (forall k, Adapter.entities (clues s') !! k
                = List.find (fun c => String.eqb (clue_id c) k) (data_clues data))
  /\ anchors s' = data_anchors data
  /\ score s' = score s
  /\ selectedClueId s' = selectedClueId s
  /\ activeTab s' = activeTab s
  /\ viewMode s' = viewMode s
  /\ lastIncorrectSlotId s' = lastIncorrectSlotId s.
Proof.
  cbn. split_and!; try done.
  - intros k. apply setAll_lookup.
  - intros a sl Ha Hsl. rewrite setAll_lookup.
    destruct (List.find _ _) as [sl'|] eqn:Hfind.
    + exists sl'. apply find_some in Hfind as [Hin Heq].
      apply String.eqb_eq in Heq. split_and!; [done|done|by apply list_elem_of_In].
    + exfalso. pose proof (find_none _ _ Hfind sl) as Hno. cbn in Hno.
      rewrite String.eqb_refl in Hno.
      assert (false = true) as Hcontra; [|discriminate Hcontra].
      symmetry. apply Hno. apply in_flat_map. exists a.
      split; by apply list_elem_of_In.
  - intros k. apply setAll_lookup.
Qed.

Lemma loadCaseFile_resolves_slots_witness :
  (exists sl', Adapter.entities
                 (slots (dispatch CaseFileSamples.placed
                           (LoadCaseFileFulfilled CaseFileSamples.data)))
                 !! "motive-s1" = Some sl'
               /\ slotId sl' = "motive-s1")
  /\ score (dispatch CaseFileSamples.placed
              (LoadCaseFileFulfilled CaseFileSamples.data)) = 15.
Proof.
  destruct (loadCaseFile_resolves_slots CaseFileSamples.data CaseFileSamples.placed)
    as (_ & Hslots & _ & _ & Hscore & _).
  split.
  - destruct (Hslots CaseFileSamples.motive CaseFileSamples.motiveSupport)
      as (sl' & Hlk & Hid & _).
    + by left.
    + right. by left.
    + by exists sl'.
  - rewrite Hscore. reflexivity.
Defined.

End CaseFileLoad.

(* ===================================================================== *)
(** * Further properties of the cartridge loader *)
(* ===================================================================== *)

Section CartridgeTransform.
Import Types Cartridge CartridgeViews.

Lemma transformCharacter_objects (now : string) (c : RawCharacter) (w : Working) :
  allRawObjects (snd (transformCharacter now c w))
  = allRawObjects w ++ match mugshotOf now c with Some o => [o] | None => [] end.
Proof.
  unfold transformCharacter, mugshotOf.
  destruct (statement c) as [st|]; [destruct (JS.truthy_string st)|];
    cbn [snd allRawObjects];
    (destruct (physicalCharacteristics _) as [p|];
     [destruct (JS.truthy_json (Some p) && String.eqb (raw_role c) "suspect")%bool|]);
    by rewrite ?app_nil_r.
Qed.

Lemma transformCharacter_role (now : string) (c : RawCharacter) (w : Working) :
  role (fst (transformCharacter now c w)) = JS.toLowerCase (raw_role c)
  /\ char_id (fst (transformCharacter now c w)) = raw_id c.
Proof.
  unfold transformCharacter.
  by destruct (statement c) as [st|]; [destruct (JS.truthy_string st)|].
Qed.

Lemma transformFrom_objects (clock : nat -> string) (rawCharacters : list RawCharacter) :
  forall (i : nat) (w : Working),
    allRawObjects (snd (transformFrom clock i rawCharacters w))
    = allRawObjects w
      ++ omap (fun o => o)
              (imap (fun j c => mugshotOf (clock (i + j)%nat) c) rawCharacters).
Proof.
  induction rawCharacters as [|c rest IH]; intros i w; cbn [transformFrom].
  - cbn. by rewrite app_nil_r.
  - pose proof (transformCharacter_objects (clock i) c w) as Hstep.
    destruct (transformCharacter (clock i) c w) as [ch w1]. cbn [snd] in Hstep.
    specialize (IH (S i) w1).
    destruct (transformFrom clock (S i) rest w1) as [chs w2]. cbn [snd] in *.
    rewrite IH, Hstep, <- app_assoc. f_equal.
    rewrite imap_cons. cbn [omap list_omap]. rewrite Nat.add_0_r.
    assert (imap (fun j c0 => mugshotOf (clock (S i + j)%nat) c0) rest
            = imap ((fun j c0 => mugshotOf (clock (i + j)%nat) c0) ∘ S) rest) as ->.
    { apply imap_ext. intros j x _. cbn. by rewrite Nat.add_succ_r. }
    by destruct (mugshotOf (clock i) c).
Qed.

Lemma transformFrom_roles (clock : nat -> string) (rawCharacters : list RawCharacter) :
  forall (i : nat) (w : Working),
    List.map (fun ch => (char_id ch, role ch)) (fst (transformFrom clock i rawCharacters w))
    = List.map (fun c => (raw_id c, JS.toLowerCase (raw_role c))) rawCharacters.
Proof.
  induction rawCharacters as [|c rest IH]; intros i w; cbn [transformFrom]; [done|].
  pose proof (transformCharacter_role (clock i) c w) as [Hrole Hid].
  destruct (transformCharacter (clock i) c w) as [ch w1]. cbn [fst] in Hrole, Hid.
  specialize (IH (S i) w1).
  destruct (transformFrom clock (S i) rest w1) as [chs w2]. cbn in *.
  by rewrite Hrole, Hid, IH.
Qed.

(** X19. The transformation of the characters leaves the raw objects it is
    given in place, in their order, and appends the booking photos behind
    them: one for each character whose raw role is exactly the string
    suspect and whose physical characteristics are there, none for any
    other character, in the order of the characters, each with the id
    [obj_mugshot_] followed by the character's id, the character as owner
    and the time of its creation.  The character at a position comes out
    at the same position with its id and, its raw role being ASCII, with
    that role in lower case: so a character whose raw role is the word in
    another case (a capital S, say) comes out with the role suspect and
    without a booking photo. *)
Theorem booking_photos_for_exact_role (clock : nat -> string)
  (rawCharacters : list RawCharacter) (objs : list RawObject) (ts : list Testimony) :
  let result := transformCharacterData clock rawCharacters objs ts in
  allRawObjects (snd result)
  = objs ++ omap (fun o => o) (imap (fun j c => mugshotOf (clock j) c) rawCharacters)
  /\ (forall now c o,
        mugshotOf now c = Some o
        <-> raw_role c = "suspect"
            /\ exists p,
                 physicalCharacteristics (default [] (raw_components c)) = Some p
                 /\ JS.truthy_json (Some p) = true
                 /\ o = mugshot now c p)
  /\ (forall now c o,
        mugshotOf now c = Some o ->
        rawobj_id o = "obj_mugshot_" +:+ raw_id c
        /\ rawobj_ownerCharacterId o = Some (raw_id c)
        /\ rawobj_category o = Some "police_file"
        /\ rawobj_timestamp o = now)
  /\ (forall j c,
        rawCharacters !! j = Some c ->
        asciiOnly (raw_role c) = true ->
        exists ch,
          fst result !! j = Some ch
          /\ char_id ch = raw_id c
          /\ role ch = JS.toLowerCase (raw_role c)).
Proof.
  assert (Hspec : forall now c o,
             mugshotOf now c = Some o
             <-> raw_role c = "suspect"
                 /\ exists p,
                      physicalCharacteristics (default [] (raw_components c)) = Some p
                      /\ JS.truthy_json (Some p) = true
                      /\ o = mugshot now c p).
  { intros now c o. unfold mugshotOf.
    destruct (physicalCharacteristics _) as [p|].
    - destruct (JS.truthy_json (Some p)) eqn:Hp; cbn [andb].
      + destruct (String.eqb (raw_role c) "suspect") eqn:Hr.
        * apply String.eqb_eq in Hr. split.
          -- intros [= <-]. split; [done|]. by exists p.
          -- intros (_ & p' & [= <-] & _ & ->). done.
        * apply String.eqb_neq in Hr. split; [done|]. by intros [? _].
      + split; [done|]. intros (_ & p' & [= <-] & Hp' & _). congruence.
    - split; [done|]. by intros (_ & p' & ? & _). }
  cbn zeta. split_and!.
  - unfold transformCharacterData.
    by rewrite (transformFrom_objects clock rawCharacters 0).
  - exact Hspec.
  - intros now c o Ho. apply Hspec in Ho as (_ & p & _ & _ & ->). done.
  - intros j c Hj _. unfold transformCharacterData.
    pose proof (transformFrom_roles clock rawCharacters 0
                  {| allRawObjects := objs; testimonies := ts |}) as Hroles.
    apply (f_equal (fun l => l !! j)) in Hroles.
    rewrite !list_lookup_fmap, Hj in Hroles. cbn in Hroles.
    destruct (fst (transformFrom clock 0 rawCharacters _) !! j) as [ch|];
      [|discriminate Hroles].
    cbn in Hroles. injection Hroles as Hid Hrole. by exists ch.
Qed.

Lemma booking_photos_for_exact_role_witness :
  List.map rawobj_id
    (allRawObjects
       (snd (transformCharacterData CartridgeSamples.clock
               [capitalSuspect; CartridgeSamples.c2] [phoneLogOf "c2"] [])))
  = ["obj_log"; "obj_mugshot_c2"]
  /\ (exists ch,
        fst (transformCharacterData CartridgeSamples.clock
               [capitalSuspect; CartridgeSamples.c2] [phoneLogOf "c2"] [])
          !! 0%nat = Some ch
        /\ role ch = "suspect")
  /\ mugshotOf (CartridgeSamples.clock 0) capitalSuspect = None.
Proof.
  destruct (booking_photos_for_exact_role CartridgeSamples.clock
              [capitalSuspect; CartridgeSamples.c2] [phoneLogOf "c2"] [])
    as (Hobjs & Hspec & _ & Hroles).
  split_and!.
  - rewrite Hobjs. reflexivity.
  - destruct (Hroles 0%nat capitalSuspect) as (ch & Hch & _ & Hrole);
      [reflexivity..|].
    exists ch. split; [exact Hch|]. rewrite Hrole. reflexivity.
  - destruct (mugshotOf (CartridgeSamples.clock 0) capitalSuspect) as [o|] eqn:Ho;
      [|reflexivity].
    apply Hspec in Ho as [Hrole _]. discriminate Hrole.
Defined.

Lemma ensureComponent_unfold (cid : string) (objs : list RawObject)
  (components : list DataComponent) (type : string) :
  ensureComponent cid objs components type
  = if (hasComponentData cid objs type && negb (hasComponentOnCharacter components type))%bool
    then components ++ [placeholder type]
    else components.
Proof. reflexivity. Qed.

Lemma hasComponentOnCharacter_app (components : list DataComponent) (t t' : string) :
  t <> t' ->
  hasComponentOnCharacter (components ++ [placeholder t]) t'
  = hasComponentOnCharacter components t'.
Proof.
  intros Hne. unfold hasComponentOnCharacter. rewrite existsb_app. cbn.
  apply String.eqb_neq in Hne. by rewrite Hne, !orb_false_r.
Qed.

(** The [forEach] over a list of distinct types appends the placeholders
    of the types that have data and are not on the character. *)
Lemma ensureComponent_fold (cid : string) (objs : list RawObject) (types : list string) :
  NoDup types ->
  forall components,
    List.fold_left (ensureComponent cid objs) types components
    = components
      ++ List.map placeholder
           (List.filter
              (fun t => hasComponentData cid objs t
                        && negb (hasComponentOnCharacter components t))%bool
              types).
Proof.
  induction 1 as [|t types Hnotin Hnd IH]; intros components; cbn [List.fold_left].
  { cbn. by rewrite app_nil_r. }
  rewrite IH, ensureComponent_unfold. cbn [List.filter].
  destruct (hasComponentData cid objs t && negb (hasComponentOnCharacter components t))%bool.
  - cbn [List.map]. rewrite <- app_assoc. cbn. do 3 f_equal.
    apply filter_ext_in. intros t' Ht'. rewrite hasComponentOnCharacter_app; [done|].
    intros ->. by apply Hnotin, list_elem_of_In.
  - done.
Qed.

Lemma standardComponentTypes_NoDup : NoDup standardComponentTypes.
Proof. apply (bool_decide_unpack _). by vm_compute. Qed.

Lemma hasComponentData_app (cid : string) (objs : list RawObject) (o : RawObject)
  (type : string) :
  rawobj_authorCharacterId o = None ->
  JS.strict_eq (rawobj_category o) type = false ->
  hasComponentData cid (objs ++ [o]) type = hasComponentData cid objs type.
Proof.
  intros Hauthor Hcat. unfold hasComponentData. rewrite !existsb_app. cbn.
  by rewrite Hauthor, Hcat, !andb_false_r, !orb_false_r.
Qed.

(** X20. The components of a transformed character are its raw components
    followed by one empty placeholder for each standard type, in the order
    of the standard list, for which an object given to the transformation
    belongs to the character (as owner with that category, or as author
    for the social media) and the character has no component; a booking
    photo pushed for the character makes no difference. *)
Theorem placeholders_of_character (now : string) (c : RawCharacter) (w : Working) :
  char_components (fst (transformCharacter now c w))
  = default [] (raw_components c)
    ++ List.map placeholder
         (List.filter
            (fun t => hasComponentData (raw_id c) (allRawObjects w) t
                      && negb (hasComponentOnCharacter (default [] (raw_components c)) t))%bool
            standardComponentTypes).
Proof.
  assert (Hfold : forall objs1,
             (forall t, In t standardComponentTypes ->
                        hasComponentData (raw_id c) objs1 t
                        = hasComponentData (raw_id c) (allRawObjects w) t) ->
             List.fold_left (ensureComponent (raw_id c) objs1) standardComponentTypes
                            (default [] (raw_components c))
             = default [] (raw_components c)
               ++ List.map placeholder
                    (List.filter
                       (fun t => hasComponentData (raw_id c) (allRawObjects w) t
                                 && negb (hasComponentOnCharacter
                                            (default [] (raw_components c)) t))%bool
                       standardComponentTypes)).
  { intros objs1 Hsame.
    rewrite (ensureComponent_fold _ _ _ standardComponentTypes_NoDup). f_equal. f_equal.
    apply filter_ext_in. intros t Ht. by rewrite Hsame. }
  unfold transformCharacter.
  destruct (statement c) as [st|]; [destruct (JS.truthy_string st)|];
    cbn [fst char_components];
    (destruct (physicalCharacteristics _) as [p|];
     [destruct (JS.truthy_json (Some p) && String.eqb (raw_role c) "suspect")%bool|]);
    apply Hfold; intros t Ht; try done;
    (apply hasComponentData_app; [done|]);
    cbn in Ht; cbn;
    repeat (destruct Ht as [<-|Ht]; [reflexivity|]); destruct Ht.
Qed.

Lemma placeholders_of_character_witness :
  List.map comp_type
    (char_components
       (fst (transformCharacter (CartridgeSamples.clock 0) CartridgeSamples.c2
               {| allRawObjects := [phoneLogOf "c2"]; testimonies := [] |})))
  = ["physicalCharacteristics"; "phoneLog"].
Proof. rewrite placeholders_of_character. reflexivity. Defined.

End CartridgeTransform.

(* ===================================================================== *)
(** * The symbols of the timeline puzzle *)
(* ===================================================================== *)

Section TimelineSymbols.
Import Types Story StoryViews UnlockSystem TimelineView.

Lemma selectAll_elem {T : Type} (selectId : T -> string) (st : Adapter.EntityState T)
  (e : T) :
  Adapter.wf selectId st ->
  e ∈ Adapter.selectAll st <-> Adapter.entities st !! selectId e = Some e.
Proof.
  intros (_ & Hdom & Hkeyed). unfold Adapter.selectAll.
  rewrite list_elem_of_omap. split.
  - intros (k & _ & Hk). by rewrite (Hkeyed k e Hk).
  - intros He. exists (selectId e). split; [|done]. apply Hdom. by eexists.
Qed.

(** X21. The two views of the unlock hook agree: every person and every
    item that [getVisibleTimelineSymbols] lists is an object that
    [isSymbolVisible] shows, every event it lists is an event that
    [isSymbolVisible] shows, and no object is listed both as a person and
    as an item. *)
Theorem visible_symbols_agree (s : StoryState) :
  Session.tablesWf s ->
  (forall o, o ∈ persons (getVisibleTimelineSymbols s)
             \/ o ∈ items (getVisibleTimelineSymbols s) ->
             isSymbolVisible s (id o) SymbolObject = true)
  /\ (forall e, e ∈ visibleEvents (getVisibleTimelineSymbols s) ->
                isSymbolVisible s (event_id e) SymbolEvent = true)
  /\ (forall o, o ∈ persons (getVisibleTimelineSymbols s) ->
                o ∉ items (getVisibleTimelineSymbols s)).
Proof.
  intros (_ & Hobjects & Hevents & _). cbn. split_and!.
  - intros o Ho.
    assert (o ∈ selectAllObjects s /\ JS.truthy_bool (hasBeenUnlocked o) = true)
      as [Hin Hun].
    { destruct Ho as [Ho|Ho]; apply list_elem_of_In, filter_In in Ho as [Hin Hc];
        apply andb_true_iff in Hc as [_ Hc]; by rewrite list_elem_of_In. }
    unfold selectAllObjects in *. rewrite (find_selectAll id _ _ Hobjects).
    apply (selectAll_elem id _ _ Hobjects) in Hin. by rewrite Hin.
  - intros e He. apply list_elem_of_In, filter_In in He as [Hin Hun].
    apply list_elem_of_In in Hin.
    unfold selectAllEvents in *. rewrite (find_selectAll event_id _ _ Hevents).
    apply (selectAll_elem event_id _ _ Hevents) in Hin. by rewrite Hin.
  - intros o Hp Hi. apply list_elem_of_In, filter_In in Hp as [_ Hp].
    apply list_elem_of_In, filter_In in Hi as [_ Hi].
    apply andb_true_iff in Hp as [Hp _]. apply andb_true_iff in Hi as [Hi _].
    apply String.eqb_eq in Hp. rewrite Hp in Hi. discriminate Hi.
Qed.

Lemma visible_symbols_agree_witness :
  isSymbolVisible (dispatchAll [AddToTimeline "o1"] Samples.loaded) "o1" SymbolObject
  = true.
Proof.
  assert (Hwf : Session.tablesWf (dispatchAll [AddToTimeline "o1"] Samples.loaded)).
  { apply (reachable_tablesWf Samples.cfg).
    exists [LoadStoryCartridgeFulfilled (Samples.data [Samples.loc1]);
            AddToTimeline "o1"].
    reflexivity. }
  destruct (visible_symbols_agree _ Hwf) as (Hobj & _ & _).
  assert (Hitem : exists o,
             o ∈ items (getVisibleTimelineSymbols
                          (dispatchAll [AddToTimeline "o1"] Samples.loaded))
             /\ id o = "o1").
  { eexists. split; [apply list_elem_of_In; vm_compute; left; reflexivity|reflexivity]. }
  destruct Hitem as (o & Ho & Hid).
  pose proof (Hobj o (or_intror Ho)) as H. by rewrite Hid in H.
Defined.

(** X22. A drop on the timeline puzzle makes the dropped symbol's id the
    [initialSymbolId] of every slot of the given id, whatever the slot's
    symbol type, and leaves that field alone in every other slot; the
    slots keep their order, ids, times, locations and symbol types; so a
    puzzle with all slots filled stays so.  In the store the drop of a
    visible person or item costs no time, and the drop of an id that names
    no object (an event's, say) changes nothing at all. *)
Theorem handleDropSymbol_slots_and_store (slotId symbolId : string) (v : View) :
  let v' := handleDropSymbol slotId symbolId v in
  List.map slot_id (timelineSlots v') = List.map slot_id (timelineSlots v)
  /\ (forall i slot, timelineSlots v !! i = Some slot ->
        exists slot',
          timelineSlots v' !! i = Some slot'
          /\ initialSymbolId slot'
             = (if String.eqb (slot_id slot) slotId then Some symbolId
                else initialSymbolId slot)
          /\ slot_id slot' = slot_id slot
          /\ timeId slot' = timeId slot
          /\ slot_locationId slot' = slot_locationId slot
          /\ symbolType slot' = symbolType slot)
  /\ (allSlotsFilled v = true -> allSlotsFilled v' = true)
  /\ (Adapter.entities (objects (store v)) !! symbolId = None -> store v' = store v)
  /\ (Session.tablesWf (store v) ->
      forall o, o ∈ persons (getVisibleTimelineSymbols (store v))
                \/ o ∈ items (getVisibleTimelineSymbols (store v)) ->
                symbolId = id o ->
                timeSpent (store v') = timeSpent (store v)).
Proof.
  cbn. split_and!.
  - rewrite List.map_map. apply List.map_ext. intros slot.
    by destruct (String.eqb (slot_id slot) slotId).
  - intros i slot Hi. rewrite list_lookup_fmap, Hi. cbn.
    eexists. split; [reflexivity|].
    by destruct (String.eqb (slot_id slot) slotId).
  - unfold allSlotsFilled. cbn. rewrite !forallb_forall. intros Hall slot' Hin.
    apply in_map_iff in Hin as (slot & <- & Hin).
    destruct (String.eqb (slot_id slot) slotId); [done|by apply Hall].
  - intros Hnone. unfold addToTimeline. by rewrite Hnone.
  - intros (_ & Hobjects & _) o Ho ->.
    assert (o ∈ selectAllObjects (store v) /\ JS.truthy_bool (hasBeenUnlocked o) = true)
      as [Hin Hun].
    { destruct Ho as [Ho|Ho]; apply list_elem_of_In, filter_In in Ho as [Hin Hc];
        apply andb_true_iff in Hc as [_ Hc]; by rewrite list_elem_of_In. }
    apply (selectAll_elem id _ _ Hobjects) in Hin.
    unfold addToTimeline. rewrite Hin.
    destruct (onTimeline (id o) (store v)); [done|]. rewrite Hun. cbn [negb].
    destruct (negb (onTimeline _ _)); [|done].
    by destruct (locationOf _ _).
Qed.

Lemma handleDropSymbol_slots_and_store_witness :
  allSlotsFilled
    (handleDropSymbol "slot-3" "e1"
       {| timelineSlots := List.map (with_initialSymbolId "o1") defaultSlots;
          store := Samples.loaded |}) = true
  /\ (exists slot',
        timelineSlots
          (handleDropSymbol "slot-3" "e1"
             {| timelineSlots := List.map (with_initialSymbolId "o1") defaultSlots;
                store := Samples.loaded |}) !! 2%nat = Some slot'
        /\ initialSymbolId slot' = Some "e1")
  /\ store (handleDropSymbol "slot-3" "e1"
              {| timelineSlots := List.map (with_initialSymbolId "o1") defaultSlots;
                 store := Samples.loaded |}) = Samples.loaded.
Proof.
  destruct (handleDropSymbol_slots_and_store "slot-3" "e1"
              {| timelineSlots := List.map (with_initialSymbolId "o1") defaultSlots;
                 store := Samples.loaded |})
    as (_ & Hslot & Hfilled & Hstore & _).
  split_and!.
  - apply Hfilled. reflexivity.
  - destruct (Hslot 2%nat
                {| slot_id := "slot-3"; timeId := "t0";
                   slot_locationId := "loc-living-room"; symbolType := event;
                   initialSymbolId := Some "o1" |})
      as (slot' & Hlk & Hsym & _); [reflexivity|].
    by exists slot'.
  - apply Hstore. reflexivity.
Defined.

End TimelineSymbols.
